(** * AI_QUERY_APP: the frontend's handlers, table, chart and export code

    A shallow embedding of the TypeScript sources under [frontend/src]
    (DataTable.tsx, DataEditor.tsx, QueryInput.tsx, ChartDisplay.tsx,
    FileUpload.tsx, lib/api.ts, lib/download.ts, app/page.tsx) together
    with a model of the HTTP backend they talk to.  The backend is not
    part of the sources; where a property depends on it, it is modelled
    from the specification and marked so.

    Conventions.
    - A JavaScript string is a [string]; its characters are the code
      units below 256.
    - A JavaScript number is an exact integer ([Z]); [NaN] is [None] in
      [option Z].  Ordering and the sign of a difference agree with the
      ones of IEEE doubles on the values both represent.
    - A [Record<string, unknown>] is an association list in
      [Object.keys] order; cell values are scalars.
    - An [async] handler is a state-passing function in the monad [Eff]:
      it threads the component state and the world (dataset store and
      event log) and ends in [Ok] or in [Throw]. *)

From Stdlib Require Import ZArith Ascii String.
From stdpp Require Import base option list sorting strings gmap.

Local Open Scope string_scope.
Local Open Scope list_scope.
Local Open Scope Z_scope.

(** ** JavaScript values and strings *)

Module Js.

Inductive JsValue : Type :=
| JNull
| JUndefined
| JBool (b : bool)
| JNum (n : Z)
| JStr (s : string).

(** A row of a table: the object's own keys in [Object.keys] order. *)
Definition Record : Type := list (string * JsValue).

Definition keys (r : Record) : list string := map fst r.

(** [row[key]]: the property's value, [undefined] when absent. *)
Fixpoint get (r : Record) (key : string) : JsValue :=
  match r with
  | [] => JUndefined
  | (k, v) :: r' => if String.eqb k key then v else get r' key
  end.

(** [row[key] = v] on an object: overwrite in place or append. *)
Fixpoint set (r : Record) (key : string) (v : JsValue) : Record :=
  match r with
  | [] => [(key, v)]
  | (k, w) :: r' =>
      if String.eqb k key then (k, v) :: r' else (k, w) :: set r' key v
  end.

(** What [throw] carries: an [Error] with its message, or anything else. *)
Inductive Thrown : Type :=
| ErrorObj (message : string)
| NonError.

(** [e instanceof Error ? e.message : fallback] *)
Definition message_or (e : Thrown) (fallback : string) : string :=
  match e with
  | ErrorObj m => m
  | NonError => fallback
  end.

(** *** Characters *)

Definition code (c : ascii) : N := N_of_ascii c.

(** White space and line terminators below 256 (what [trim] strips). *)
Definition is_space (c : ascii) : bool :=
  let n := code c in
  ((9 <=? n) && (n <=? 13) || (n =? 32) || (n =? 160))%N.

(** [toLowerCase] on one code unit below 256: A-Z and the Latin-1
    capitals (all of 192..222 but the multiplication sign 215). *)
Definition lower_char (c : ascii) : ascii :=
  let n := code c in
  if ((65 <=? n) && (n <=? 90)
      || (192 <=? n) && (n <=? 222) && negb (n =? 215))%N
  then ascii_of_N (n + 32) else c.

Fixpoint toLowerCase (s : string) : string :=
  match s with
  | EmptyString => EmptyString
  | String c s' => String (lower_char c) (toLowerCase s')
  end.

(** *** Searching and cutting *)

Fixpoint trimStart (s : string) : string :=
  match s with
  | EmptyString => EmptyString
  | String c s' => if is_space c then trimStart s' else s
  end.

(** [trimEnd] drops the trailing run of white space. *)
Fixpoint trimEnd (s : string) : string :=
  match s with
  | EmptyString => EmptyString
  | String c s' =>
      match trimEnd s' with
      | EmptyString => if is_space c then EmptyString else String c EmptyString
      | t => String c t
      end
  end.

Definition trim (s : string) : string := trimEnd (trimStart s).

(** A string is falsy exactly when it is empty. *)
Definition truthy (s : string) : bool :=
  match s with EmptyString => false | _ => true end.

(** [s.includes(c)] for a one-character needle. *)
Fixpoint includes_char (s : string) (c : ascii) : bool :=
  match s with
  | EmptyString => false
  | String d s' => Ascii.eqb d c || includes_char s' c
  end.

(** [s.lastIndexOf(c)] for a one-character needle, counted from [i];
    -1 when [c] does not occur. *)
Fixpoint lastIndexOf_from (s : string) (c : ascii) (i : Z) : Z :=
  match s with
  | EmptyString => -1
  | String d s' =>
      let later := lastIndexOf_from s' c (i + 1) in
      if 0 <=? later then later
      else if Ascii.eqb d c then i else -1
  end.

Definition lastIndexOf (s : string) (c : ascii) : Z :=
  lastIndexOf_from s c 0.

Fixpoint drop_chars (n : nat) (s : string) : string :=
  match n, s with
  | O, _ => s
  | S _, EmptyString => EmptyString
  | S n', String _ s' => drop_chars n' s'
  end.

(** [s.substring(start)]: a negative start counts as 0, one past the
    end as the length. *)
Definition substring_from (s : string) (start : Z) : string :=
  drop_chars (Z.to_nat (Z.max 0 start)) s.

(** [s.replace(/c/g, by)] for a one-character pattern. *)
Fixpoint replace_all (s : string) (c : ascii) (by_ : string) : string :=
  match s with
  | EmptyString => EmptyString
  | String d s' =>
      if Ascii.eqb d c then by_ +:+ replace_all s' c by_
      else String d (replace_all s' c by_)
  end.

(** [parts.join(sep)] *)
Fixpoint join (sep : string) (parts : list string) : string :=
  match parts with
  | [] => EmptyString
  | [p] => p
  | p :: rest => p +:+ sep +:+ join sep rest
  end.

(** *** Conversions *)

(** Decimal digits of a natural number, most significant first. *)
Fixpoint digits_fuel (fuel : nat) (n : N) (acc : string) : string :=
  match fuel with
  | O => acc
  | S fuel' =>
      let acc' := String (ascii_of_N (48 + n mod 10)) acc in
      if (n <? 10)%N then acc' else digits_fuel fuel' (n / 10)%N acc'
  end.

Definition digits (n : N) : string :=
  digits_fuel (S (N.to_nat (N.log2 n))) n EmptyString.

(** [String(n)] for an integer [n]. *)
Definition number_to_string (n : Z) : string :=
  if n <? 0 then String "-" (digits (Z.to_N (- n))) else digits (Z.to_N n).

(** [String(v)] *)
Definition to_string (v : JsValue) : string :=
  match v with
  | JNull => "null"
  | JUndefined => "undefined"
  | JBool true => "true"
  | JBool false => "false"
  | JNum n => number_to_string n
  | JStr s => s
  end.

(** [v ?? d] *)
Definition nullish_or (v d : JsValue) : JsValue :=
  match v with
  | JNull | JUndefined => d
  | _ => v
  end.

Section Number.
(** The language's StringToNumber on this number model: [None] is
    [NaN].  The handlers are verified for every such function. *)
Variable StringToNumber : string -> option Z.

(** [Number(v)] *)
Definition to_number (v : JsValue) : option Z :=
  match v with
  | JNull => Some 0
  | JUndefined => None
  | JBool true => Some 1
  | JBool false => Some 0
  | JNum n => Some n
  | JStr s => StringToNumber s
  end.

(** [Number(v) || 0]: [NaN] and 0 are the falsy numbers. *)
Definition number_or_zero (v : JsValue) : Z :=
  match to_number v with
  | Some n => n
  | None => 0
  end.
End Number.

(** *** Array.prototype.sort

    The language requires a stable sort; for a consistent comparator
    the result is the stable insertion sort below.  A comparator returns
    a number: negative puts its first argument first. *)
Section Sort.
Context {A : Type}.
Variable cmp : A -> A -> Z.

Fixpoint insert_by (x : A) (l : list A) : list A :=
  match l with
  | [] => [x]
  | y :: l' => if cmp x y <=? 0 then x :: l else y :: insert_by x l'
  end.

Definition sort_by (l : list A) : list A := foldr insert_by [] l.
End Sort.

End Js.

(** ** Handlers as state-passing computations with exceptions *)

Module Eff.

Inductive Outcome (A : Type) : Type :=
| Ok (a : A)
| Throw (e : Js.Thrown).
Arguments Ok {A} a.
Arguments Throw {A} e.

Definition Eff (S A : Type) : Type := S -> Outcome A * S.

Section Ops.
Context {S : Type}.

Definition ret {A} (a : A) : Eff S A := fun s => (Ok a, s).

Definition bind {A B} (m : Eff S A) (k : A -> Eff S B) : Eff S B :=
  fun s =>
    match m s with
    | (Ok a, s') => k a s'
    | (Throw e, s') => (Throw e, s')
    end.

Definition throw {A} (e : Js.Thrown) : Eff S A := fun s => (Throw e, s).

Definition update (f : S -> S) : Eff S unit := fun s => (Ok tt, f s).

Definition read {A} (f : S -> A) : Eff S A := fun s => (Ok (f s), s).

(** [try { m } catch (e) { h e }] *)
Definition try_catch {A} (m : Eff S A) (h : Js.Thrown -> Eff S A) : Eff S A :=
  fun s =>
    match m s with
    | (Ok a, s') => (Ok a, s')
    | (Throw e, s') => h e s'
    end.

(** [try { m } finally { f }]: [f] runs on both exits; the outcome is
    the one of [m] unless [f] itself throws. *)
Definition try_finally {A} (m : Eff S A) (f : Eff S unit) : Eff S A :=
  fun s =>
    match m s with
    | (r, s') =>
        match f s' with
        | (Ok _, s'') => (r, s'')
        | (Throw e, s'') => (Throw e, s'')
        end
    end.
End Ops.

Declare Scope eff_scope.
Delimit Scope eff_scope with eff.
Notation "'let!' x := m 'in' k" := (bind m (fun x => k))
  (at level 10, x pattern, m at level 100, k at level 200) : eff_scope.
Notation "m ;; k" := (bind m (fun _ => k))
  (at level 100, k at level 200, right associativity) : eff_scope.

End Eff.

(** ** lib/api.ts: the wire types

    Field names are the ones of the interfaces.  Where two interfaces of
    api.ts share a field name, the later one carries a prefix here:
    [chart_success], [chart_data], [chart_explanation] of ChartResponse,
    [modify_pandas_code] of DataModifyResult, [page_info] and [page_data]
    of the answer of [getDataset]. *)

Module Api.

Record DatasetInfo : Type := {
  id : string;
  filename : string;
  original_filename : string;
  rows : Z;
  columns : Z;
  column_names : list string;
  column_types : list (string * string);
  file_size : Z;
  uploaded_at : string;
}.

Record DatasetPreview : Type := {
  info : DatasetInfo;
  preview_data : list Js.Record;
}.

(** [result_type: "table" | "value" | "text" | "error"] *)
Inductive ResultType : Type := RtTable | RtValue | RtText | RtError.

(** The string a result kind is on the wire and in a [switch]. *)
Definition result_type_name (t : ResultType) : string :=
  match t with
  | RtTable => "table"
  | RtValue => "value"
  | RtText => "text"
  | RtError => "error"
  end.

(** [data: unknown]: [null], a scalar, an array of records, or
    something else. *)
Inductive Payload : Type :=
| PScalar (v : Js.JsValue)
| PRows (rows : list Js.Record)
| POther.

Record QueryResult : Type := {
  query : string;
  result_type : ResultType;
  data : Payload;
  explanation : string;
  pandas_code : option string;
  execution_time_ms : Z;
}.

(** [chart_type: "bar" | "line" | "pie" | "scatter" | "area"] *)
Inductive ChartType : Type := Bar | Line | Pie | Scatter | Area.

Definition chart_type_name (t : ChartType) : string :=
  match t with
  | Bar => "bar"
  | Line => "line"
  | Pie => "pie"
  | Scatter => "scatter"
  | Area => "area"
  end.

Record ChartConfig : Type := {
  chart_type : ChartType;
  title : string;
  x_axis : option string;
  y_axis : option string;
  x_label : option string;
  y_label : option string;
}.

Record ChartResponse : Type := {
  chart_success : bool;
  config : ChartConfig;
  chart_data : list Js.Record;
  chart_explanation : string;
  error : option string;
}.

Record DataModifyResult : Type := {
  success : bool;
  message : string;
  changes_made : string;
  rows_affected : Z;
  modify_pandas_code : option string;
}.

Record Pagination : Type := {
  current_page : Z;
  page_size : Z;
  total_rows : Z;
  total_pages : Z;
}.

(** What [getDataset] resolves to. *)
Record DatasetPage : Type := {
  page_info : DatasetInfo;
  page_data : list Js.Record;
  pagination : Pagination;
}.

(** A browser [File]: what the handlers read of it. *)
Record File : Type := {
  name : string;
  size : Z;
}.

(** The requests the functions of api.ts issue. *)
Inductive Request : Type :=
| PostUpload (file : File)
| GetDataset (datasetId : string) (page pageSize : Z)
| PostQuery (datasetId query : string) (model : option string)
| PostChart (datasetId query : string) (model : option string)
| PostModify (datasetId command : string) (model : option string)
| PutCell (datasetId : string) (rowIndex : Z) (columnName : string)
          (newValue : Js.JsValue).

End Api.

(** ** The world a handler runs in *)

Module World.
Import Eff.

(** A dataset of the store: its schema metadata and its rows in their
    original order. *)
Record Dataset : Type := {
  ds_info : Api.DatasetInfo;
  ds_rows : list Js.Record;
}.

Inductive Event : Type :=
| Sent (r : Api.Request)
| Called (callback : string).

Record World : Type := {
  store : gmap string Dataset;
  log : list Event;
}.

Definition record (e : Event) (w : World) : World :=
  {| store := store w; log := log w ++ [e] |}.

(** The requests a world has seen, in order. *)
Definition requests (w : World) : list Api.Request :=
  omap (fun e => match e with Sent r => Some r | Called _ => None end) (log w).

(** The callbacks a world has seen invoked, in order. *)
Definition calls (w : World) : list string :=
  omap (fun e => match e with Called c => Some c | Sent _ => None end) (log w).

(** What the server does with each request: any function of the store
    that answers or makes the request fail. *)
Record Server : Type := {
  on_upload : Api.File -> gmap string Dataset ->
              Outcome Api.DatasetPreview * gmap string Dataset;
  on_get_dataset : string -> Z -> Z -> gmap string Dataset ->
                   Outcome Api.DatasetPage * gmap string Dataset;
  on_query : string -> string -> option string -> gmap string Dataset ->
             Outcome Api.QueryResult * gmap string Dataset;
  on_chart : string -> string -> option string -> gmap string Dataset ->
             Outcome Api.ChartResponse * gmap string Dataset;
  on_modify : string -> string -> option string -> gmap string Dataset ->
              Outcome Api.DataModifyResult * gmap string Dataset;
  on_cell : string -> Z -> string -> Js.JsValue -> gmap string Dataset ->
            Outcome unit * gmap string Dataset;
}.

(** One round trip: the request is logged, the server runs on the
    store, the promise resolves or rejects. *)
Definition round_trip {C A} (r : Api.Request)
    (serve : gmap string Dataset -> Outcome A * gmap string Dataset)
  : Eff (C * World) A :=
  fun '(c, w) =>
    let '(a, st) := serve (store w) in
    (a, (c, {| store := st; log := log w ++ [Sent r] |})).

Section Calls.
Variable srv : Server.
Context {C : Type}.

Definition uploadFile (file : Api.File) : Eff (C * World) Api.DatasetPreview :=
  round_trip (Api.PostUpload file) (on_upload srv file).

Definition getDataset (datasetId : string) (page pageSize : Z)
  : Eff (C * World) Api.DatasetPage :=
  round_trip (Api.GetDataset datasetId page pageSize)
             (on_get_dataset srv datasetId page pageSize).

Definition queryDataset (datasetId query : string) (model : option string)
  : Eff (C * World) Api.QueryResult :=
  round_trip (Api.PostQuery datasetId query model)
             (on_query srv datasetId query model).

Definition generateChart (datasetId query : string) (model : option string)
  : Eff (C * World) Api.ChartResponse :=
  round_trip (Api.PostChart datasetId query model)
             (on_chart srv datasetId query model).

Definition modifyData (datasetId command : string) (model : option string)
  : Eff (C * World) Api.DataModifyResult :=
  round_trip (Api.PostModify datasetId command model)
             (on_modify srv datasetId command model).

Definition updateCell (datasetId : string) (rowIndex : Z)
    (columnName : string) (newValue : Js.JsValue)
  : Eff (C * World) unit :=
  round_trip (Api.PutCell datasetId rowIndex columnName newValue)
             (on_cell srv datasetId rowIndex columnName newValue).
End Calls.

(** A callback prop: it may throw; the call is logged. *)
Definition Callback (A : Type) : Type := A -> Outcome unit.

(** [cb?.(a)] *)
Definition call_opt {C A} (name : string) (cb : option (Callback A)) (a : A)
  : Eff (C * World) unit :=
  match cb with
  | None => ret tt
  | Some f => fun '(c, w) => (f a, (c, record (Called name) w))
  end.

(** A [useState] setter on the component's half of the state. *)
Definition set_state {C} (f : C -> C) : Eff (C * World) unit :=
  update (fun '(c, w) => (f c, w)).

End World.

(** ** components/DataEditor.tsx *)

Module DataEditor.
Import Eff World.
Local Open Scope eff_scope.

Record Props : Type := {
  datasetId : string;
  onModifySuccess : option (Callback unit);
  model : option string;
}.

Record State : Type := {
  command : string;
  loading : bool;
  result : option Api.DataModifyResult;
}.

Definition setLoading (b : bool) (s : State) : State :=
  {| command := command s; loading := b; result := result s |}.

Definition setResult (r : option Api.DataModifyResult) (s : State) : State :=
  {| command := command s; loading := loading s; result := r |}.

(** The result the [catch] block builds. *)
Definition failure (error : Js.Thrown) : Api.DataModifyResult :=
  {| Api.success := false;
     Api.message := Js.message_or error "Modification failed";
     Api.changes_made := EmptyString;
     Api.rows_affected := 0;
     Api.modify_pandas_code := None |}.

Section Handlers.
Variable srv : Server.
Variable props : Props.

Definition handleModify : Eff (State * World) unit :=
  let! st := read fst in
  if negb (Js.truthy (Js.trim (command st))) || loading st then ret tt
  else
    set_state (setLoading true) ;;
    set_state (setResult None) ;;
    try_finally
      (try_catch
         (let! modifyResult :=
            modifyData srv (datasetId props) (Js.trim (command st))
                       (model props) in
          set_state (setResult (Some modifyResult)) ;;
          if Api.success modifyResult
          then call_opt "onModifySuccess" (onModifySuccess props) tt
          else ret tt)
         (fun error => set_state (setResult (Some (failure error)))))
      (set_state (setLoading false)).
End Handlers.

End DataEditor.

(** ** components/QueryInput.tsx *)

Module QueryInput.
Import Eff World.
Local Open Scope eff_scope.

Record Props : Type := {
  datasetId : string;
  suggestions : list string;
  model : option string;
  onQueryResult : option (Callback Api.QueryResult);
}.

Record State : Type := {
  query : string;
  loading : bool;
  result : option Api.QueryResult;
  showCode : bool;
  history : list string;
}.

Definition setLoading (b : bool) (s : State) : State :=
  {| query := query s; loading := b; result := result s;
     showCode := showCode s; history := history s |}.

Definition setResult (r : option Api.QueryResult) (s : State) : State :=
  {| query := query s; loading := loading s; result := r;
     showCode := showCode s; history := history s |}.

Definition setHistory (f : list string -> list string) (s : State) : State :=
  {| query := query s; loading := loading s; result := result s;
     showCode := showCode s; history := f (history s) |}.

(** The result the [catch] block builds. *)
Definition failure (query : string) (error : Js.Thrown) : Api.QueryResult :=
  {| Api.query := query;
     Api.result_type := Api.RtError;
     Api.data := Api.PScalar Js.JNull;
     Api.explanation := Js.message_or error "Query failed";
     Api.pandas_code := None;
     Api.execution_time_ms := 0 |}.

Section Handlers.
Variable srv : Server.
Variable props : Props.

Definition handleSubmit : Eff (State * World) unit :=
  let! st := read fst in
  let q := Js.trim (query st) in
  if negb (Js.truthy q) || loading st then ret tt
  else
    set_state (setLoading true) ;;
    set_state (setResult None) ;;
    try_finally
      (try_catch
         (let! queryResult :=
            queryDataset srv (datasetId props) q (model props) in
          set_state (setResult (Some queryResult)) ;;
          call_opt "onQueryResult" (onQueryResult props) queryResult ;;
          set_state (setHistory (fun prev =>
            take 10 (q :: filter (fun h => h ≠ q) prev))))
         (fun error =>
            set_state (setResult (Some (failure (query st) error)))))
      (set_state (setLoading false)).
End Handlers.

(** What [renderResult] returns. *)
Inductive Rendered : Type :=
| Nothing
| Table (data : list Js.Record) (columns : list string)
| NoDataReturned
| ValueBox (data : Api.Payload)
| TextBox (data : Api.Payload)
| ErrorBox (explanation : string)
| RawJson (data : Api.Payload).

(** The [switch] of [renderResult] on the discriminant as it is at run
    time, a string. *)
Definition renderSwitch (result_type : string) (data : Api.Payload)
    (explanation : string) : Rendered :=
  if String.eqb result_type "table" then
    match data with
    | Api.PRows (row :: rows) => Table (row :: rows) (Js.keys row)
    | _ => NoDataReturned
    end
  else if String.eqb result_type "value" then ValueBox data
  else if String.eqb result_type "text" then TextBox data
  else if String.eqb result_type "error" then ErrorBox explanation
  else RawJson data.

Definition renderResult (result : option Api.QueryResult) : Rendered :=
  match result with
  | None => Nothing
  | Some r =>
      renderSwitch (Api.result_type_name (Api.result_type r)) (Api.data r)
                   (Api.explanation r)
  end.

End QueryInput.

(** ** Arrays as objects: a heap of arrays of records *)

Module Heap.
Import Eff.

(** An address is an index into the heap. *)
Abbreviation Ref := nat (only parsing).
Abbreviation Heap := (list (list Js.Record)) (only parsing).

Definition deref (h : Heap) (r : Ref) : list Js.Record := default [] (h !! r).

Definition alloc (a : list Js.Record) : Eff Heap Ref :=
  fun h => (Ok (length h), h ++ [a]).

(** [[...a]]: a fresh array with the elements of [a]. *)
Definition spread (a : Ref) : Eff Heap Ref :=
  fun h => alloc (deref h a) h.

(** [a.sort(cmp)]: sorts [a] in place and returns [a] itself. *)
Definition sort (cmp : Js.Record -> Js.Record -> Z) (a : Ref) : Eff Heap Ref :=
  fun h => (Ok a, <[a := Js.sort_by cmp (deref h a)]> h).

(** [a.slice(0, n)]: a fresh array. *)
Definition slice0 (n : nat) (a : Ref) : Eff Heap Ref :=
  fun h => alloc (take n (deref h a)) h.

End Heap.

(** ** components/ChartDisplay.tsx *)

Module ChartDisplay.
Import Eff World.
Local Open Scope eff_scope.

Record Props : Type := {
  datasetId : string;
  model : option string;
}.

Record State : Type := {
  query : string;
  loading : bool;
  chartData : option Api.ChartResponse;
  error : option string;
}.

Definition setLoading (b : bool) (s : State) : State :=
  {| query := query s; loading := b; chartData := chartData s;
     error := error s |}.

Definition setChartData (c : option Api.ChartResponse) (s : State) : State :=
  {| query := query s; loading := loading s; chartData := c;
     error := error s |}.

Definition setError (e : option string) (s : State) : State :=
  {| query := query s; loading := loading s; chartData := chartData s;
     error := e |}.

(** [s || d] on [string | null | undefined]: the empty string is falsy. *)
Definition or_else (s : option string) (d : string) : string :=
  match s with
  | Some t => if Js.truthy t then t else d
  | None => d
  end.

Section Handlers.
Variable srv : Server.
Variable props : Props.

Definition handleGenerate : Eff (State * World) unit :=
  let! st := read fst in
  let q := Js.trim (query st) in
  if negb (Js.truthy q) || loading st then ret tt
  else
    set_state (setLoading true) ;;
    set_state (setError None) ;;
    try_finally
      (try_catch
         (let! result := generateChart srv (datasetId props) q (model props) in
          if Api.chart_success result
          then set_state (setChartData (Some result))
          else set_state (setError
                 (Some (or_else (Api.error result) "Failed to generate chart"))))
         (fun err =>
            set_state (setError
              (Some (Js.message_or err "Failed to generate chart")))))
      (set_state (setLoading false)).
End Handlers.

(** What the component shows below the input: the error box, the chart
    card and the empty state, each under its own condition. *)
Record View : Type := {
  error_box : option string;
  chart_card : option Api.ChartResponse;
  empty_state : bool;
}.

Definition render (s : State) : View :=
  {| error_box :=
       match error s with
       | Some e => if Js.truthy e then Some e else None
       | None => None
       end;
     chart_card :=
       match chartData s with
       | Some c => if Api.chart_success c then Some c else None
       | None => None
       end;
     empty_state :=
       match chartData s with
       | Some _ => false
       | None =>
           negb (loading s)
           && negb match error s with Some e => Js.truthy e | None => false end
       end |}.

(** *** renderChart *)

Definition COLORS : list string :=
  ["#8b5cf6"; "#06b6d4"; "#f59e0b"; "#ef4444";
   "#10b981"; "#f97316"; "#ec4899"; "#6366f1"].

(** [items.map((_, index) => <Cell fill={COLORS[index % COLORS.length]} />)] *)
Definition cells (n : nat) : list string :=
  map (fun index => default EmptyString (COLORS !! (index mod length COLORS)%nat)) (seq 0 n).

(** What [renderChart] reads of [chartData] at run time: the
    discriminant is a string and [data] is a reference to an array. *)
Record Chart : Type := {
  chart_type : string;
  x_axis : option string;
  y_axis : option string;
  data : Heap.Ref;
}.

(** A stored response whose rows are the array at [data]. *)
Definition chart_of (r : Api.ChartResponse) (data : Heap.Ref) : Chart :=
  {| chart_type := Api.chart_type_name (Api.chart_type (Api.config r));
     x_axis := Api.x_axis (Api.config r);
     y_axis := Api.y_axis (Api.config r);
     data := data |}.

Inductive Element : Type :=
| NoData
| BarChart (data : Heap.Ref) (xKey : option string) (yKey : string)
           (cells : list string)
| LineChart (data : Heap.Ref) (xKey : option string) (yKey : string)
| PieChart (pieData : Heap.Ref) (nameKey : option string) (dataKey : string)
           (cells : list string)
| ScatterChart (data : Heap.Ref) (xKey : option string) (yKey : string)
| AreaChart (data : Heap.Ref) (xKey : option string) (yKey : string)
| Unsupported (chart_type : string).

(** The kind of chart an element is, if it is a chart. *)
Definition element_kind (e : Element) : option Api.ChartType :=
  match e with
  | BarChart _ _ _ _ => Some Api.Bar
  | LineChart _ _ _ => Some Api.Line
  | PieChart _ _ _ _ => Some Api.Pie
  | ScatterChart _ _ _ => Some Api.Scatter
  | AreaChart _ _ _ => Some Api.Area
  | NoData | Unsupported _ => None
  end.

(** [s || k], where [k] may be [undefined]. *)
Definition or_key (s : option string) (k : option string) : option string :=
  match s with
  | Some t => if Js.truthy t then Some t else k
  | None => k
  end.

Section Render.
Variable StringToNumber : string -> option Z.

(** [(a, b) => (Number(b[yKey]) || 0) - (Number(a[yKey]) || 0)] *)
Definition pie_cmp (yKey : string) (a b : Js.Record) : Z :=
  Js.number_or_zero StringToNumber (Js.get b yKey)
  - Js.number_or_zero StringToNumber (Js.get a yKey).

Definition renderChart (chartData : option Chart) : Eff Heap.Heap Element :=
  match chartData with
  | None => ret NoData
  | Some chart =>
      let! rows := read (fun h => Heap.deref h (data chart)) in
      match rows with
      | [] => ret NoData
      | first :: _ =>
          let xKey := or_key (x_axis chart) (Js.keys first !! 0%nat) in
          let yKey := or_else (or_key (y_axis chart) (Js.keys first !! 1%nat))
                              "count" in
          let t := chart_type chart in
          if String.eqb t "bar" then
            ret (BarChart (data chart) xKey yKey (cells (length rows)))
          else if String.eqb t "line" then
            ret (LineChart (data chart) xKey yKey)
          else if String.eqb t "pie" then
            let! copy := Heap.spread (data chart) in
            let! sorted := Heap.sort (pie_cmp yKey) copy in
            let! pieData := Heap.slice0 10 sorted in
            let! n := read (fun h => length (Heap.deref h pieData)) in
            ret (PieChart pieData xKey yKey (cells n))
          else if String.eqb t "scatter" then
            ret (ScatterChart (data chart) xKey yKey)
          else if String.eqb t "area" then
            ret (AreaChart (data chart) xKey yKey)
          else ret (Unsupported t)
      end
  end.
End Render.

End ChartDisplay.

(** ** components/FileUpload.tsx *)

Module FileUpload.
Import Eff World.
Local Open Scope eff_scope.

Record Props : Type := {
  onUploadSuccess : Callback Api.DatasetPreview;
  onUploadError : option (Callback string);
}.

Record State : Type := {
  uploading : bool;
  uploadedFile : option Api.File;
  error : option string;
  success : bool;
}.

Definition setUploading (b : bool) (s : State) : State :=
  {| uploading := b; uploadedFile := uploadedFile s; error := error s;
     success := success s |}.

Definition setUploadedFile (f : option Api.File) (s : State) : State :=
  {| uploading := uploading s; uploadedFile := f; error := error s;
     success := success s |}.

Definition setError (e : option string) (s : State) : State :=
  {| uploading := uploading s; uploadedFile := uploadedFile s; error := e;
     success := success s |}.

Definition setSuccess (b : bool) (s : State) : State :=
  {| uploading := uploading s; uploadedFile := uploadedFile s;
     error := error s; success := b |}.

Definition validTypes : list string := [".csv"; ".xlsx"; ".xls"].

(** [file.name.substring(file.name.lastIndexOf(".")).toLowerCase()] *)
Definition fileExt (file : Api.File) : string :=
  Js.toLowerCase
    (Js.substring_from (Api.name file) (Js.lastIndexOf (Api.name file) ".")).

(** [validTypes.includes(fileExt)] *)
Definition valid (file : Api.File) : bool :=
  existsb (String.eqb (fileExt file)) validTypes.

Definition invalidMsg : string :=
  "Invalid file type. Please upload a CSV or Excel file.".

Section Handlers.
Variable srv : Server.
Variable props : Props.

Definition onDrop (acceptedFiles : list Api.File) : Eff (State * World) unit :=
  match acceptedFiles with
  | [] => ret tt
  | file :: _ =>
      if negb (valid file) then
        set_state (setError (Some invalidMsg)) ;;
        call_opt "onUploadError" (onUploadError props) invalidMsg
      else
        set_state (setUploadedFile (Some file)) ;;
        set_state (setError None) ;;
        set_state (setSuccess false) ;;
        set_state (setUploading true) ;;
        try_finally
          (try_catch
             (let! result := uploadFile srv file in
              set_state (setSuccess true) ;;
              call_opt "onUploadSuccess" (Some (onUploadSuccess props)) result)
             (fun err =>
                let errorMsg := Js.message_or err "Upload failed" in
                set_state (setError (Some errorMsg)) ;;
                call_opt "onUploadError" (onUploadError props) errorMsg))
          (set_state (setUploading false))
  end.
End Handlers.

Definition resetUpload (s : State) : State :=
  {| uploading := uploading s; uploadedFile := None; error := None;
     success := false |}.

End FileUpload.

(** ** components/DataTable.tsx *)

Module DataTable.

Inductive Direction : Type := Asc | Desc.

Record Props : Type := {
  data : list Js.Record;
  columns : list string;
  totalRows : Z;
  currentPage : Z;
  totalPages : Z;
  pageSize : Z;
  onPageChange : bool;    (* is the callback given? *)
  onCellEdit : bool;      (* is the callback given? *)
  loading : bool;
}.

Record State : Type := {
  editingCell : option (nat * string);   (* { row, column } *)
  editValue : string;
  sortColumn : option string;
  sortDirection : Direction;
}.

Definition initial : State :=
  {| editingCell := None; editValue := EmptyString; sortColumn := None;
     sortDirection := Asc |}.

(** The arguments of one [onCellEdit] call. *)
Record CellEdit : Type := {
  rowIndex : Z;
  columnName : string;
  newValue : Js.JsValue;
}.

Section Table.
Variable StringToNumber : string -> option Z.
Variable localeCompare : string -> string -> Z.
Variable props : Props.

(** The comparator handed to [sort]. *)
Definition compare_rows (column : string) (dir : Direction)
    (a b : Js.Record) : Z :=
  let aVal := Js.get a column in
  let bVal := Js.get b column in
  match aVal, bVal with
  | (Js.JNull | Js.JUndefined), _ => 1
  | _, (Js.JNull | Js.JUndefined) => -1
  | Js.JNum x, Js.JNum y =>
      match dir with Asc => x - y | Desc => y - x end
  | _, _ =>
      let aStr := Js.toLowerCase (Js.to_string aVal) in
      let bStr := Js.toLowerCase (Js.to_string bVal) in
      match dir with
      | Asc => localeCompare aStr bStr
      | Desc => localeCompare bStr aStr
      end
  end.

(** [sortedData]: [data] itself without a sort column, else a sorted
    copy. *)
Definition sortedData (s : State) : list Js.Record :=
  match sortColumn s with
  | None => data props
  | Some column =>
      if Js.truthy column
      then Js.sort_by (compare_rows column (sortDirection s)) (data props)
      else data props
  end.

Definition handleSort (column : string) (s : State) : State :=
  if bool_decide (sortColumn s = Some column) then
    {| editingCell := editingCell s; editValue := editValue s;
       sortColumn := sortColumn s;
       sortDirection :=
         match sortDirection s with Asc => Desc | Desc => Asc end |}
  else
    {| editingCell := editingCell s; editValue := editValue s;
       sortColumn := Some column; sortDirection := Asc |}.

Definition startEditing (rowIndex : nat) (column : string)
    (value : Js.JsValue) (s : State) : State :=
  {| editingCell := Some (rowIndex, column);
     editValue := Js.to_string (Js.nullish_or value (Js.JStr EmptyString));
     sortColumn := sortColumn s; sortDirection := sortDirection s |}.

(** The input's [onChange]. *)
Definition setEditValue (text : string) (s : State) : State :=
  {| editingCell := editingCell s; editValue := text;
     sortColumn := sortColumn s; sortDirection := sortDirection s |}.

Definition cancelEditing (s : State) : State :=
  {| editingCell := None; editValue := EmptyString;
     sortColumn := sortColumn s; sortDirection := sortDirection s |}.

(** The click on the pencil of the row shown at position [rowIndex]:
    [sortedData.map((row, rowIndex) => ... startEditing(rowIndex,
    column, row[column]))]; the button exists only with [onCellEdit]. *)
Definition clickEdit (rowIndex : nat) (column : string) (s : State) : State :=
  match sortedData s !! rowIndex with
  | Some row =>
      if onCellEdit props
      then startEditing rowIndex column (Js.get row column) s
      else s
  | None => s
  end.

(** The value [saveEdit] sends: a number if the text looks like one. *)
Definition parsed (text : string) : Js.JsValue :=
  match StringToNumber text with
  | Some n => if Js.truthy (Js.trim text) then Js.JNum n else Js.JStr text
  | None => Js.JStr text
  end.

(** [saveEdit]: the [onCellEdit] call it makes, if any, and the state
    after [cancelEditing]. *)
Definition saveEdit (s : State) : option CellEdit * State :=
  (match editingCell s with
   | Some (row, column) =>
       if onCellEdit props then
         Some {| rowIndex := (currentPage props - 1) * pageSize props
                             + Z.of_nat row;
                 columnName := column;
                 newValue := parsed (editValue s) |}
       else None
   | None => None
   end,
   cancelEditing s).

(** The number in the first column of the row at position [rowIndex]. *)
Definition rowNumber (rowIndex : nat) : Z :=
  (currentPage props - 1) * pageSize props + Z.of_nat rowIndex + 1.

(** The footer [Showing a to b of n rows], when it is rendered. *)
Definition showing : option (Z * Z * Z) :=
  if (1 <? totalPages props) && onPageChange props
  then Some ((currentPage props - 1) * pageSize props + 1,
             Z.min (currentPage props * pageSize props) (totalRows props),
             totalRows props)
  else None.
End Table.

Section Keys.
Variable StringToNumber : string -> option Z.
Variable props : Props.

(** [handleKeyDown] of the input: Enter saves, Escape cancels. *)
Definition handleKeyDown (key : string) (s : State) : option CellEdit * State :=
  if String.eqb key "Enter" then saveEdit StringToNumber props s
  else if String.eqb key "Escape" then (None, cancelEditing s)
  else (None, s).
End Keys.

End DataTable.

(** ** app/page.tsx: the handlers behind the data tab *)

Module Home.
Import Eff World.
Local Open Scope eff_scope.

Record State : Type := {
  selectedDataset : option Api.DatasetInfo;
  tableData : list Js.Record;
  pagination : Api.Pagination;
  loading : bool;
}.

Definition setLoading (b : bool) (s : State) : State :=
  {| selectedDataset := selectedDataset s; tableData := tableData s;
     pagination := pagination s; loading := b |}.

Definition setTableData (d : list Js.Record) (s : State) : State :=
  {| selectedDataset := selectedDataset s; tableData := d;
     pagination := pagination s; loading := loading s |}.

Definition setPagination (p : Api.Pagination) (s : State) : State :=
  {| selectedDataset := selectedDataset s; tableData := tableData s;
     pagination := p; loading := loading s |}.

(** The props the page gives its [DataTable]. *)
Definition tableProps (s : State) (info : Api.DatasetInfo) : DataTable.Props :=
  {| DataTable.data := tableData s;
     DataTable.columns := Api.column_names info;
     DataTable.totalRows := Api.total_rows (pagination s);
     DataTable.currentPage := Api.current_page (pagination s);
     DataTable.totalPages := Api.total_pages (pagination s);
     DataTable.pageSize := Api.page_size (pagination s);
     DataTable.onPageChange := true;
     DataTable.onCellEdit := true;
     DataTable.loading := loading s |}.

Section Handlers.
Variable srv : Server.

Definition handlePageChange (page : Z) : Eff (State * World) unit :=
  let! st := read fst in
  match selectedDataset st with
  | None => ret tt
  | Some ds =>
      set_state (setLoading true) ;;
      try_finally
        (try_catch
           (let! result :=
              getDataset srv (Api.id ds) page (Api.page_size (pagination st)) in
            set_state (setTableData (Api.page_data result)) ;;
            set_state (setPagination (Api.pagination result)))
           (fun _ => ret tt))
        (set_state (setLoading false))
  end.

Definition handleCellEdit (e : DataTable.CellEdit) : Eff (State * World) unit :=
  let! st := read fst in
  match selectedDataset st with
  | None => ret tt
  | Some ds =>
      try_catch
        (updateCell srv (Api.id ds) (DataTable.rowIndex e)
                    (DataTable.columnName e) (DataTable.newValue e) ;;
         handlePageChange (Api.current_page (pagination st)))
        (fun _ => ret tt)
  end.
End Handlers.

End Home.

(** ** lib/download.ts *)

Module Download.

Definition comma : ascii := ","%char.
Definition dquote : ascii := "034"%char.
Definition newline : ascii := "010"%char.

Definition str (c : ascii) : string := String c EmptyString.

(** [String(value ?? '')], the empty string for null and undefined *)
Definition stringValue (value : Js.JsValue) : string :=
  Js.to_string (Js.nullish_or value (Js.JStr EmptyString)).

(** A value with a comma, a quote or a line feed is quoted, its quotes
    doubled. *)
Definition escape (stringValue : string) : string :=
  if Js.includes_char stringValue comma
     || Js.includes_char stringValue dquote
     || Js.includes_char stringValue newline
  then str dquote +:+ Js.replace_all stringValue dquote (str dquote +:+ str dquote)
       +:+ str dquote
  else stringValue.

(** The strings [escape] leaves as they are: no comma, no double quote,
    no line feed. *)
Definition plain (s : string) : bool :=
  negb (Js.includes_char s comma || Js.includes_char s dquote
        || Js.includes_char s newline).

Definition csvRow (headers : list string) (row : Js.Record) : string :=
  Js.join (str comma) (map (fun header => escape (stringValue (Js.get row header))) headers).

(** The text [downloadCSV] puts in the blob; [None] when it returns
    early with a warning. *)
Definition downloadCSV (data : list Js.Record) : option string :=
  match data with
  | [] => None
  | first :: _ =>
      let headers := Js.keys first in
      let csvRows := Js.join (str comma) headers :: map (csvRow headers) data in
      Some (Js.join (str newline) csvRows)
  end.

Definition tab : ascii := "009"%char.

(** The text [copyToClipboard] builds: tab-separated values, nothing
    quoted; [None] when it returns [false] at once. *)
Definition clipboardText (data : list Js.Record) : option string :=
  match data with
  | [] => None
  | first :: _ =>
      let headers := Js.keys first in
      let rows := Js.join (str tab) headers
                  :: map (fun row =>
                            Js.join (str tab)
                              (map (fun h => stringValue (Js.get row h)) headers))
                         data in
      Some (Js.join (str newline) rows)
  end.

(** [copyToClipboard]: the texts written to the clipboard and the
    boolean returned; [writeText] is the browser's, it may reject. *)
Definition copyToClipboard (writeText : string -> Eff.Outcome unit)
    (data : list Js.Record) : list string * bool :=
  match clipboardText data with
  | None => ([], false)
  | Some text =>
      match writeText text with
      | Eff.Ok _ => ([text], true)
      | Eff.Throw _ => ([text], false)
      end
  end.

End Download.

(** ** The backend: dataset store, executor and chart generation

    The service behind the HTTP API is not among the sources.  Its
    operations are modelled from the specification (sections 3, 4.4,
    4.5, 7 and 8). *)

Module Backend.
Import Eff World.

(** Modelled from the spec: the backend's pagination arithmetic is
    missing; [total_pages = ceil(R / P)], the least number of pages of
    [P] rows that hold [R] rows. *)
Definition total_pages_of (R P : Z) : Z := (R + P - 1) / P.

(** Modelled from the spec: the backend's row slicing is missing; page
    [p] of size [P] is the slice of the rows, in their original order,
    that starts at global index [(p-1)*P] and has at most [P] rows. *)
Definition page_rows (rows : list Js.Record) (page page_size : Z)
  : list Js.Record :=
  take (Z.to_nat page_size) (drop (Z.to_nat ((page - 1) * page_size)) rows).

(** Modelled from the spec: the dataset-not-found error of the missing
    backend, as the rejection the caller sees. *)
Definition not_found : Js.Thrown := Js.ErrorObj "Dataset not found".

(** Modelled from the spec: the handler of [GET /api/datasets/{id}] is
    missing; it answers with the info, the row slice and the pagination
    metadata, and fails for an unknown identifier. *)
Definition get_dataset (id : string) (page page_size : Z)
    (st : gmap string Dataset) : Outcome Api.DatasetPage * gmap string Dataset :=
  match st !! id with
  | None => (Throw not_found, st)
  | Some ds =>
      let R := Z.of_nat (length (ds_rows ds)) in
      (Ok {| Api.page_info := ds_info ds;
             Api.page_data := page_rows (ds_rows ds) page page_size;
             Api.pagination :=
               {| Api.current_page := page;
                  Api.page_size := page_size;
                  Api.total_rows := R;
                  Api.total_pages := total_pages_of R page_size |} |},
       st)
  end.

(** Modelled from the spec: a cell update of the missing store replaces
    the row data of a dataset in place; it changes neither the number of
    rows nor the columns, so the metadata stays. *)
Definition with_rows (ds : Dataset) (rows : list Js.Record) : Dataset :=
  {| ds_info := ds_info ds; ds_rows := rows |}.

(** Modelled from the spec: the handler of [PUT /api/data/{id}/cell] is
    missing; it writes the new value into the named column of the row
    at the global index, and fails for an unknown dataset, a row index
    out of range or a column that does not exist. *)
Definition update_cell (id : string) (row_index : Z) (column : string)
    (value : Js.JsValue) (st : gmap string Dataset)
  : Outcome unit * gmap string Dataset :=
  match st !! id with
  | None => (Throw not_found, st)
  | Some ds =>
      if (0 <=? row_index) && (row_index <? Z.of_nat (length (ds_rows ds)))
         && bool_decide (column ∈ Api.column_names (ds_info ds))
      then (Ok tt,
            <[id := with_rows ds
                      (alter (fun r => Js.set r column value)
                             (Z.to_nat row_index) (ds_rows ds))]> st)
      else (Throw (Js.ErrorObj "Invalid row index or column"), st)
  end.

(** Modelled from the spec: the stored cell at a global row index and a
    column, as a paginated read returns it. *)
Definition read_cell (id : string) (row_index : Z) (column : string)
    (st : gmap string Dataset) : option Js.JsValue :=
  ds ← st !! id;
  if row_index <? 0 then None
  else (fun r => Js.get r column) <$> ds_rows ds !! Z.to_nat row_index.

(** Modelled from the spec: a column of the dataframe the missing
    Executor works on: its name, its inferred type and its value at
    every row index. *)
Record Column : Type := {
  col_name : string;
  col_type : string;
  col_value : nat -> Js.JsValue;
}.

(** Modelled from the spec: the dataframe: a number of rows and the
    columns in order.  Every row has a value in every column, and a
    dataframe without rows still has its columns. *)
Record Frame : Type := {
  frame_length : nat;
  frame_columns : list Column;
}.

(** Modelled from the spec: the record of the row at an index. *)
Definition frame_row (f : Frame) (i : nat) : Js.Record :=
  map (fun c => (col_name c, col_value c i)) (frame_columns f).

(** Modelled from the spec: the rows of a dataframe, in order. *)
Definition frame_rows (f : Frame) : list Js.Record :=
  map (frame_row f) (seq 0 (frame_length f)).

(** Modelled from the spec: the column list of a dataframe. *)
Definition frame_names (f : Frame) : list string :=
  map col_name (frame_columns f).

(** Modelled from the spec: the inferred type of each column. *)
Definition frame_types (f : Frame) : list (string * string) :=
  map (fun c => (col_name c, col_type c)) (frame_columns f).

(** Modelled from the spec: the inferred type recorded for a column,
    the type of arbitrary objects when none is. *)
Definition type_of (types : list (string * string)) (name : string) : string :=
  match List.find (fun p => String.eqb p.1 name) types with
  | Some p => p.2
  | None => "object"
  end.

(** Modelled from the spec: the dataframe of a stored dataset: the
    columns of its column list, each with the values the rows have
    under its name. *)
Definition frame_of (ds : Dataset) : Frame :=
  {| frame_length := length (ds_rows ds);
     frame_columns :=
       map (fun name =>
              {| col_name := name;
                 col_type := type_of (Api.column_types (ds_info ds)) name;
                 col_value := fun i =>
                   Js.get (default [] (ds_rows ds !! i)) name |})
           (Api.column_names (ds_info ds)) |}.

(** Modelled from the spec: the missing store takes a dataframe over:
    the rows are replaced and the row count and the column list of the
    metadata follow them (section 8, a modify that succeeds leaves row
    count and column list consistent); the identifier, the file names,
    the size and the upload time stay. *)
Definition with_frame (ds : Dataset) (f : Frame) : Dataset :=
  {| ds_info :=
       {| Api.id := Api.id (ds_info ds);
          Api.filename := Api.filename (ds_info ds);
          Api.original_filename := Api.original_filename (ds_info ds);
          Api.rows := Z.of_nat (frame_length f);
          Api.columns := Z.of_nat (length (frame_columns f));
          Api.column_names := frame_names f;
          Api.column_types := frame_types f;
          Api.file_size := Api.file_size (ds_info ds);
          Api.uploaded_at := Api.uploaded_at (ds_info ds) |};
     ds_rows := frame_rows f |}.

(** Modelled from the spec: the interpreted modification is missing; a
    snippet is a sequence of dataframe operations, each of which returns
    the new dataframe or raises. *)
Record Modification : Type := {
  steps : list (Frame -> Outcome Frame);
  code : string;
  description : string;
  affected : Frame -> Frame -> Z;
}.

(** Modelled from the spec: the Executor is missing; it runs the steps
    one after the other on a working copy of the dataframe and stops at
    the first fault. *)
Fixpoint run (steps : list (Frame -> Outcome Frame)) (f : Frame)
  : Outcome Frame :=
  match steps with
  | [] => Ok f
  | step :: rest =>
      match step f with
      | Ok f' => run rest f'
      | Throw e => Throw e
      end
  end.

(** Modelled from the spec: the uniform error-shaped result the missing
    modify handler answers with when a stage fails. *)
Definition modify_failed (msg : string) : Api.DataModifyResult :=
  {| Api.success := false; Api.message := msg; Api.changes_made := EmptyString;
     Api.rows_affected := 0; Api.modify_pandas_code := None |}.

(** Modelled from the spec: the handler of [POST /api/data/modify] is
    missing; a failure of any stage (unknown dataset, generation or
    parse failure, execution fault) becomes a result with
    [success = false] and the store is left as it was; only a run
    without fault replaces the stored dataset, by the dataframe the run
    ends with. *)
Definition modify (interpret : string -> option string -> Api.DatasetInfo ->
                               Outcome Modification)
    (id command : string) (model : option string) (st : gmap string Dataset)
  : Outcome Api.DataModifyResult * gmap string Dataset :=
  match st !! id with
  | None => (Ok (modify_failed "Dataset not found"), st)
  | Some ds =>
      match interpret command model (ds_info ds) with
      | Throw e => (Ok (modify_failed (Js.message_or e "Generation failed")), st)
      | Ok m =>
          match run (steps m) (frame_of ds) with
          | Throw e =>
              (Ok (modify_failed (Js.message_or e "Execution failed")), st)
          | Ok f' =>
              (Ok {| Api.success := true;
                     Api.message := "Modification applied";
                     Api.changes_made := description m;
                     Api.rows_affected := affected m (frame_of ds) f';
                     Api.modify_pandas_code := Some (code m) |},
               <[id := with_frame ds f']> st)
          end
      end
  end.

(** Modelled from the spec: the configuration the missing chart handler
    sends along with a failure; the interface requires one. *)
Definition default_config : Api.ChartConfig :=
  {| Api.chart_type := Api.Bar; Api.title := EmptyString; Api.x_axis := None;
     Api.y_axis := None; Api.x_label := None; Api.y_label := None |}.

(** Modelled from the spec: the uniform error-shaped response the missing
    chart handler answers with when a stage fails. *)
Definition chart_failed (msg : string) : Api.ChartResponse :=
  {| Api.chart_success := false; Api.config := default_config;
     Api.chart_data := []; Api.chart_explanation := EmptyString;
     Api.error := Some msg |}.

(** Modelled from the spec: the columns a generated chart configuration
    refers to, its axis fields; the validation code is missing. *)
Definition referenced (c : Api.ChartConfig) : list string :=
  option_list (Api.x_axis c) ++ option_list (Api.y_axis c).

(** Modelled from the spec: the handler of [POST /api/charts/generate]
    is missing; every column the generated configuration refers to must
    be in the dataset's column list, and a violation, like any other
    failure, is answered with [success = false] and an error text that
    names the column. *)
Definition generate_chart (interpret : string -> option string ->
                                       Api.DatasetInfo -> Outcome Api.ChartConfig)
    (id query : string) (model : option string) (st : gmap string Dataset)
  : Outcome Api.ChartResponse * gmap string Dataset :=
  match st !! id with
  | None => (Ok (chart_failed "Dataset not found"), st)
  | Some ds =>
      match interpret query model (ds_info ds) with
      | Throw e => (Ok (chart_failed (Js.message_or e "Generation failed")), st)
      | Ok cfg =>
          match filter (fun c => c ∉ Api.column_names (ds_info ds))
                       (referenced cfg) with
          | missing :: _ =>
              (Ok (chart_failed ("Column not found: " +:+ missing)), st)
          | [] =>
              (Ok {| Api.chart_success := true; Api.config := cfg;
                     Api.chart_data := ds_rows ds;
                     Api.chart_explanation := Api.title cfg;
                     Api.error := None |}, st)
          end
      end
  end.

(** Modelled from the spec: the missing service as a whole, assembled from
    the handlers above; upload and query are left to the caller. *)
Definition server
    (upload : Api.File -> gmap string Dataset ->
              Outcome Api.DatasetPreview * gmap string Dataset)
    (query : string -> string -> option string -> gmap string Dataset ->
             Outcome Api.QueryResult * gmap string Dataset)
    (interpret_chart : string -> option string -> Api.DatasetInfo ->
                       Outcome Api.ChartConfig)
    (interpret_modify : string -> option string -> Api.DatasetInfo ->
                        Outcome Modification)
  : Server :=
  {| on_upload := upload;
     on_get_dataset := get_dataset;
     on_query := query;
     on_chart := generate_chart interpret_chart;
     on_modify := modify interpret_modify;
     on_cell := update_cell |}.

End Backend.

(** ** Reading CSV text back

    The repository has no CSV reader; the text [downloadCSV] writes is
    read back with the reader of RFC 4180 as spreadsheet programs and
    CSV libraries implement it (the state machine is the one of the
    reader of Python's csv module, excel dialect, strict).  Fields end
    at a comma.  Records end at a line feed, at a carriage return or at
    a carriage return followed by a line feed.  A field that starts with
    a double quote runs to its closing quote; inside it commas and line
    breaks are data and a doubled quote stands for one quote.  A line
    with nothing on it is a record without fields.  The end of the text
    ends the record that is being read; after a line break there is
    none. *)

Module Csv.

Definition cr : ascii := "013"%char.

Inductive Mode : Type :=
| RecordStart    (* at the start of a line *)
| AfterCR        (* at the start of a line, after a carriage return *)
| FieldStart     (* after a comma: nothing of the field read yet *)
| Unquoted       (* inside a bare field *)
| Quoted         (* inside a quoted field *)
| QuoteSeen.     (* a quote seen inside a quoted field *)

(** The reader's state: the mode, the field read so far, the fields of
    the record read so far and the records read so far. *)
Record Reader : Type := {
  mode : Mode;
  field : string;
  fields : list string;
  records : list (list string);
}.

Definition start : Reader :=
  {| mode := RecordStart; field := EmptyString; fields := []; records := [] |}.

Definition snoc (s : string) (c : ascii) : string := s +:+ Download.str c.

Definition add (c : ascii) (m : Mode) (r : Reader) : Reader :=
  {| mode := m; field := snoc (field r) c; fields := fields r;
     records := records r |}.

Definition endField (r : Reader) : Reader :=
  {| mode := FieldStart; field := EmptyString; fields := fields r ++ [field r];
     records := records r |}.

(** A line break in a record: the field and the record end. *)
Definition endRecord (m : Mode) (r : Reader) : Reader :=
  {| mode := m; field := EmptyString; fields := [];
     records := records r ++ [fields r ++ [field r]] |}.

(** A line break at the start of a line: a record without fields. *)
Definition emptyRecord (m : Mode) (r : Reader) : Reader :=
  {| mode := m; field := EmptyString; fields := [];
     records := records r ++ [[]] |}.

Definition enter (m : Mode) (r : Reader) : Reader :=
  {| mode := m; field := field r; fields := fields r;
     records := records r |}.

(** One character.  [None]: text after a closing quote. *)
Definition step (r : Reader) (c : ascii) : option Reader :=
  let on x := Ascii.eqb c x in
  match mode r with
  | AfterCR =>
      if on Download.newline then Some (enter RecordStart r)
      else if on cr then Some (emptyRecord AfterCR r)
      else if on Download.dquote then Some (enter Quoted r)
      else if on Download.comma then Some (endField r)
      else Some (add c Unquoted r)
  | RecordStart =>
      if on Download.newline then Some (emptyRecord RecordStart r)
      else if on cr then Some (emptyRecord AfterCR r)
      else if on Download.dquote then Some (enter Quoted r)
      else if on Download.comma then Some (endField r)
      else Some (add c Unquoted r)
  | FieldStart =>
      if on Download.newline then Some (endRecord RecordStart r)
      else if on cr then Some (endRecord AfterCR r)
      else if on Download.dquote then Some (enter Quoted r)
      else if on Download.comma then Some (endField r)
      else Some (add c Unquoted r)
  | Unquoted =>
      if on Download.newline then Some (endRecord RecordStart r)
      else if on cr then Some (endRecord AfterCR r)
      else if on Download.comma then Some (endField r)
      else Some (add c Unquoted r)
  | Quoted =>
      if on Download.dquote then Some (enter QuoteSeen r)
      else Some (add c Quoted r)
  | QuoteSeen =>
      if on Download.newline then Some (endRecord RecordStart r)
      else if on cr then Some (endRecord AfterCR r)
      else if on Download.dquote then Some (add c Quoted r)
      else if on Download.comma then Some (endField r)
      else None
  end.

Fixpoint run (r : Reader) (text : string) : option Reader :=
  match text with
  | EmptyString => Some r
  | String c text' =>
      match step r c with
      | Some r' => run r' text'
      | None => None
      end
  end.

(** The end of the text: at the start of a line no record is open; a
    quoted field still open is an error; otherwise the open record
    ends. *)
Definition finish (r : Reader) : option (list (list string)) :=
  match mode r with
  | RecordStart | AfterCR => Some (records r)
  | Quoted => None
  | FieldStart | Unquoted | QuoteSeen =>
      Some (records r ++ [fields r ++ [field r]])
  end.

Definition parse (text : string) : option (list (list string)) :=
  match run start text with
  | Some r => finish r
  | None => None
  end.

(** A reader at which a field may start. *)
Definition fresh (r : Reader) : bool :=
  match mode r with
  | RecordStart | AfterCR | FieldStart => true
  | _ => false
  end.

(** A reader inside a record: the end of the text and a line break
    end the record. *)
Definition inside (r : Reader) : bool :=
  match mode r with
  | FieldStart | Unquoted | QuoteSeen => true
  | _ => false
  end.

(** The strings that read back when written bare: no comma, no double
    quote, no line feed and no carriage return. *)
Definition bare (s : string) : bool :=
  Download.plain s && negb (Js.includes_char s cr).

(** The values [escape] writes so that they read back: those it quotes
    and those without a carriage return. *)
Definition safe (v : string) : bool :=
  negb (Download.plain v) || negb (Js.includes_char v cr).

(** The rows whose line is not empty: at least two fields, or one field
    that is not empty. *)
Definition visible (row : list string) : bool :=
  match row with
  | [] => false
  | [v] => Js.truthy v
  | _ => true
  end.

(** The text of one row whose values are all escaped. *)
Definition line (values : list string) : string :=
  Js.join (Download.str Download.comma) (map Download.escape values).

(** The table a list of records stands for: the header row and, for
    every record, the string value of each header's field. *)
Definition table (data : list Js.Record) : list (list string) :=
  match data with
  | [] => []
  | first :: _ =>
      let headers := Js.keys first in
      headers
      :: map (fun row => map (fun h => Download.stringValue (Js.get row h)) headers)
             data
  end.

End Csv.

(** ** Sample data *)

Module Sample.
Import Eff World.

Fixpoint digits_value (s : string) (acc : Z) : option Z :=
  match s with
  | EmptyString => Some acc
  | String c s' =>
      let n := Z.of_N (Js.code c) in
      if (48 <=? n) && (n <=? 57) then digits_value s' (10 * acc + (n - 48))
      else None
  end.

(** StringToNumber on the strings of decimal digits, after trimming;
    the empty string is 0, anything else [NaN]. *)
Definition StringToNumber (s : string) : option Z := digits_value (Js.trim s) 0.

(** A comparison of strings by code units, for [localeCompare]. *)
Definition localeCompare (a b : string) : Z :=
  match String.compare a b with
  | Lt => -1
  | Eq => 0
  | Gt => 1
  end.

Definition info : Api.DatasetInfo :=
  {| Api.id := "d1"; Api.filename := "d1.csv";
     Api.original_filename := "people.csv";
     Api.rows := 2; Api.columns := 2;
     Api.column_names := ["name"; "v"];
     Api.column_types := [("name", "object"); ("v", "int64")];
     Api.file_size := 16; Api.uploaded_at := "2024-01-01T00:00:00" |}.

Definition rows : list Js.Record :=
  [ [("name", Js.JStr "b"); ("v", Js.JNum 2)];
    [("name", Js.JStr "a"); ("v", Js.JNum 1)] ].

Definition dataset : Dataset := {| ds_info := info; ds_rows := rows |}.

Definition store0 : gmap string Dataset := {["d1" := dataset]}.

Definition world0 : World := {| store := store0; log := [] |}.

(** A model that always asks for a bar chart of [v] by [region]. *)
Definition interpret_chart (query : string) (model : option string)
    (info : Api.DatasetInfo) : Outcome Api.ChartConfig :=
  Ok {| Api.chart_type := Api.Bar; Api.title := "Sales by region";
        Api.x_axis := Some "region"; Api.y_axis := Some "v";
        Api.x_label := None; Api.y_label := None |}.

(** The modification that drops every row and keeps the columns. *)
Definition delete_all_rows : Backend.Modification :=
  {| Backend.steps :=
       [fun f => Ok {| Backend.frame_length := 0;
                       Backend.frame_columns := Backend.frame_columns f |}];
     Backend.code := "df = df.iloc[0:0]";
     Backend.description := "Deleted all rows";
     Backend.affected := fun old _ => Z.of_nat (Backend.frame_length old) |}.

(** The modification that drops the column [name]. *)
Definition drop_name : Backend.Modification :=
  {| Backend.steps :=
       [fun f =>
          Ok {| Backend.frame_length := Backend.frame_length f;
                Backend.frame_columns :=
                  filter (fun c => Backend.col_name c ≠ "name")
                         (Backend.frame_columns f) |}];
     Backend.code := "df = df.drop(columns=['name'])";
     Backend.description := "Dropped column name";
     Backend.affected := fun old _ => Z.of_nat (Backend.frame_length old) |}.

(** The modification that adds the column [twice], two times [v]; it
    raises when there is no column [v]. *)
Definition add_twice : Backend.Modification :=
  {| Backend.steps :=
       [fun f =>
          match List.find (fun c => String.eqb (Backend.col_name c) "v")
                          (Backend.frame_columns f) with
          | None => Throw (Js.ErrorObj "KeyError: 'v'")
          | Some v =>
              Ok {| Backend.frame_length := Backend.frame_length f;
                    Backend.frame_columns :=
                      Backend.frame_columns f
                      ++ [{| Backend.col_name := "twice";
                             Backend.col_type := "int64";
                             Backend.col_value := fun i =>
                               match Backend.col_value v i with
                               | Js.JNum n => Js.JNum (n * 2)
                               | _ => Js.JNull
                               end |}] |}
          end];
     Backend.code := "df['twice'] = df['v'] * 2";
     Backend.description := "Added column twice";
     Backend.affected := fun old _ => Z.of_nat (Backend.frame_length old) |}.

(** A model that understands three commands and fails on every other. *)
Definition interpret_modify (command : string) (model : option string)
    (info : Api.DatasetInfo) : Outcome Backend.Modification :=
  if String.eqb command "Delete all rows" then Ok delete_all_rows
  else if String.eqb command "Drop the name column" then Ok drop_name
  else if String.eqb command "Add a new column 'twice' as v * 2"
       then Ok add_twice
  else Throw (Js.ErrorObj "Could not interpret the command").

(** A server that rejects uploads and queries and otherwise is the
    backend with these two models. *)
Definition server : Server :=
  Backend.server
    (fun _ st => (Throw (Js.ErrorObj "Network Error"), st))
    (fun _ _ _ st => (Throw (Js.ErrorObj "Network Error"), st))
    interpret_chart interpret_modify.

End Sample.

(** ** components/ThemeProvider.tsx and components/ThemeToggle.tsx *)

Module Theme.

(** What the provider touches of the browser: local storage, the media
    query [prefers-color-scheme: dark], the class list of the root
    element (a list of distinct tokens, in order) and the message the
    browser gives the DOMException its [classList.add] throws for a
    token. *)
Record Browser : Type := {
  localStorage : gmap string string;
  prefersDark : bool;
  classList : list string;
  domMessage : string -> string;
}.

(** The theme is a string at run time: the saved value is cast, not
    checked. *)
Record State : Type := {
  theme : string;
  actualTheme : string;
  mounted : bool;
}.

Definition initial : State :=
  {| theme := "dark"; actualTheme := "dark"; mounted := false |}.

(** [classList.remove(...tokens)] *)
Definition remove (tokens : list string) (classes : list string) : list string :=
  filter (fun c => c ∉ tokens) classes.

(** ASCII white space, which no token of a class list may contain: tab,
    line feed, form feed, carriage return and space. *)
Definition ascii_whitespace (c : ascii) : bool :=
  let n := Js.code c in
  ((n =? 9) || (n =? 10) || (n =? 12) || (n =? 13) || (n =? 32))%N.

Fixpoint has_whitespace (s : string) : bool :=
  match s with
  | EmptyString => false
  | String c s' => ascii_whitespace c || has_whitespace s'
  end.

(** The token set with [token] appended unless it is there. *)
Definition append_token (token : string) (classes : list string) : list string :=
  if bool_decide (token ∈ classes) then classes else classes ++ [token].

(** [classList.add(token)]: throws a DOMException, which is an Error,
    for the empty token (a SyntaxError) and for a token with white space
    (an InvalidCharacterError); [message] is the browser's text for
    it. *)
Definition add (message : string -> string) (token : string)
    (classes : list string) : Eff.Outcome (list string) :=
  if negb (Js.truthy token) || has_whitespace token
  then Eff.Throw (Js.ErrorObj (message token))
  else Eff.Ok (append_token token classes).

(** [applyTheme(newTheme)]: the classes dark and light are removed, the
    new class is added and then the actual theme is set; when [add]
    throws, the removal has happened and the actual theme is not set. *)
Definition applyTheme (newTheme : string) (sb : State * Browser)
  : Eff.Outcome unit * (State * Browser) :=
  let '(s, b) := sb in
  let removed := remove ["dark"; "light"] (classList b) in
  match add (domMessage b) newTheme removed with
  | Eff.Ok classes =>
      (Eff.Ok tt,
       ({| theme := theme s; actualTheme := newTheme; mounted := mounted s |},
        {| localStorage := localStorage b; prefersDark := prefersDark b;
           classList := classes; domMessage := domMessage b |}))
  | Eff.Throw e =>
      (Eff.Throw e,
       (s, {| localStorage := localStorage b; prefersDark := prefersDark b;
              classList := removed; domMessage := domMessage b |}))
  end.

(** The first effect, run once after the first render. *)
Definition mountEffect (sb : State * Browser) : State * Browser :=
  let '(s, b) := sb in
  let savedTheme := localStorage b !! "theme" in
  ({| theme := match savedTheme with
               | Some t => if Js.truthy t then t else theme s
               | None => theme s
               end;
      actualTheme := actualTheme s; mounted := true |}, b).

(** The second effect, run after every change of [theme] or [mounted]. *)
Definition themeEffect (sb : State * Browser)
  : Eff.Outcome unit * (State * Browser) :=
  let '(s, b) := sb in
  if negb (mounted s) then (Eff.Ok tt, sb)
  else if String.eqb (theme s) "system"
       then applyTheme (if prefersDark b then "dark" else "light") sb
       else applyTheme (theme s) sb.

(** Mounting the provider: the first effect, then the second one on the
    state it leaves. *)
Definition mount (sb : State * Browser) : Eff.Outcome unit * (State * Browser) :=
  themeEffect (mountEffect sb).

(** [handleSetTheme], followed by the effect the new theme triggers. *)
Definition handleSetTheme (newTheme : string) (sb : State * Browser)
  : Eff.Outcome unit * (State * Browser) :=
  let '(s, b) := sb in
  themeEffect
    ({| theme := newTheme; actualTheme := actualTheme s; mounted := mounted s |},
     {| localStorage := <["theme" := newTheme]> (localStorage b);
        prefersDark := prefersDark b; classList := classList b;
        domMessage := domMessage b |}).

(** The listener on the media query, registered while the theme is
    "system": the system switches between dark and light. *)
Definition systemChange (matches : bool) (sb : State * Browser)
  : Eff.Outcome unit * (State * Browser) :=
  let '(s, b) := sb in
  let b' := {| localStorage := localStorage b; prefersDark := matches;
               classList := classList b; domMessage := domMessage b |} in
  if mounted s && String.eqb (theme s) "system"
  then applyTheme (if matches then "dark" else "light") (s, b')
  else (Eff.Ok tt, (s, b')).



Inductive Icon : Type := Monitor | Moon | Sun.

Definition getIcon (s : State) : Icon :=
  if String.eqb (theme s) "system" then Monitor
  else if String.eqb (actualTheme s) "dark" then Moon else Sun.

(** [getLabel]: [undefined] for a theme that is none of the three. *)
Definition getLabel (s : State) : option string :=
  if String.eqb (theme s) "light" then Some "Light"
  else if String.eqb (theme s) "dark" then Some "Dark"
  else if String.eqb (theme s) "system" then Some "System"
  else None.

End Theme.

(** ** components/ModelSelector.tsx *)

Module ModelSelector.

Record Model : Type := {
  id : string;
  name : string;
  description : string;
  provider : string;
}.

(** [models.find((m) => m.id === selectedModel) || models[0]] *)
Definition currentModel (selectedModel : string) (models : list Model)
  : option Model :=
  match List.find (fun m => String.eqb (id m) selectedModel) models with
  | Some m => Some m
  | None => head models
  end.

Inductive Icon : Type := ZapOrange | SparklesBlue | SparklesPrimary.

Definition getProviderIcon (provider : string) : Icon :=
  if String.eqb provider "groq" then ZapOrange
  else if String.eqb provider "gemini" then SparklesBlue
  else SparklesPrimary.

Definition getProviderColor (provider : string) : string :=
  if String.eqb provider "groq"
  then "from-orange-500/10 to-orange-500/5 border-orange-500/20"
  else if String.eqb provider "gemini"
  then "from-blue-500/10 to-blue-500/5 border-blue-500/20"
  else "from-primary/10 to-primary/5 border-primary/20".

(** What the component shows: the placeholder, or the button with its
    icon and label and, when open, one entry per model with a check mark
    on the selected one. *)
Inductive View : Type :=
| Placeholder
| Dropdown (icon : Icon) (label : string) (entries : option (list (Model * bool))).

Definition render (selectedModel : string) (models : list Model)
    (loading isOpen : bool) : View :=
  if loading || bool_decide (models = []) then Placeholder
  else
    let current := currentModel selectedModel models in
    let prov := match current with
                | Some m => if Js.truthy (provider m) then provider m else EmptyString
                | None => EmptyString
                end in
    Dropdown (getProviderIcon prov)
      (match current with
       | Some m => if Js.truthy (name m) then name m else "Select Model"
       | None => "Select Model"
       end)
      (if isOpen
       then Some (map (fun m => (m, String.eqb selectedModel (id m))) models)
       else None).

End ModelSelector.

(** ** app/page.tsx: the handlers of the page as a whole *)

Module Page.
Import Eff.
Local Open Scope eff_scope.

(** The requests these handlers issue. *)
Inductive Request : Type :=
| GetDatasets
| GetDataset (datasetId : string) (page pageSize : Z)
| GetSuggestions (datasetId : string)
| DeleteDataset (datasetId : string)
| GetModels.

(** The world of the page: the dataset store behind the server, the
    requests sent so far and the browser's local storage. *)
Record Browser : Type := {
  store : gmap string World.Dataset;
  sent : list Request;
  localStorage : gmap string string;
}.

(** What the server does with each request. *)
Record Server : Type := {
  on_datasets : gmap string World.Dataset ->
                Outcome (list Api.DatasetInfo) * gmap string World.Dataset;
  on_dataset : string -> Z -> Z -> gmap string World.Dataset ->
               Outcome Api.DatasetPage * gmap string World.Dataset;
  on_suggestions : string -> gmap string World.Dataset ->
                   Outcome (list string) * gmap string World.Dataset;
  on_delete : string -> gmap string World.Dataset ->
              Outcome unit * gmap string World.Dataset;
  on_models : gmap string World.Dataset ->
              Outcome (list ModelSelector.Model * string)
              * gmap string World.Dataset;
}.

Record State : Type := {
  datasets : list Api.DatasetInfo;
  selectedDataset : option Api.DatasetInfo;
  tableData : list Js.Record;
  pagination : Api.Pagination;
  suggestions : list string;
  loading : bool;
  activeTab : string;
  models : list ModelSelector.Model;
  selectedModel : string;
  modelsLoading : bool;
}.

Definition initial : State :=
  {| datasets := []; selectedDataset := None; tableData := [];
     pagination := {| Api.current_page := 1; Api.page_size := 50;
                      Api.total_rows := 0; Api.total_pages := 0 |};
     suggestions := []; loading := false; activeTab := "query";
     models := []; selectedModel := EmptyString; modelsLoading := true |}.

Definition setDatasets (f : list Api.DatasetInfo -> list Api.DatasetInfo)
    (s : State) : State :=
  {| datasets := f (datasets s); selectedDataset := selectedDataset s;
     tableData := tableData s; pagination := pagination s;
     suggestions := suggestions s; loading := loading s;
     activeTab := activeTab s; models := models s;
     selectedModel := selectedModel s; modelsLoading := modelsLoading s |}.

Definition setSelectedDataset (d : option Api.DatasetInfo) (s : State) : State :=
  {| datasets := datasets s; selectedDataset := d;
     tableData := tableData s; pagination := pagination s;
     suggestions := suggestions s; loading := loading s;
     activeTab := activeTab s; models := models s;
     selectedModel := selectedModel s; modelsLoading := modelsLoading s |}.

Definition setTableData (d : list Js.Record) (s : State) : State :=
  {| datasets := datasets s; selectedDataset := selectedDataset s;
     tableData := d; pagination := pagination s;
     suggestions := suggestions s; loading := loading s;
     activeTab := activeTab s; models := models s;
     selectedModel := selectedModel s; modelsLoading := modelsLoading s |}.

Definition setPagination (p : Api.Pagination) (s : State) : State :=
  {| datasets := datasets s; selectedDataset := selectedDataset s;
     tableData := tableData s; pagination := p;
     suggestions := suggestions s; loading := loading s;
     activeTab := activeTab s; models := models s;
     selectedModel := selectedModel s; modelsLoading := modelsLoading s |}.

Definition setSuggestions (l : list string) (s : State) : State :=
  {| datasets := datasets s; selectedDataset := selectedDataset s;
     tableData := tableData s; pagination := pagination s;
     suggestions := l; loading := loading s;
     activeTab := activeTab s; models := models s;
     selectedModel := selectedModel s; modelsLoading := modelsLoading s |}.

Definition setLoading (b : bool) (s : State) : State :=
  {| datasets := datasets s; selectedDataset := selectedDataset s;
     tableData := tableData s; pagination := pagination s;
     suggestions := suggestions s; loading := b;
     activeTab := activeTab s; models := models s;
     selectedModel := selectedModel s; modelsLoading := modelsLoading s |}.

Definition setModels (l : list ModelSelector.Model) (s : State) : State :=
  {| datasets := datasets s; selectedDataset := selectedDataset s;
     tableData := tableData s; pagination := pagination s;
     suggestions := suggestions s; loading := loading s;
     activeTab := activeTab s; models := l;
     selectedModel := selectedModel s; modelsLoading := modelsLoading s |}.

Definition setSelectedModel (m : string) (s : State) : State :=
  {| datasets := datasets s; selectedDataset := selectedDataset s;
     tableData := tableData s; pagination := pagination s;
     suggestions := suggestions s; loading := loading s;
     activeTab := activeTab s; models := models s;
     selectedModel := m; modelsLoading := modelsLoading s |}.

Definition setModelsLoading (b : bool) (s : State) : State :=
  {| datasets := datasets s; selectedDataset := selectedDataset s;
     tableData := tableData s; pagination := pagination s;
     suggestions := suggestions s; loading := loading s;
     activeTab := activeTab s; models := models s;
     selectedModel := selectedModel s; modelsLoading := b |}.

(** A [useState] setter. *)
Definition set_state (f : State -> State) : Eff (State * Browser) unit :=
  update (fun '(s, b) => (f s, b)).

(** One round trip: the request is noted, the server runs on the store,
    the promise resolves or rejects. *)
Definition round_trip {A} (r : Request)
    (serve : gmap string World.Dataset -> Outcome A * gmap string World.Dataset)
  : Eff (State * Browser) A :=
  fun '(s, b) =>
    let '(a, st) := serve (store b) in
    (a, (s, {| store := st; sent := sent b ++ [r];
               localStorage := localStorage b |})).

(** [Promise.all([p, q])] of two calls: both requests go out; the result
    is both answers, or a rejection if either is rejected. *)
Definition both {A B} (p : Eff (State * Browser) A) (q : Eff (State * Browser) B)
  : Eff (State * Browser) (A * B) :=
  fun sb =>
    let '(a, sb1) := p sb in
    let '(b, sb2) := q sb1 in
    (match a, b with
     | Ok x, Ok y => Ok (x, y)
     | Throw e, _ => Throw e
     | _, Throw e => Throw e
     end, sb2).

Section Handlers.
Variable srv : Server.

Definition getDatasets : Eff (State * Browser) (list Api.DatasetInfo) :=
  round_trip GetDatasets (on_datasets srv).

Definition getDataset (datasetId : string) (page pageSize : Z)
  : Eff (State * Browser) Api.DatasetPage :=
  round_trip (GetDataset datasetId page pageSize)
             (on_dataset srv datasetId page pageSize).

Definition getQuerySuggestions (datasetId : string)
  : Eff (State * Browser) (list string) :=
  round_trip (GetSuggestions datasetId) (on_suggestions srv datasetId).

Definition deleteDataset (datasetId : string) : Eff (State * Browser) unit :=
  round_trip (DeleteDataset datasetId) (on_delete srv datasetId).

Definition getModels : Eff (State * Browser) (list ModelSelector.Model * string) :=
  round_trip GetModels (on_models srv).

Definition loadModels : Eff (State * Browser) unit :=
  try_finally
    (try_catch
       (let! result := getModels in
        set_state (setModels result.1) ;;
        let! savedModel := read (fun sb => localStorage sb.2 !! "preferred_model") in
        match savedModel with
        | Some saved =>
            if Js.truthy saved
               && existsb (fun m => String.eqb (ModelSelector.id m) saved) result.1
            then set_state (setSelectedModel saved)
            else set_state (setSelectedModel result.2)
        | None => set_state (setSelectedModel result.2)
        end)
       (fun _ => ret tt))
    (set_state (setModelsLoading false)).

(** The effect on [selectedModel]: a non-empty selection is saved. *)
Definition persistModel (sb : State * Browser) : State * Browser :=
  let '(s, b) := sb in
  if Js.truthy (selectedModel s)
  then (s, {| store := store b; sent := sent b;
              localStorage := <["preferred_model" := selectedModel s]>
                                (localStorage b) |})
  else sb.

Definition loadDatasets : Eff (State * Browser) unit :=
  try_catch
    (let! result := getDatasets in
     set_state (setDatasets (fun _ => result)))
    (fun _ => ret tt).

Definition selectDataset (dataset : Api.DatasetInfo) : Eff (State * Browser) unit :=
  set_state (setSelectedDataset (Some dataset)) ;;
  set_state (setLoading true) ;;
  try_finally
    (try_catch
       (let! results := both (getDataset (Api.id dataset) 1 50)
                             (getQuerySuggestions (Api.id dataset)) in
        set_state (setTableData (Api.page_data results.1)) ;;
        set_state (setPagination (Api.pagination results.1)) ;;
        set_state (setSuggestions results.2))
       (fun _ => ret tt))
    (set_state (setLoading false)).

Definition handleUploadSuccess (data : Api.DatasetPreview)
  : Eff (State * Browser) unit :=
  set_state (setDatasets (fun prev => Api.info data :: prev)) ;;
  selectDataset (Api.info data).

(** The button Switch Dataset: [() => setSelectedDataset(null)]. *)
Definition switchDataset : Eff (State * Browser) unit :=
  set_state (setSelectedDataset None).

(** [confirmed] is the user's answer to the [confirm] dialog. *)
Definition handleDeleteDataset (confirmed : bool) (datasetId : string)
  : Eff (State * Browser) unit :=
  if negb confirmed then ret tt
  else
    let! st := read fst in
    try_catch
      (deleteDataset datasetId ;;
       set_state (setDatasets (filter (fun d => Api.id d ≠ datasetId))) ;;
       match selectedDataset st with
       | Some d =>
           if String.eqb (Api.id d) datasetId
           then set_state (setSelectedDataset None) ;; set_state (setTableData [])
           else ret tt
       | None => ret tt
       end)
      (fun _ => ret tt).

Definition refreshData : Eff (State * Browser) unit :=
  let! st := read fst in
  match selectedDataset st with
  | None => ret tt
  | Some ds =>
      set_state (setLoading true) ;;
      try_finally
        (try_catch
           (let! results :=
              both (getDataset (Api.id ds) (Api.current_page (pagination st))
                               (Api.page_size (pagination st)))
                   (getQuerySuggestions (Api.id ds)) in
            set_state (setSelectedDataset (Some (Api.page_info results.1))) ;;
            set_state (setTableData (Api.page_data results.1)) ;;
            set_state (setPagination (Api.pagination results.1)) ;;
            set_state (setSuggestions results.2))
           (fun _ => ret tt))
        (set_state (setLoading false))
  end.
End Handlers.

End Page.

(** ** String.prototype.split, for reading the clipboard text back *)

Module Tsv.

(** [s.split(c)] for a one-character separator. *)
Fixpoint split_on (c : ascii) (s : string) : list string :=
  match s with
  | EmptyString => [EmptyString]
  | String d s' =>
      if Ascii.eqb d c then EmptyString :: split_on c s'
      else match split_on c s' with
           | p :: ps => String d p :: ps
           | [] => [String d EmptyString]
           end
  end.

(** Lines, then cells. *)
Definition read (text : string) : list (list string) :=
  map (split_on Download.tab) (split_on Download.newline text).

End Tsv.

(** ** Vocabulary of the properties *)

(** The guard both submit handlers start with: there is text to send and
    no request is in flight. *)
Definition submits (text : string) (loading : bool) : bool :=
  Js.truthy (Js.trim text) && negb loading.

(** The query request fails with [e]: the promise rejects, or the
    [onQueryResult] callback throws on the answer. *)
Definition query_fails (srv : World.Server) (props : QueryInput.Props)
    (st : QueryInput.State) (w : World.World) (e : Js.Thrown) : Prop :=
  let answer := World.on_query srv (QueryInput.datasetId props)
                  (Js.trim (QueryInput.query st)) (QueryInput.model props)
                  (World.store w) in
  answer.1 = Eff.Throw e
  ∨ ∃ r cb, answer.1 = Eff.Ok r
            ∧ QueryInput.onQueryResult props = Some cb ∧ cb r = Eff.Throw e.

(** The modify request fails with [e]: the promise rejects, or the
    [onModifySuccess] callback throws. *)
Definition modify_fails (srv : World.Server) (props : DataEditor.Props)
    (st : DataEditor.State) (w : World.World) (e : Js.Thrown) : Prop :=
  let answer := World.on_modify srv (DataEditor.datasetId props)
                  (Js.trim (DataEditor.command st)) (DataEditor.model props)
                  (World.store w) in
  answer.1 = Eff.Throw e
  ∨ ∃ r cb, answer.1 = Eff.Ok r ∧ Api.success r = true
            ∧ DataEditor.onModifySuccess props = Some cb ∧ cb tt = Eff.Throw e.

(** The comparator [(a, b) => key(b) - key(a)]. *)
Definition by_key_desc {A : Type} (key : A → Z) (a b : A) : Z := key b - key a.

(** [a] may stand before [b] in descending order of the key. *)
Definition desc {A : Type} (key : A → Z) (a b : A) : Prop := key b <= key a.

(** The number in a column of a row, 0 when the cell is no number. *)
Definition num (column : string) (r : Js.Record) : Z :=
  match Js.get r column with
  | Js.JNum x => x
  | _ => 0
  end.

(** The array a chart element is drawn from. *)
Definition element_data (e : ChartDisplay.Element) : option Heap.Ref :=
  match e with
  | ChartDisplay.BarChart d _ _ _ | ChartDisplay.LineChart d _ _
  | ChartDisplay.PieChart d _ _ _ | ChartDisplay.ScatterChart d _ _
  | ChartDisplay.AreaChart d _ _ => Some d
  | ChartDisplay.NoData | ChartDisplay.Unsupported _ => None
  end.

(** The data key of a chart element. *)
Definition element_yKey (e : ChartDisplay.Element) : option string :=
  match e with
  | ChartDisplay.BarChart _ _ y _ | ChartDisplay.LineChart _ _ y
  | ChartDisplay.PieChart _ _ y _ | ChartDisplay.ScatterChart _ _ y
  | ChartDisplay.AreaChart _ _ y => Some y
  | ChartDisplay.NoData | ChartDisplay.Unsupported _ => None
  end.

(** The colours of the cells of a chart element that has cells. *)
Definition element_cells (e : ChartDisplay.Element) : option (list string) :=
  match e with
  | ChartDisplay.BarChart _ _ _ c | ChartDisplay.PieChart _ _ _ c => Some c
  | _ => None
  end.

(** The strings the clipboard text keeps apart: no tab, no line feed. *)
Definition cell_safe (s : string) : bool :=
  negb (Js.includes_char s Download.tab || Js.includes_char s Download.newline).

(** The theme the page is drawn in. *)
Definition applied (t : string) (prefersDark : bool) : string :=
  if String.eqb t "system" then (if prefersDark then "dark" else "light") else t.

(** The strings a class list takes as a token: not empty and free of
    white space. *)
Definition class_token (t : string) : bool :=
  Js.truthy t && negb (Theme.has_whitespace t).

(** The model [loadModels] selects for an answer of the server. *)
Definition chosen_model (saved : option string)
    (models : list ModelSelector.Model) (default : string) : string :=
  match saved with
  | Some m =>
      if Js.truthy m && existsb (fun x => String.eqb (ModelSelector.id x) m) models
      then m else default
  | None => default
  end.

(** * Properties *)

(** ** Shared facts and tactics *)

Module Facts.
Import Eff World.

Lemma requests_record_sent w st r :
  requests {| store := st; log := log w ++ [Sent r] |} = requests w ++ [r].
Proof. unfold requests; simpl. by rewrite omap_app. Qed.

Lemma requests_record_called w c :
  requests (record (Called c) w) = requests w.
Proof. unfold requests, record; simpl. rewrite omap_app; simpl. by rewrite app_nil_r. Qed.

Lemma calls_record_sent w st r :
  calls {| store := st; log := log w ++ [Sent r] |} = calls w.
Proof. unfold calls; simpl. rewrite omap_app; simpl. by rewrite app_nil_r. Qed.

Lemma calls_record_called w c :
  calls (record (Called c) w) = calls w ++ [c].
Proof. unfold calls, record; simpl. by rewrite omap_app. Qed.

Lemma lower_char_dot c : Js.lower_char c = "."%char → c = "."%char.
Proof.
  destruct c as [[] [] [] [] [] [] [] []]; vm_compute; congruence.
Qed.

Lemma includes_dot_lower s :
  Js.includes_char (Js.toLowerCase s) "." = Js.includes_char s ".".
Proof.
  induction s as [|c s IH]; simpl; [done|]. rewrite IH. f_equal.
  destruct (Ascii.eqb_spec c ".") as [->|Hc]; [done|].
  destruct (Ascii.eqb_spec (Js.lower_char c) ".") as [Hl|Hl]; [|done].
  by apply lower_char_dot in Hl.
Qed.

Lemma lastIndexOf_from_absent s c i :
  Js.includes_char s c = false → Js.lastIndexOf_from s c i = -1.
Proof.
  revert i. induction s as [|d s IH]; intros i H; simpl in *; [done|].
  apply orb_false_iff in H as [Hd Hs]. rewrite (IH _ Hs), Hd. done.
Qed.

End Facts.

Ltac run_eff :=
  unfold Eff.bind, Eff.try_catch, Eff.try_finally, Eff.ret, Eff.read,
    Eff.update, Eff.throw, World.set_state, World.call_opt, World.round_trip,
    World.uploadFile, World.getDataset, World.queryDataset,
    World.generateChart, World.modifyData, World.updateCell in *;
  simpl in *.

(** ** FileUpload: the extension check of [onDrop] *)

Section FileUploadFacts.
Import Eff World Facts.
Variable srv : Server.
Variable props : FileUpload.Props.

Lemma valid_iff file :
  FileUpload.valid file = true ↔ FileUpload.fileExt file ∈ FileUpload.validTypes.
Proof.
  unfold FileUpload.valid. rewrite existsb_exists. split.
  - intros (x & Hx & Heq). apply String.eqb_eq in Heq as ->.
    by apply list_elem_of_In.
  - intros H. exists (FileUpload.fileExt file). split.
    + by apply list_elem_of_In.
    + apply String.eqb_refl.
Qed.

Lemma no_dot_ext file :
  Js.includes_char (Api.name file) "." = false →
  FileUpload.fileExt file = Js.toLowerCase (Api.name file).
Proof.
  intros Hdot. unfold FileUpload.fileExt, Js.lastIndexOf.
  by rewrite (lastIndexOf_from_absent _ _ _ Hdot).
Qed.

Lemma no_dot_invalid file :
  Js.includes_char (Api.name file) "." = false →
  FileUpload.fileExt file ∉ FileUpload.validTypes.
Proof.
  intros Hdot Hin.
  assert (Hext : Js.includes_char (FileUpload.fileExt file) "." = false).
  { unfold FileUpload.fileExt, Js.lastIndexOf.
    rewrite (lastIndexOf_from_absent _ _ _ Hdot).
    unfold Js.substring_from; simpl. by rewrite includes_dot_lower. }
  unfold FileUpload.validTypes in Hin.
  repeat (apply elem_of_cons in Hin as [Heq|Hin];
          [rewrite Heq in Hext; discriminate|]).
  by apply elem_of_nil in Hin.
Qed.

Lemma onDrop_invalid file rest st w :
  FileUpload.valid file = false →
  let '(_, (st', w')) := FileUpload.onDrop srv props (file :: rest) (st, w) in
  FileUpload.error st' = Some FileUpload.invalidMsg
  ∧ FileUpload.uploadedFile st' = FileUpload.uploadedFile st
  ∧ FileUpload.success st' = FileUpload.success st
  ∧ requests w' = requests w
  ∧ store w' = store w
  ∧ calls w' = calls w
               ++ match FileUpload.onUploadError props with
                  | Some _ => ["onUploadError"]
                  | None => []
                  end.
Proof.
  intros Hv. unfold FileUpload.onDrop. rewrite Hv. run_eff.
  destruct (FileUpload.onUploadError props) as [cb|]; simpl.
  - rewrite requests_record_called, calls_record_called. done.
  - by rewrite app_nil_r.
Qed.

Lemma onDrop_valid file rest st w :
  FileUpload.valid file = true →
  let '(_, (_, w')) := FileUpload.onDrop srv props (file :: rest) (st, w) in
  requests w' = requests w ++ [Api.PostUpload file].
Proof.
  intros Hv. unfold FileUpload.onDrop. rewrite Hv. run_eff.
  destruct (on_upload srv file (store w)) as [[result|err] st1]; simpl.
  - destruct (FileUpload.onUploadSuccess props result) as [[]|e]; simpl.
    + by rewrite requests_record_called, requests_record_sent.
    + destruct (FileUpload.onUploadError props) as [cb|]; run_eff;
        by rewrite !requests_record_called, requests_record_sent.
  - destruct (FileUpload.onUploadError props) as [cb|]; run_eff;
      by rewrite ?requests_record_called, requests_record_sent.
Qed.
End FileUploadFacts.

(** C7. [onDrop] takes the extension to be the file name from its last
    dot on, lowercased (the whole name when it has no dot).  When that is
    not one of .csv, .xlsx, .xls (as for every name without a dot) the
    handler sets the error "Invalid file type. Please upload a CSV or
    Excel file.", hands it to [onUploadError] if given, sends no request
    at all and leaves the dataset store as it was; when it is one of the
    three, exactly one request is sent, the upload of that file. *)
Theorem onDrop_extension_check
    (srv : World.Server) (props : FileUpload.Props)
    (file : Api.File) (rest : list Api.File)
    (st : FileUpload.State) (w : World.World) :
  (Js.includes_char (Api.name file) "." = false →
   FileUpload.fileExt file = Js.toLowerCase (Api.name file)
   ∧ FileUpload.fileExt file ∉ [".csv"; ".xlsx"; ".xls"])
  ∧ (FileUpload.fileExt file ∉ [".csv"; ".xlsx"; ".xls"] →
     let '(out, (st', w')) := FileUpload.onDrop srv props (file :: rest) (st, w) in
     FileUpload.error st'
     = Some "Invalid file type. Please upload a CSV or Excel file."
     ∧ FileUpload.uploadedFile st' = FileUpload.uploadedFile st
     ∧ FileUpload.success st' = FileUpload.success st
     ∧ World.requests w' = World.requests w
     ∧ World.store w' = World.store w
     ∧ World.calls w' =
         World.calls w
         ++ match FileUpload.onUploadError props with
                    | Some _ => ["onUploadError"]
                    | None => []
                    end)
  ∧ (FileUpload.fileExt file ∈ [".csv"; ".xlsx"; ".xls"] →
     let '(_, (_, w')) := FileUpload.onDrop srv props (file :: rest) (st, w) in
     World.requests w' = World.requests w ++ [Api.PostUpload file]).
Proof.
  split; [intros Hdot; split; [by apply no_dot_ext|by apply no_dot_invalid]|].
  split.
  - intros Hext. apply onDrop_invalid.
    destruct (FileUpload.valid file) eqn:Hv; [|done].
    by apply valid_iff in Hv.
  - intros Hext. apply onDrop_valid. by apply valid_iff.
Qed.

Lemma onDrop_extension_check_witness :
  let report := {| Api.name := "Report.CSV"; Api.size := 120 |} in
  let notes := {| Api.name := "README"; Api.size := 7 |} in
  let props := {| FileUpload.onUploadSuccess := fun _ => Eff.Ok tt;
                  FileUpload.onUploadError := None |} in
  let st := {| FileUpload.uploading := false; FileUpload.uploadedFile := None;
               FileUpload.error := None; FileUpload.success := false |} in
  let slides := {| Api.name := "slides.csv.pdf"; Api.size := 40 |} in
  (FileUpload.fileExt notes = "readme")
  ∧ (FileUpload.fileExt notes ∉ [".csv"; ".xlsx"; ".xls"])
  ∧ (let '(_, (st', w')) :=
       FileUpload.onDrop Sample.server props [notes] (st, Sample.world0) in
     FileUpload.error st'
     = Some "Invalid file type. Please upload a CSV or Excel file."
     ∧ World.requests w' = [] ∧ World.store w' = Sample.store0)
  ∧ (FileUpload.fileExt slides ∉ [".csv"; ".xlsx"; ".xls"])
  ∧ (let '(_, (st', w')) :=
       FileUpload.onDrop Sample.server props [slides] (st, Sample.world0) in
     FileUpload.error st'
     = Some "Invalid file type. Please upload a CSV or Excel file."
     ∧ World.requests w' = [])
  ∧ (let '(_, (_, w')) :=
       FileUpload.onDrop Sample.server props [report] (st, Sample.world0) in
     World.requests w' = [Api.PostUpload report]).
Proof.
  intros report notes props st slides.
  pose proof (onDrop_extension_check Sample.server props notes [] st Sample.world0)
    as (Hdot & Hbad & _).
  pose proof (onDrop_extension_check Sample.server props slides [] st Sample.world0)
    as (_ & Hbad' & _).
  pose proof (onDrop_extension_check Sample.server props report [] st Sample.world0)
    as (_ & _ & Hgood).
  destruct (Hdot eq_refl) as [Hname Hnotes].
  assert (Hslides : FileUpload.fileExt slides ∉ [".csv"; ".xlsx"; ".xls"]).
  { intros Hin.
    repeat (apply elem_of_cons in Hin as [Heq|Hin];
            [vm_compute in Heq; discriminate|]).
    by apply elem_of_nil in Hin. }
  split; [exact Hname|]. split; [exact Hnotes|]. split; [|split; [exact Hslides|split]].
  - specialize (Hbad Hnotes).
    destruct (FileUpload.onDrop Sample.server props [notes] (st, Sample.world0))
      as [out [st' w']].
    destruct Hbad as (He & _ & _ & Hr & Hs & _). done.
  - specialize (Hbad' Hslides).
    destruct (FileUpload.onDrop Sample.server props [slides] (st, Sample.world0))
      as [out [st' w']].
    destruct Hbad' as (He & _ & _ & Hr & _). done.
  - apply Hgood. vm_compute. apply list_elem_of_here.
Defined.

(** ** QueryInput and DataEditor: failures become error-shaped results *)

Lemma handleSubmit_total srv props st w :
  (QueryInput.handleSubmit srv props (st, w)).1 = Eff.Ok tt.
Proof.
  unfold QueryInput.handleSubmit. run_eff.
  destruct (negb _ || _); [done|]. simpl.
  destruct (World.on_query srv _ _ _ _) as [[r|e] st1]; simpl; [|done].
  destruct (QueryInput.onQueryResult props) as [cb|]; simpl; [|done].
  by destruct (cb r) as [[]|e].
Qed.

Lemma handleSubmit_result srv props st w :
  submits (QueryInput.query st) (QueryInput.loading st) = true →
  let st' := (QueryInput.handleSubmit srv props (st, w)).2.1 in
  QueryInput.loading st' = false
  ∧ is_Some (QueryInput.result st')
  ∧ ∀ e, query_fails srv props st w e →
         QueryInput.result st' = Some (QueryInput.failure (QueryInput.query st) e).
Proof.
  unfold submits, query_fails. intros Hg.
  apply andb_true_iff in Hg as [Hq Hl]. apply negb_true_iff in Hl.
  unfold QueryInput.handleSubmit. run_eff. rewrite Hq, Hl. simpl.
  destruct (World.on_query srv _ _ _ _) as [[r|e] st1]; simpl.
  - destruct (QueryInput.onQueryResult props) as [cb|]; simpl.
    + destruct (cb r) as [[]|e] eqn:Hcb; simpl.
      * repeat split; [by eexists|].
        intros e [?|(r' & cb' & ? & ? & ?)]; simplify_eq; try done; congruence.
      * repeat split; [by eexists|].
        intros e' [?|(r' & cb' & ? & ? & ?)]; simplify_eq; try done; congruence.
    + repeat split; [by eexists|].
      intros e [?|(r' & cb' & ? & ? & ?)]; simplify_eq; try done; congruence.
  - repeat split; [by eexists|].
    intros e' [?|(r' & cb' & ? & ? & ?)]; simplify_eq; try done; congruence.
Qed.

Lemma handleModify_total srv props st w :
  (DataEditor.handleModify srv props (st, w)).1 = Eff.Ok tt.
Proof.
  unfold DataEditor.handleModify. run_eff.
  destruct (negb _ || _); [done|]. simpl.
  destruct (World.on_modify srv _ _ _ _) as [[r|e] st1]; simpl; [|done].
  destruct (Api.success r); [|done].
  destruct (DataEditor.onModifySuccess props) as [cb|]; simpl; [|done].
  by destruct (cb tt) as [[]|e].
Qed.

Lemma handleModify_result srv props st w :
  submits (DataEditor.command st) (DataEditor.loading st) = true →
  let st' := (DataEditor.handleModify srv props (st, w)).2.1 in
  DataEditor.loading st' = false
  ∧ is_Some (DataEditor.result st')
  ∧ ∀ e, modify_fails srv props st w e →
         DataEditor.result st' = Some (DataEditor.failure e).
Proof.
  unfold submits, modify_fails. intros Hg.
  apply andb_true_iff in Hg as [Hq Hl]. apply negb_true_iff in Hl.
  unfold DataEditor.handleModify. run_eff. rewrite Hq, Hl. simpl.
  destruct (World.on_modify srv _ _ _ _) as [[r|e] st1]; simpl.
  - destruct (Api.success r) eqn:Hs; simpl.
    + destruct (DataEditor.onModifySuccess props) as [cb|]; simpl.
      * destruct (cb tt) as [[]|e] eqn:Hcb; simpl.
        -- repeat split; [by eexists|].
           intros e [?|(r' & cb' & ? & ? & ? & ?)]; simplify_eq; try done; congruence.
        -- repeat split; [by eexists|].
           intros e' [?|(r' & cb' & ? & ? & ? & ?)]; simplify_eq; try done; congruence.
      * repeat split; [by eexists|].
        intros e [?|(r' & cb' & ? & ? & ? & ?)]; simplify_eq; try done; congruence.
    + repeat split; [by eexists|].
      intros e [?|(r' & cb' & ? & ? & ? & ?)]; simplify_eq; try done; congruence.
  - repeat split; [by eexists|].
    intros e' [?|(r' & cb' & ? & ? & ? & ?)]; simplify_eq; try done; congruence.
Qed.

(** C3. A query submission or a modify submission never ends in a thrown
    exception, whatever the server and the callbacks do.  A submission
    that passes the guard leaves a result in the state; when the request
    is rejected or an exception is thrown while handling the answer, that
    result is the error shape: for a query, result_type error, data null,
    pandas_code null, execution_time_ms 0 and the error's message as
    explanation ("Query failed" when what was thrown is no Error); for a
    modification, success false, rows_affected 0, pandas_code null and the
    error's message as message ("Modification failed" when what was thrown
    is no Error). *)
Theorem failures_become_error_results
    (srv : World.Server) (w : World.World)
    (qprops : QueryInput.Props) (qst : QueryInput.State)
    (mprops : DataEditor.Props) (mst : DataEditor.State) :
  let q := QueryInput.handleSubmit srv qprops (qst, w) in
  let m := DataEditor.handleModify srv mprops (mst, w) in
  q.1 = Eff.Ok tt
  ∧ m.1 = Eff.Ok tt
  ∧ (submits (QueryInput.query qst) (QueryInput.loading qst) = true →
     is_Some (QueryInput.result q.2.1)
     ∧ ∀ e, query_fails srv qprops qst w e →
            QueryInput.result q.2.1 =
              Some {| Api.query := QueryInput.query qst;
                      Api.result_type := Api.RtError;
                      Api.data := Api.PScalar Js.JNull;
                      Api.explanation := Js.message_or e "Query failed";
                      Api.pandas_code := None;
                      Api.execution_time_ms := 0 |})
  ∧ (submits (DataEditor.command mst) (DataEditor.loading mst) = true →
     is_Some (DataEditor.result m.2.1)
     ∧ ∀ e, modify_fails srv mprops mst w e →
            DataEditor.result m.2.1 =
              Some {| Api.success := false;
                      Api.message := Js.message_or e "Modification failed";
                      Api.changes_made := EmptyString;
                      Api.rows_affected := 0;
                      Api.modify_pandas_code := None |}).
Proof.
  intros q m. split; [apply handleSubmit_total|].
  split; [apply handleModify_total|]. split.
  - intros Hg. destruct (handleSubmit_result srv qprops qst w Hg) as (_ & ? & ?).
    done.
  - intros Hg. destruct (handleModify_result srv mprops mst w Hg) as (_ & ? & ?).
    done.
Qed.

(** ** DataEditor and the executor: a modification is all or nothing *)

Lemma modify_atomic interpret id command model (st : gmap string World.Dataset) :
  ∃ r, (Backend.modify interpret id command model st).1 = Eff.Ok r
       ∧ let st' := (Backend.modify interpret id command model st).2 in
         (Api.success r = true
          ∧ ∃ ds m f' ds',
              st !! id = Some ds
              ∧ interpret command model (World.ds_info ds) = Eff.Ok m
              ∧ Backend.run (Backend.steps m) (Backend.frame_of ds) = Eff.Ok f'
              ∧ st' !! id = Some ds'
              ∧ (∀ other, other ≠ id → st' !! other = st !! other)
              ∧ World.ds_rows ds' = Backend.frame_rows f'
              ∧ Api.rows (World.ds_info ds')
                = Z.of_nat (length (World.ds_rows ds'))
              ∧ Api.column_names (World.ds_info ds') = Backend.frame_names f'
              ∧ Api.column_types (World.ds_info ds') = Backend.frame_types f'
              ∧ Api.columns (World.ds_info ds')
                = Z.of_nat (length (Api.column_names (World.ds_info ds')))
              ∧ (∀ row, row ∈ World.ds_rows ds' →
                        Js.keys row = Api.column_names (World.ds_info ds'))
              ∧ Api.id (World.ds_info ds') = Api.id (World.ds_info ds)
              ∧ Api.rows_affected r
                = Backend.affected m (Backend.frame_of ds) f')
         ∨ (Api.success r = false ∧ st' = st).
Proof.
  unfold Backend.modify.
  destruct (st !! id) as [ds|] eqn:Hds; simpl; [|eauto].
  destruct (interpret command model (World.ds_info ds)) as [m|e] eqn:Hm;
    simpl; [|eauto].
  destruct (Backend.run (Backend.steps m) (Backend.frame_of ds)) as [f'|e] eqn:Hr;
    simpl; [|eauto].
  eexists; split; [done|]. left. split; [done|].
  exists ds, m, f', (Backend.with_frame ds f').
  split; [done|]. split; [done|]. split; [done|].
  split; [by rewrite lookup_insert_eq|].
  split; [by intros other Hother; rewrite lookup_insert_ne|].
  split; [done|]. simpl.
  split; [unfold Backend.frame_rows; by rewrite length_map, length_seq|].
  split; [done|]. split; [done|].
  split; [unfold Backend.frame_names; by rewrite length_map|].
  split; [|done].
  intros row Hrow. unfold Backend.frame_rows in Hrow.
  apply list_elem_of_fmap in Hrow as (i & -> & _).
  unfold Js.keys, Backend.frame_row, Backend.frame_names.
  rewrite map_map. by apply map_ext.
Qed.

Lemma handleModify_calls srv props st w cb :
  submits (DataEditor.command st) (DataEditor.loading st) = true →
  DataEditor.onModifySuccess props = Some cb →
  let answer := World.on_modify srv (DataEditor.datasetId props)
                  (Js.trim (DataEditor.command st)) (DataEditor.model props)
                  (World.store w) in
  let w' := (DataEditor.handleModify srv props (st, w)).2.2 in
  World.store w' = answer.2
  ∧ World.calls w' =
      World.calls w
      ++ match answer.1 with
         | Eff.Ok r => if Api.success r then ["onModifySuccess"] else []
         | Eff.Throw _ => []
         end.
Proof.
  unfold submits. intros Hg Hcb.
  apply andb_true_iff in Hg as [Hq Hl]. apply negb_true_iff in Hl.
  unfold DataEditor.handleModify. run_eff. rewrite Hq, Hl, Hcb. simpl.
  destruct (World.on_modify srv _ _ _ _) as [[r|e] st1]; simpl.
  - destruct (Api.success r) eqn:Hs; simpl.
    + destruct (cb tt) as [[]|e]; simpl;
        by rewrite Facts.calls_record_called, Facts.calls_record_sent.
    + by rewrite Facts.calls_record_sent, app_nil_r.
  - by rewrite Facts.calls_record_sent, app_nil_r.
Qed.

(** C2. Backend (modelled from the specification): a modify command
    always answers with a result; either success is true and the dataset
    reflects the dataframe the whole snippet produced (its stored rows
    are the rows of that dataframe, its row count is their number, its
    column list and column count are the dataframe's, every stored row
    has exactly the columns of the column list, and [rows_affected] is
    the count the snippet reports for it) while every other dataset is
    as before, or success is false and the store is exactly as before.
    Frontend (from
    DataEditor.tsx): for a submission that passes the guard, with the
    refresh callback given, [onModifySuccess] is called once if the
    returned result has success true and not at all if it has success
    false or the request was rejected. *)
Theorem modify_all_or_nothing
    (interpret : string → option string → Api.DatasetInfo →
                 Eff.Outcome Backend.Modification)
    (id command : string) (model : option string)
    (store : gmap string World.Dataset)
    (srv : World.Server) (props : DataEditor.Props)
    (st : DataEditor.State) (w : World.World) (cb : World.Callback unit)
    (Hsubmit : submits (DataEditor.command st) (DataEditor.loading st) = true)
    (Hcb : DataEditor.onModifySuccess props = Some cb) :
  (∃ r, (Backend.modify interpret id command model store).1 = Eff.Ok r
        ∧ let store' := (Backend.modify interpret id command model store).2 in
          (Api.success r = true
           ∧ ∃ ds m f' ds',
               store !! id = Some ds
               ∧ interpret command model (World.ds_info ds) = Eff.Ok m
               ∧ Backend.run (Backend.steps m) (Backend.frame_of ds) = Eff.Ok f'
               ∧ store' !! id = Some ds'
               ∧ (∀ other, other ≠ id → store' !! other = store !! other)
               ∧ World.ds_rows ds' = Backend.frame_rows f'
               ∧ Api.rows (World.ds_info ds')
                 = Z.of_nat (length (World.ds_rows ds'))
               ∧ Api.column_names (World.ds_info ds') = Backend.frame_names f'
               ∧ Api.column_types (World.ds_info ds') = Backend.frame_types f'
               ∧ Api.columns (World.ds_info ds')
                 = Z.of_nat (length (Api.column_names (World.ds_info ds')))
               ∧ (∀ row, row ∈ World.ds_rows ds' →
                         Js.keys row = Api.column_names (World.ds_info ds'))
               ∧ Api.id (World.ds_info ds') = Api.id (World.ds_info ds)
               ∧ Api.rows_affected r
                 = Backend.affected m (Backend.frame_of ds) f')
          ∨ (Api.success r = false ∧ store' = store))
  ∧ (let answer := World.on_modify srv (DataEditor.datasetId props)
                     (Js.trim (DataEditor.command st)) (DataEditor.model props)
                     (World.store w) in
     let w' := (DataEditor.handleModify srv props (st, w)).2.2 in
     World.calls w' =
       World.calls w
       ++ match answer.1 with
          | Eff.Ok r => if Api.success r then ["onModifySuccess"] else []
          | Eff.Throw _ => []
          end).
Proof.
  split; [apply modify_atomic|].
  by destruct (handleModify_calls srv props st w cb Hsubmit Hcb) as [_ ?].
Qed.

(** ** ChartDisplay: a failed chart request *)

Lemma or_else_truthy e d : Js.truthy d = true → Js.truthy (ChartDisplay.or_else e d) = true.
Proof.
  intros Hd. unfold ChartDisplay.or_else.
  destruct e as [t|]; [|done]. by destruct (Js.truthy t) eqn:Ht.
Qed.

Lemma generate_chart_missing_column interpret id query model
    (st : gmap string World.Dataset) ds cfg c :
  st !! id = Some ds →
  interpret query model (World.ds_info ds) = Eff.Ok cfg →
  c ∈ Backend.referenced cfg →
  c ∉ Api.column_names (World.ds_info ds) →
  ∃ r msg, Backend.generate_chart interpret id query model st = (Eff.Ok r, st)
           ∧ Api.chart_success r = false
           ∧ Api.error r = Some msg
           ∧ Js.truthy msg = true.
Proof.
  intros Hds Hcfg Hc Hmiss. unfold Backend.generate_chart. rewrite Hds, Hcfg.
  destruct (filter _ (Backend.referenced cfg)) as [|missing rest] eqn:Hf.
  - assert (c ∈ filter (λ c, c ∉ Api.column_names (World.ds_info ds))
                       (Backend.referenced cfg)) as Hin
      by by apply list_elem_of_filter.
    rewrite Hf in Hin. by apply elem_of_nil in Hin.
  - eexists _, _. repeat split.
Qed.

Lemma handleGenerate_failure srv props st w r :
  submits (ChartDisplay.query st) (ChartDisplay.loading st) = true →
  (World.on_chart srv (ChartDisplay.datasetId props)
     (Js.trim (ChartDisplay.query st)) (ChartDisplay.model props)
     (World.store w)).1 = Eff.Ok r →
  Api.chart_success r = false →
  let st' := (ChartDisplay.handleGenerate srv props (st, w)).2.1 in
  let text := ChartDisplay.or_else (Api.error r) "Failed to generate chart" in
  ChartDisplay.error st' = Some text
  ∧ ChartDisplay.error_box (ChartDisplay.render st') = Some text
  ∧ ChartDisplay.chartData st' = ChartDisplay.chartData st
  ∧ ChartDisplay.chart_card (ChartDisplay.render st')
    = ChartDisplay.chart_card (ChartDisplay.render st).
Proof.
  unfold submits. intros Hg Hr Hfail.
  apply andb_true_iff in Hg as [Hq Hl]. apply negb_true_iff in Hl.
  unfold ChartDisplay.handleGenerate. run_eff. rewrite Hq, Hl. simpl.
  destruct (World.on_chart srv _ _ _ _) as [out st1]; simpl in *. subst out.
  simpl. rewrite Hfail. simpl. unfold ChartDisplay.render; simpl.
  by rewrite or_else_truthy.
Qed.

(** C4 as stated fails: with a chart of an earlier request in the state,
    a response with success false leaves that chart stored and rendered
    next to the error. *)
Lemma failed_chart_keeps_earlier_chart :
  let earlier :=
    {| Api.chart_success := true;
       Api.config := {| Api.chart_type := Api.Pie; Api.title := "Shares";
                        Api.x_axis := Some "name"; Api.y_axis := Some "v";
                        Api.x_label := None; Api.y_label := None |};
       Api.chart_data := Sample.rows; Api.chart_explanation := "Shares";
       Api.error := None |} in
  let st := {| ChartDisplay.query := "bar chart of sales by region";
               ChartDisplay.loading := false;
               ChartDisplay.chartData := Some earlier;
               ChartDisplay.error := None |} in
  let props := {| ChartDisplay.datasetId := "d1"; ChartDisplay.model := None |} in
  let answer := World.on_chart Sample.server "d1" "bar chart of sales by region"
                  None Sample.store0 in
  let st' := (ChartDisplay.handleGenerate Sample.server props (st, Sample.world0)).2.1 in
  (∃ r, answer.1 = Eff.Ok r ∧ Api.chart_success r = false)
  ∧ ChartDisplay.chartData st' = Some earlier
  ∧ ChartDisplay.chart_card (ChartDisplay.render st') = Some earlier.
Proof.
  intros earlier st props answer st'. split.
  - eexists. split; vm_compute; reflexivity.
  - split; vm_compute; reflexivity.
Qed.

(** C4, amended. Backend (modelled from the specification): a chart
    request whose generated configuration refers to a column that is not
    in the dataset's column list is answered, not failed, with success
    false and a non-empty error text, and the store is unchanged.
    Frontend (from ChartDisplay.tsx): for every response with success
    false, the error box shows the error text, or "Failed to generate
    chart" when the text is absent or empty; the response is not stored,
    and the chart state and the rendered chart card are what they were
    before the request, so no chart is rendered unless an earlier request
    left one. *)
Theorem failed_chart_shows_error
    (interpret : string → option string → Api.DatasetInfo →
                 Eff.Outcome Api.ChartConfig)
    (id query : string) (model : option string)
    (store : gmap string World.Dataset) (ds : World.Dataset)
    (cfg : Api.ChartConfig) (c : string)
    (srv : World.Server) (props : ChartDisplay.Props)
    (st : ChartDisplay.State) (w : World.World) (r : Api.ChartResponse)
    (Hds : store !! id = Some ds)
    (Hcfg : interpret query model (World.ds_info ds) = Eff.Ok cfg)
    (Hc : c ∈ Backend.referenced cfg)
    (Hmissing : c ∉ Api.column_names (World.ds_info ds))
    (Hsubmit : submits (ChartDisplay.query st) (ChartDisplay.loading st) = true)
    (Hanswer : (World.on_chart srv (ChartDisplay.datasetId props)
                  (Js.trim (ChartDisplay.query st)) (ChartDisplay.model props)
                  (World.store w)).1 = Eff.Ok r)
    (Hfailed : Api.chart_success r = false) :
  (∃ r0 msg, Backend.generate_chart interpret id query model store
             = (Eff.Ok r0, store)
             ∧ Api.chart_success r0 = false
             ∧ Api.error r0 = Some msg
             ∧ Js.truthy msg = true)
  ∧ (let st' := (ChartDisplay.handleGenerate srv props (st, w)).2.1 in
     let text := ChartDisplay.or_else (Api.error r) "Failed to generate chart" in
     ChartDisplay.error_box (ChartDisplay.render st') = Some text
     ∧ ChartDisplay.chartData st' = ChartDisplay.chartData st
     ∧ ChartDisplay.chart_card (ChartDisplay.render st')
       = ChartDisplay.chart_card (ChartDisplay.render st)
     ∧ (ChartDisplay.chartData st = None →
        ChartDisplay.chart_card (ChartDisplay.render st') = None)).
Proof.
  split; [by eapply generate_chart_missing_column|].
  destruct (handleGenerate_failure srv props st w r Hsubmit Hanswer Hfailed)
    as (_ & Hbox & Hdata & Hcard).
  repeat split; try done.
  intros Hnone. rewrite Hcard. unfold ChartDisplay.render. by rewrite Hnone.
Qed.

(** ** QueryResult: the result kinds *)

(** C5 as stated fails: the kind of a scalar result is "value" on the
    wire; "scalar" is no discriminant of a QueryResult. *)
Lemma scalar_is_no_result_kind :
  ¬ ∀ r : Api.QueryResult,
      Api.result_type_name (Api.result_type r) ∈ ["table"; "scalar"; "text"; "error"].
Proof.
  intros H.
  specialize (H {| Api.query := "how many rows?"; Api.result_type := Api.RtValue;
                   Api.data := Api.PScalar (Js.JNum 2);
                   Api.explanation := "Row count";
                   Api.pandas_code := Some "len(df)";
                   Api.execution_time_ms := 3 |}).
  simpl in H.
  repeat (apply elem_of_cons in H as [H|H]; [discriminate|]).
  by apply elem_of_nil in H.
Qed.

(** C5, amended. Every QueryResult has a query string, a result kind, a
    payload, an explanation string, an optional generated-code string and
    an elapsed time, and its kind is one of exactly the four discriminants
    table, value, text and error: each of the four has its own branch in
    [renderResult], and every other string, "scalar" among them, takes the
    default branch. *)
Theorem result_kind_is_one_of_four (r : Api.QueryResult) :
  (∃ (q : string) (k : Api.ResultType) (d : Api.Payload) (e : string)
     (c : option string) (t : Z),
     r = {| Api.query := q; Api.result_type := k; Api.data := d;
            Api.explanation := e; Api.pandas_code := c;
            Api.execution_time_ms := t |})
  ∧ Api.result_type_name (Api.result_type r) ∈ ["table"; "value"; "text"; "error"]
  ∧ (∀ s, s ∈ ["table"; "value"; "text"; "error"] →
          ∃ k, Api.result_type_name k = s)
  ∧ QueryInput.renderResult (Some r) =
      match Api.result_type r with
      | Api.RtTable =>
          match Api.data r with
          | Api.PRows (row :: rows) => QueryInput.Table (row :: rows) (Js.keys row)
          | _ => QueryInput.NoDataReturned
          end
      | Api.RtValue => QueryInput.ValueBox (Api.data r)
      | Api.RtText => QueryInput.TextBox (Api.data r)
      | Api.RtError => QueryInput.ErrorBox (Api.explanation r)
      end
  ∧ (∀ s d e, s ∉ ["table"; "value"; "text"; "error"] →
              QueryInput.renderSwitch s d e = QueryInput.RawJson d)
  ∧ QueryInput.renderSwitch "scalar" (Api.data r) (Api.explanation r)
    = QueryInput.RawJson (Api.data r).
Proof.
  split; [destruct r; by eexists _, _, _, _, _, _|].
  split; [destruct (Api.result_type r); set_solver|].
  split.
  { intros s Hs.
    repeat (apply elem_of_cons in Hs as [->|Hs]);
      [by exists Api.RtTable | by exists Api.RtValue | by exists Api.RtText
      | by exists Api.RtError | by apply elem_of_nil in Hs]. }
  split; [unfold QueryInput.renderResult; by destruct (Api.result_type r)|].
  split; [|done].
  intros s d e Hs. unfold QueryInput.renderSwitch.
  rewrite !not_elem_of_cons in Hs. destruct Hs as (? & ? & ? & ? & _).
  by rewrite !(proj2 (String.eqb_neq s _)).
Qed.

(** ** ChartDisplay: [renderChart] over the chart kinds *)

Lemma chart_type_name_five k :
  Api.chart_type_name k ∈ ["bar"; "line"; "pie"; "scatter"; "area"].
Proof. destruct k; set_solver. Qed.

Lemma renderChart_empty S2N (h : Heap.Heap) chart :
  Heap.deref h (ChartDisplay.data chart) = [] →
  ChartDisplay.renderChart S2N (Some chart) h = (Eff.Ok ChartDisplay.NoData, h).
Proof. intros He. unfold ChartDisplay.renderChart. run_eff. by rewrite He. Qed.

Lemma renderChart_kind S2N (h : Heap.Heap) chart first rest k :
  Heap.deref h (ChartDisplay.data chart) = first :: rest →
  ChartDisplay.chart_type chart = Api.chart_type_name k →
  ∃ el, (ChartDisplay.renderChart S2N (Some chart) h).1 = Eff.Ok el
        ∧ ChartDisplay.element_kind el = Some k.
Proof.
  intros Hd Hk. unfold ChartDisplay.renderChart. run_eff. rewrite Hd, Hk.
  destruct k; simpl; eauto.
Qed.

Lemma renderChart_other S2N (h : Heap.Heap) chart first rest :
  Heap.deref h (ChartDisplay.data chart) = first :: rest →
  ChartDisplay.chart_type chart ∉ ["bar"; "line"; "pie"; "scatter"; "area"] →
  ChartDisplay.renderChart S2N (Some chart) h
  = (Eff.Ok (ChartDisplay.Unsupported (ChartDisplay.chart_type chart)), h).
Proof.
  intros Hd Hk. unfold ChartDisplay.renderChart. run_eff. rewrite Hd.
  rewrite !not_elem_of_cons in Hk. destruct Hk as (? & ? & ? & ? & ? & _).
  by rewrite !(proj2 (String.eqb_neq (ChartDisplay.chart_type chart) _)).
Qed.

(** C8 as stated fails: [renderChart] returns early on empty data, so a
    bar chart whose data array is empty renders as "No data to display",
    not as a bar chart. *)
Lemma empty_bar_chart_is_no_chart :
  ¬ ∀ (S2N : string → option Z) (h : Heap.Heap) (chart : ChartDisplay.Chart)
      (k : Api.ChartType),
      ChartDisplay.chart_type chart = Api.chart_type_name k →
      ∃ el, (ChartDisplay.renderChart S2N (Some chart) h).1 = Eff.Ok el
            ∧ ChartDisplay.element_kind el = Some k.
Proof.
  intros H.
  destruct (H Sample.StringToNumber [[]]
              {| ChartDisplay.chart_type := "bar";
                 ChartDisplay.x_axis := Some "name";
                 ChartDisplay.y_axis := Some "v";
                 ChartDisplay.data := 0%nat |}
              Api.Bar eq_refl) as (el & Hel & Hkind).
  vm_compute in Hel. by simplify_eq.
Qed.

(** C8, amended. The kind of every ChartConfig is one of exactly bar,
    line, pie, scatter and area.  On a non-empty data array [renderChart]
    is total over the discriminant and never throws: for each of the five
    kinds it returns a chart of that kind, and for any other string the
    "Unsupported chart type" element.  Without chart data, or on an empty
    data array, it returns "No data to display" whatever the kind. *)
Theorem renderChart_total_over_kinds
    (S2N : string → option Z) (h : Heap.Heap) (chart : ChartDisplay.Chart) :
  (∀ c : Api.ChartConfig,
     Api.chart_type_name (Api.chart_type c)
     ∈ ["bar"; "line"; "pie"; "scatter"; "area"])
  ∧ (∀ s, s ∈ ["bar"; "line"; "pie"; "scatter"; "area"] →
          ∃ k, Api.chart_type_name k = s)
  ∧ (∃ el, (ChartDisplay.renderChart S2N (Some chart) h).1 = Eff.Ok el)
  ∧ (Heap.deref h (ChartDisplay.data chart) ≠ [] →
     (∀ k, ChartDisplay.chart_type chart = Api.chart_type_name k →
           ∃ el, (ChartDisplay.renderChart S2N (Some chart) h).1 = Eff.Ok el
                 ∧ ChartDisplay.element_kind el = Some k)
     ∧ (ChartDisplay.chart_type chart ∉ ["bar"; "line"; "pie"; "scatter"; "area"] →
        ChartDisplay.renderChart S2N (Some chart) h
        = (Eff.Ok (ChartDisplay.Unsupported (ChartDisplay.chart_type chart)), h)))
  ∧ (Heap.deref h (ChartDisplay.data chart) = [] →
     ChartDisplay.renderChart S2N (Some chart) h = (Eff.Ok ChartDisplay.NoData, h))
  ∧ ChartDisplay.renderChart S2N None h = (Eff.Ok ChartDisplay.NoData, h).
Proof.
  split; [intros c; apply chart_type_name_five|].
  split.
  { intros s Hs.
    repeat (apply elem_of_cons in Hs as [->|Hs]);
      [by exists Api.Bar | by exists Api.Line | by exists Api.Pie
      | by exists Api.Scatter | by exists Api.Area | by apply elem_of_nil in Hs]. }
  split.
  { destruct (Heap.deref h (ChartDisplay.data chart)) as [|first rest] eqn:Hd.
    - rewrite renderChart_empty by done. by eexists.
    - destruct (decide (ChartDisplay.chart_type chart
                        ∈ ["bar"; "line"; "pie"; "scatter"; "area"])) as [Hin|Hout].
      + assert (∃ k, Api.chart_type_name k = ChartDisplay.chart_type chart)
          as [k Hk].
        { repeat (apply elem_of_cons in Hin as [->|Hin]);
            [by exists Api.Bar | by exists Api.Line | by exists Api.Pie
            | by exists Api.Scatter | by exists Api.Area
            | by apply elem_of_nil in Hin]. }
        destruct (renderChart_kind S2N h chart first rest k Hd (eq_sym Hk))
          as (el & Hel & _). by exists el.
      + rewrite (renderChart_other S2N h chart first rest) by done. by eexists. }
  split.
  { intros Hne.
    destruct (Heap.deref h (ChartDisplay.data chart)) as [|first rest] eqn:Hd;
      [done|].
    split.
    - intros k Hk. by eapply renderChart_kind.
    - intros Hout. by eapply renderChart_other. }
  split; [apply renderChart_empty|done].
Qed.

(** ** Sorting by a numeric key *)

Section SortFacts.
Context {A : Type}.
Variable key : A → Z.

Local Abbreviation by_key_desc := (by_key_desc key).
Local Abbreviation desc := (desc key).

Lemma insert_by_perm (cmp : A → A → Z) x l : Js.insert_by cmp x l ≡ₚ x :: l.
Proof.
  induction l as [|y l IH]; simpl; [done|].
  destruct (cmp x y <=? 0); [done|]. rewrite IH. apply Permutation_swap.
Qed.

Lemma sort_by_perm (cmp : A → A → Z) l : Js.sort_by cmp l ≡ₚ l.
Proof.
  induction l as [|x l IH]; simpl; [done|].
  rewrite insert_by_perm. by rewrite IH.
Qed.

Lemma insert_by_desc x l :
  StronglySorted desc l → StronglySorted desc (Js.insert_by by_key_desc x l).
Proof.
  induction 1 as [|y l Hl IH Hy]; simpl.
  - repeat constructor.
  - unfold by_key_desc at 1. destruct (Z.leb_spec (key y - key x) 0) as [Hle|Hgt].
    + constructor; [by constructor|].
      constructor; [unfold desc; lia|].
      eapply Forall_impl; [exact Hy|]. unfold desc. intros; lia.
    + constructor; [done|].
      rewrite insert_by_perm. constructor; [unfold desc; lia|done].
Qed.

Lemma sort_by_desc l : StronglySorted desc (Js.sort_by by_key_desc l).
Proof.
  induction l as [|x l IH]; simpl; [constructor|]. by apply insert_by_desc.
Qed.

(** The first [n] elements of the sorted array are [n] elements of the
    array with the largest keys, largest first. *)
Lemma sort_by_take n l :
  let top := take n (Js.sort_by by_key_desc l) in
  let others := drop n (Js.sort_by by_key_desc l) in
  length top = min n (length l)
  ∧ l ≡ₚ top ++ others
  ∧ StronglySorted desc top
  ∧ ∀ x y, x ∈ top → y ∈ others → key y <= key x.
Proof.
  intros top others. subst top others.
  pose proof (sort_by_desc l) as Hs. rewrite <- (take_drop n) in Hs.
  split; [by rewrite length_take, (Permutation_length (sort_by_perm _ l))|].
  split; [by rewrite take_drop, sort_by_perm|].
  split; [by eapply StronglySorted_app_1_l|].
  intros x y Hx Hy. by eapply (StronglySorted_app_1_elem_of desc).
Qed.
End SortFacts.

(** ** ChartDisplay: the pie chart *)

Lemma deref_cons_lookup (h : Heap.Heap) r first rest :
  Heap.deref h r = first :: rest → h !! r = Some (first :: rest).
Proof. unfold Heap.deref. destruct (h !! r) as [a|]; simpl; congruence. Qed.

Lemma renderChart_pie S2N (h : Heap.Heap) chart first rest :
  ChartDisplay.chart_type chart = Api.chart_type_name Api.Pie →
  Heap.deref h (ChartDisplay.data chart) = first :: rest →
  let xKey := ChartDisplay.or_key (ChartDisplay.x_axis chart) (Js.keys first !! 0%nat) in
  let yKey := ChartDisplay.or_else
                (ChartDisplay.or_key (ChartDisplay.y_axis chart) (Js.keys first !! 1%nat))
                "count" in
  let sorted := Js.sort_by (ChartDisplay.pie_cmp S2N yKey) (first :: rest) in
  ChartDisplay.renderChart S2N (Some chart) h
  = (Eff.Ok (ChartDisplay.PieChart (S (length h)) xKey yKey
               (ChartDisplay.cells (length (take 10 sorted)))),
     h ++ [sorted; take 10 sorted]).
Proof.
  intros Hpie Hdata xKey yKey sorted.
  unfold ChartDisplay.renderChart, Eff.bind, Eff.read, Eff.ret.
  rewrite Hdata, Hpie. cbv beta iota zeta. fold xKey yKey.
  set (rows := first :: rest) in *.
  change (String.eqb (Api.chart_type_name Api.Pie) "bar") with false.
  change (String.eqb (Api.chart_type_name Api.Pie) "line") with false.
  change (String.eqb (Api.chart_type_name Api.Pie) "pie") with true.
  cbv beta iota.
  unfold Heap.spread, Heap.sort, Heap.slice0, Heap.alloc.
  rewrite Hdata. cbv beta iota.
  assert (Hcopy : Heap.deref (h ++ [rows]) (length h) = rows).
  { unfold Heap.deref. by rewrite list_lookup_middle. }
  rewrite Hcopy. fold sorted.
  assert (Hins : <[length h := sorted]> (h ++ [rows]) = h ++ [sorted]).
  { replace (length h) with (length h + 0)%nat at 1 by lia.
    by rewrite insert_app_r. }
  rewrite Hins.
  assert (Hsd : Heap.deref (h ++ [sorted]) (length h) = sorted).
  { unfold Heap.deref. by rewrite list_lookup_middle. }
  rewrite Hsd.
  assert (Hpd : Heap.deref ((h ++ [sorted]) ++ [take 10 sorted])
                           (length (h ++ [sorted])) = take 10 sorted).
  { unfold Heap.deref. by rewrite list_lookup_middle. }
  rewrite Hpd. rewrite length_app, <- app_assoc. simpl.
  by replace (length h + 1)%nat with (S (length h)) by lia.
Qed.

(** C10. For a chart of type pie whose data array is not empty,
    [renderChart] returns a pie chart over a fresh array [pieData] with one
    cell per element.  That array has at most 10 elements, min(10, number
    of records) exactly; they are records of the data with the largest
    values of [Number(record[yKey]) || 0] (every other record of the data
    has a value no larger), in descending order of that value.  No array
    that existed before, the chart data among them, is changed.  The key
    [yKey] is the configured y axis when that is not empty, else the
    second key of the first record when that is not empty, else "count";
    the value of a record is the number in its cell under that key, what
    StringToNumber makes of a string there (0 for NaN), 1 and 0 for true
    and false, and 0 for null and for a missing cell. *)
Theorem pie_shows_top_ten
    (S2N : string → option Z) (h : Heap.Heap) (chart : ChartDisplay.Chart)
    (first : Js.Record) (rest : list Js.Record)
    (Hpie : ChartDisplay.chart_type chart = Api.chart_type_name Api.Pie)
    (Hdata : Heap.deref h (ChartDisplay.data chart) = first :: rest) :
  let rows := first :: rest in
  let xKey := ChartDisplay.or_key (ChartDisplay.x_axis chart) (Js.keys first !! 0%nat) in
  let yKey := ChartDisplay.or_else
                (ChartDisplay.or_key (ChartDisplay.y_axis chart) (Js.keys first !! 1%nat))
                "count" in
  let value := fun r => Js.number_or_zero S2N (Js.get r yKey) in
  ∃ (pieData : Heap.Ref) (h' : Heap.Heap) (others : list Js.Record),
    let slices := Heap.deref h' pieData in
    ChartDisplay.renderChart S2N (Some chart) h
    = (Eff.Ok (ChartDisplay.PieChart pieData xKey yKey
                 (ChartDisplay.cells (length slices))), h')
    ∧ (length slices ≤ 10)%nat
    ∧ length slices = min 10 (length rows)
    ∧ rows ≡ₚ slices ++ others
    ∧ (∀ x y, x ∈ slices → y ∈ others → value y <= value x)
    ∧ StronglySorted (fun a b => value b <= value a) slices
    ∧ (∀ r, (r < length h)%nat → h' !! r = h !! r)
    ∧ Heap.deref h' (ChartDisplay.data chart) = rows
    ∧ (∀ k, ChartDisplay.y_axis chart = Some k → k ≠ EmptyString → yKey = k)
    ∧ (ChartDisplay.y_axis chart = None
       ∨ ChartDisplay.y_axis chart = Some EmptyString →
       (∀ k, Js.keys first !! 1%nat = Some k → k ≠ EmptyString → yKey = k)
       ∧ (Js.keys first !! 1%nat = None
          ∨ Js.keys first !! 1%nat = Some EmptyString → yKey = "count"))
    ∧ (∀ r, match Js.get r yKey with
            | Js.JNum n => value r = n
            | Js.JStr t => value r = default 0 (S2N t)
            | Js.JBool b => value r = if b then 1 else 0
            | Js.JNull | Js.JUndefined => value r = 0
            end).
Proof.
  intros rows xKey yKey value.
  pose proof (deref_cons_lookup _ _ _ _ Hdata) as Hlook.
  pose proof (lookup_lt_Some _ _ _ Hlook) as Hlt.
  pose proof (renderChart_pie S2N h chart first rest Hpie Hdata) as Hrender.
  cbv zeta in Hrender. fold xKey yKey rows in Hrender.
  set (sorted := Js.sort_by (ChartDisplay.pie_cmp S2N yKey) rows) in *.
  exists (S (length h)), (h ++ [sorted; take 10 sorted]), (drop 10 sorted).
  assert (Hpd : Heap.deref (h ++ [sorted; take 10 sorted]) (S (length h))
                = take 10 sorted).
  { unfold Heap.deref. rewrite lookup_app_r by lia.
    by replace (S (length h) - length h)%nat with 1%nat by lia. }
  cbv zeta. rewrite Hpd.
  destruct (sort_by_take value 10 rows) as (Hlen & Hperm & Hsorted & Htop).
  change (Js.sort_by (by_key_desc value) rows) with sorted in *.
  split; [exact Hrender|].
  split; [rewrite Hlen; lia|].
  split; [exact Hlen|].
  split; [exact Hperm|].
  split; [exact Htop|].
  split; [exact Hsorted|].
  split; [intros r Hr; by rewrite lookup_app_l|].
  split; [unfold Heap.deref; rewrite lookup_app_l by done; by rewrite Hlook|].
  split; [|split].
  - intros k Hk Hne. unfold yKey. rewrite Hk. by destruct k.
  - intros Hnone. split.
    + intros k Hk Hne. unfold yKey. rewrite Hk.
      destruct Hnone as [-> | ->]; by destruct k.
    + intros Hsecond. unfold yKey.
      destruct Hnone as [-> | ->], Hsecond as [-> | ->]; done.
  - intros r. unfold value, Js.number_or_zero, Js.to_number.
    destruct (Js.get r yKey) as [| |[]|n|t]; try done.
Qed.

(** ** Pagination *)

Lemma total_pages_ceil R P :
  1 <= P → 0 <= R →
  (Backend.total_pages_of R P - 1) * P < R <= Backend.total_pages_of R P * P.
Proof.
  intros HP HR. unfold Backend.total_pages_of.
  pose proof (Z.div_mod (R + P - 1) P ltac:(lia)) as Hdm.
  pose proof (Z.mod_pos_bound (R + P - 1) P ltac:(lia)) as Hm.
  nia.
Qed.

Lemma page_rows_length (rows : list Js.Record) p P :
  1 <= P → 1 <= p →
  Z.of_nat (length (Backend.page_rows rows p P))
  = Z.max 0 (Z.min (p * P) (Z.of_nat (length rows)) - (p - 1) * P).
Proof.
  intros HP Hp. unfold Backend.page_rows.
  rewrite length_take, length_drop. nia.
Qed.

Lemma page_rows_lookup (rows : list Js.Record) p P (i : nat) :
  1 <= P → 1 <= p →
  Z.of_nat i < P →
  Backend.page_rows rows p P !! i = rows !! Z.to_nat ((p - 1) * P + Z.of_nat i).
Proof.
  intros HP Hp Hi. unfold Backend.page_rows.
  rewrite lookup_take_lt by lia. rewrite lookup_drop. f_equal. nia.
Qed.

Lemma pages_concat (rows : list Js.Record) P (n : nat) :
  1 <= P →
  concat (map (fun p => Backend.page_rows rows (Z.of_nat p) P) (seq 1 n))
  = take (n * Z.to_nat P) rows.
Proof.
  intros HP. induction n as [|n IH]; [done|].
  rewrite seq_S, map_app, concat_app, IH. simpl. rewrite app_nil_r.
  unfold Backend.page_rows.
  replace (Z.to_nat ((Z.of_nat (S n) - 1) * P)) with (n * Z.to_nat P)%nat by nia.
  rewrite take_take_drop. f_equal. lia.
Qed.

(** C6. Backend (modelled from the specification): for a page size P of
    at least 1 and a dataset of R rows, every page request is answered
    with total_pages equal to ceil(R / P), the number N with
    (N-1)*P < R <= N*P; page p of 1..N holds exactly the rows with the
    global indices (p-1)*P to min(p*P, R)-1, in that order; the pages 1..N
    one after the other are the dataset's rows in their original order.
    Frontend (from DataTable.tsx): the footer of a page, when shown,
    reads (p-1)*P+1 to min(p*P, R) of R, the first and last of these
    rows counted from 1. *)
Theorem pages_tile_the_dataset
    (st : gmap string World.Dataset) (id : string) (ds : World.Dataset) (P : Z)
    (Hds : st !! id = Some ds) (HP : 1 <= P) :
  let rows := World.ds_rows ds in
  let R := Z.of_nat (length rows) in
  let N := Backend.total_pages_of R P in
  let meta p := {| Api.current_page := p; Api.page_size := P;
                   Api.total_rows := R; Api.total_pages := N |} in
  (N - 1) * P < R <= N * P
  ∧ (∀ p, Backend.get_dataset id p P st
          = (Eff.Ok {| Api.page_info := World.ds_info ds;
                       Api.page_data := Backend.page_rows rows p P;
                       Api.pagination := meta p |}, st))
  ∧ (∀ p, 1 <= p <= N →
          Z.of_nat (length (Backend.page_rows rows p P))
          = Z.min (p * P) R - (p - 1) * P
          ∧ ∀ i : nat,
              (p - 1) * P + Z.of_nat i < Z.min (p * P) R →
              Backend.page_rows rows p P !! i
              = rows !! Z.to_nat ((p - 1) * P + Z.of_nat i))
  ∧ concat (map (fun p => Backend.page_rows rows (Z.of_nat p) P)
                (seq 1 (Z.to_nat N))) = rows
  ∧ (∀ p, 1 <= p <= N → 1 < N →
          DataTable.showing
            (Home.tableProps
               {| Home.selectedDataset := Some (World.ds_info ds);
                  Home.tableData := Backend.page_rows rows p P;
                  Home.pagination := meta p;
                  Home.loading := false |}
               (World.ds_info ds))
          = Some ((p - 1) * P + 1, Z.min (p * P) R, R)).
Proof.
  intros rows R N meta.
  pose proof (total_pages_ceil R P HP ltac:(lia)) as Hceil. fold N in Hceil.
  split; [exact Hceil|].
  split; [intros p; unfold Backend.get_dataset; by rewrite Hds|].
  split.
  { intros p Hp. split.
    - rewrite page_rows_length by lia. fold R. nia.
    - intros i Hi. apply page_rows_lookup; lia. }
  split.
  { rewrite pages_concat by done. apply take_ge. nia. }
  intros p Hp HN. unfold DataTable.showing, Home.tableProps. simpl.
  by rewrite (proj2 (Z.ltb_lt 1 N) HN).
Qed.

(** ** DataTable: the row index of a cell edit *)

(** Without a sort column the index [saveEdit] sends is the global index
    of the row shown at the position of the edit. *)
Lemma unsorted_edit_addresses_row
    S2N cmp (rows : list Js.Record) props s (i : nat) column row :
  1 <= DataTable.pageSize props →
  1 <= DataTable.currentPage props →
  DataTable.data props
  = Backend.page_rows rows (DataTable.currentPage props) (DataTable.pageSize props) →
  DataTable.onCellEdit props = true →
  DataTable.sortColumn s = None →
  DataTable.sortedData cmp props s !! i = Some row →
  ∃ e, (DataTable.saveEdit S2N props (DataTable.clickEdit cmp props i column s)).1
       = Some e
       ∧ DataTable.rowIndex e
         = (DataTable.currentPage props - 1) * DataTable.pageSize props + Z.of_nat i
       ∧ rows !! Z.to_nat (DataTable.rowIndex e) = Some row.
Proof.
  intros HP Hp Hdata Hcb Hsort Hrow.
  unfold DataTable.clickEdit, DataTable.saveEdit. rewrite Hrow, Hcb. simpl.
  eexists. split; [done|]. split; [done|]. simpl.
  unfold DataTable.sortedData in Hrow. rewrite Hsort, Hdata in Hrow.
  assert (Z.of_nat i < DataTable.pageSize props) as Hi.
  { apply lookup_lt_Some in Hrow. unfold Backend.page_rows in Hrow.
    rewrite length_take in Hrow. lia. }
  by rewrite page_rows_lookup in Hrow.
Qed.

(** C1 fails on the code when a sort column is active.  The store holds
    the rows b (index 0) and a (index 1); the table shows page 1 sorted by
    v, so row a is shown first.  Editing the name shown in the first row to
    z makes [saveEdit] send the index 0, the position in the sorted view;
    the backend writes z into row b, and the cell that was edited, the name
    of row a at index 1, still reads a. *)
Theorem sorted_edit_updates_another_row :
  let home := {| Home.selectedDataset := Some Sample.info;
                 Home.tableData := Sample.rows;
                 Home.pagination := {| Api.current_page := 1; Api.page_size := 50;
                                       Api.total_rows := 2; Api.total_pages := 1 |};
                 Home.loading := false |} in
  let props := Home.tableProps home Sample.info in
  let sorted := DataTable.handleSort "v" DataTable.initial in
  let editing := DataTable.setEditValue "z"
                   (DataTable.clickEdit Sample.localeCompare props 0 "name" sorted) in
  let edit := (DataTable.saveEdit Sample.StringToNumber props editing).1 in
  let sent := {| DataTable.rowIndex := 0; DataTable.columnName := "name";
                 DataTable.newValue := Js.JStr "z" |} in
  let after := (Home.handleCellEdit Sample.server sent (home, Sample.world0)).2.2 in
  DataTable.sortedData Sample.localeCompare props sorted !! 0%nat = Sample.rows !! 1%nat
  ∧ DataTable.editingCell editing = Some (0%nat, "name")
  ∧ edit = Some sent
  ∧ World.requests after = [Api.PutCell "d1" 0 "name" (Js.JStr "z");
                            Api.GetDataset "d1" 1 50]
  ∧ Backend.read_cell "d1" 1 "name" (World.store after) = Some (Js.JStr "a")
  ∧ Backend.read_cell "d1" 0 "name" (World.store Sample.world0) = Some (Js.JStr "b")
  ∧ Backend.read_cell "d1" 0 "name" (World.store after) = Some (Js.JStr "z").
Proof. repeat split; vm_compute; reflexivity. Qed.

(** ** downloadCSV *)

Section CsvFacts.
Import Csv.

Lemma append_cons c s t : String c s +:+ t = String c (s +:+ t).
Proof. reflexivity. Qed.

Lemma append_assoc s t u : (s +:+ t) +:+ u = s +:+ t +:+ u.
Proof. induction s as [|c s IH]; [done|]. by rewrite !append_cons, IH. Qed.

Lemma snoc_append s c t : snoc s c +:+ t = s +:+ String c t.
Proof. unfold snoc, Download.str. by rewrite append_assoc. Qed.

Lemma append_nil_r s : s +:+ EmptyString = s.
Proof. induction s as [|c s IH]; [done|]. by rewrite append_cons, IH. Qed.

Lemma run_cons r c t : run r (String c t) = step r c ≫= fun r' => run r' t.
Proof. reflexivity. Qed.

Lemma run_str r c : run r (Download.str c) = step r c.
Proof. unfold Download.str. rewrite run_cons. by destruct (step r c). Qed.

Lemma join_cons sep p q rest :
  Js.join sep (p :: q :: rest) = p +:+ sep +:+ Js.join sep (q :: rest).
Proof. reflexivity. Qed.

Lemma run_app r a b : run r (a +:+ b) = run r a ≫= fun r' => run r' b.
Proof.
  revert r. induction a as [|c a IH]; intros r; [done|].
  rewrite append_cons. simpl. destruct (step r c); [apply IH|done].
Qed.

Lemma step_comma r :
  mode r ≠ Quoted → step r Download.comma = Some (endField r).
Proof. unfold step. by destruct (mode r). Qed.

Lemma step_newline r :
  inside r = true → step r Download.newline = Some (endRecord RecordStart r).
Proof. unfold inside, step. by destruct (mode r). Qed.

Lemma step_cr r :
  inside r = true → step r cr = Some (endRecord AfterCR r).
Proof. unfold inside, step. by destruct (mode r). Qed.

Lemma includes_cons_false c s d :
  Js.includes_char (String c s) d = false →
  Ascii.eqb c d = false ∧ Js.includes_char s d = false.
Proof. simpl. by intros ?%orb_false_iff. Qed.

Lemma includes_app s t c :
  Js.includes_char (s +:+ t) c = Js.includes_char s c || Js.includes_char t c.
Proof.
  induction s as [|d s IH]; [done|].
  rewrite append_cons. simpl. by rewrite IH, orb_assoc.
Qed.

Lemma plain_cons c s :
  Download.plain (String c s) = true →
  Ascii.eqb c Download.comma = false ∧ Ascii.eqb c Download.dquote = false
  ∧ Ascii.eqb c Download.newline = false ∧ Download.plain s = true.
Proof.
  unfold Download.plain. rewrite !negb_true_iff, !orb_false_iff.
  intros [[(? & ?)%includes_cons_false (? & ?)%includes_cons_false]
          (? & ?)%includes_cons_false].
  repeat split; done.
Qed.

Lemma bare_cons c s :
  bare (String c s) = true →
  Ascii.eqb c Download.comma = false ∧ Ascii.eqb c Download.dquote = false
  ∧ Ascii.eqb c Download.newline = false ∧ Ascii.eqb c cr = false
  ∧ bare s = true.
Proof.
  unfold bare. intros [Hp Hc]%andb_true_iff.
  apply plain_cons in Hp as (? & ? & ? & Hp).
  apply negb_true_iff, includes_cons_false in Hc as [? Hc].
  repeat split; try done. by rewrite Hp, Hc.
Qed.

Lemma bare_plain s : bare s = true → Download.plain s = true.
Proof. unfold bare. by intros [? _]%andb_true_iff. Qed.

Lemma bare_safe s : bare s = true → safe s = true.
Proof.
  unfold bare, safe. intros [_ ->]%andb_true_iff. by rewrite orb_true_r.
Qed.

Lemma plain_safe_bare s : Download.plain s = true → safe s = true → bare s = true.
Proof. unfold bare, safe. intros ->. simpl. by intros ->. Qed.

(** A bare field is read character by character. *)
Lemma run_plain v r :
  bare v = true →
  fresh r = true ∨ mode r = Unquoted →
  ∃ r', run r v = Some r' ∧ field r' = field r +:+ v
        ∧ fields r' = fields r ∧ records r' = records r
        ∧ mode r' = match v with EmptyString => mode r | _ => Unquoted end.
Proof.
  revert r. induction v as [|c v IH]; intros r Hv Hmode.
  - exists r. repeat split. by rewrite append_nil_r.
  - apply bare_cons in Hv as (Hc & Hq & Hn & Hr & Hv).
    assert (step r c = Some (add c Unquoted r)) as Hstep.
    { unfold step, fresh in *.
      destruct (mode r); rewrite ?Hn, ?Hr, ?Hq, ?Hc; try done;
        destruct Hmode; done. }
    simpl. rewrite Hstep.
    destruct (IH (add c Unquoted r) Hv) as (r' & Hrun & Hf & Hfs & Hrs & Hm);
      [by right|].
    exists r'. repeat split; try done.
    + simpl in Hf. by rewrite Hf, snoc_append.
    + rewrite Hm. by destruct v.
Qed.

(** Inside the quotes every character is data; a doubled quote is one
    quote. *)
Lemma run_quoted v r :
  mode r = Quoted →
  ∃ r', run r (Js.replace_all v Download.dquote
                 (Download.str Download.dquote +:+ Download.str Download.dquote))
        = Some r'
        ∧ mode r' = Quoted ∧ field r' = field r +:+ v
        ∧ fields r' = fields r ∧ records r' = records r.
Proof.
  revert r. induction v as [|c v IH]; intros r Hmode.
  - exists r. repeat split; [done|by rewrite append_nil_r].
  - destruct (IH (add c Quoted r)) as (r' & Hrun & Hm & Hf & Hfs & Hrs); [done|].
    exists r'. split; [|repeat split; try done; simpl in Hf; by rewrite Hf, snoc_append].
    rewrite <- Hrun. clear Hrun.
    cbn [Js.replace_all]. destruct (Ascii.eqb_spec c Download.dquote) as [->|Hc].
    + rewrite append_assoc, !run_app.
      assert (run r (Download.str Download.dquote) = Some (enter QuoteSeen r)) as ->.
      { cbn [run Download.str]. unfold step. by rewrite Hmode. }
      cbn [mbind option_bind]. rewrite run_app.
      assert (run (enter QuoteSeen r) (Download.str Download.dquote)
              = Some (add Download.dquote Quoted r)) as ->; done.
    + rewrite run_cons. unfold step at 1. rewrite Hmode.
      by rewrite (proj2 (Ascii.eqb_neq c Download.dquote) Hc).
Qed.

Lemma escape_plain v : Download.plain v = true → Download.escape v = v.
Proof.
  unfold Download.plain, Download.escape. rewrite negb_true_iff. by intros ->.
Qed.

(** An escaped value reads back as the value. *)
Lemma run_escape v r :
  fresh r = true → field r = EmptyString → safe v = true →
  ∃ r', run r (Download.escape v) = Some r' ∧ field r' = v
        ∧ fields r' = fields r ∧ records r' = records r
        ∧ mode r' ≠ Quoted
        ∧ (v = EmptyString → mode r' = mode r)
        ∧ (v ≠ EmptyString → inside r' = true).
Proof.
  intros Hmode Hfield Hsafe. destruct (Download.plain v) eqn:Hp.
  - rewrite escape_plain by done.
    destruct (run_plain v r (plain_safe_bare v Hp Hsafe))
      as (r' & Hrun & Hf & Hfs & Hrs & Hm); [by left|].
    exists r'. split; [done|]. split; [by rewrite Hf, Hfield|].
    split; [done|]. split; [done|].
    destruct v as [|c v].
    + rewrite Hm. split; [|done]. unfold fresh in Hmode.
      by destruct (mode r).
    + rewrite Hm. unfold inside. rewrite Hm. done.
  - unfold Download.escape. unfold Download.plain in Hp.
    apply negb_false_iff in Hp. rewrite Hp.
    change (Download.str Download.dquote +:+ ?x)
      with (String Download.dquote x).
    assert (Hopen : step r Download.dquote = Some (enter Quoted r)).
    { unfold step, fresh in *. by destruct (mode r). }
    rewrite run_cons, Hopen. cbn [mbind option_bind]. rewrite run_app.
    destruct (run_quoted v (enter Quoted r)) as (r' & Hrun & Hm & Hf & Hfs & Hrs);
      [done|].
    rewrite Hrun. cbn [mbind option_bind]. rewrite run_str.
    unfold step. rewrite Hm. simpl.
    eexists. split; [done|]. simpl.
    split; [simpl in Hf; by rewrite Hf, Hfield|].
    split; [done|]. split; [done|]. split; [done|].
    split; [|done]. intros ->. discriminate Hp.
Qed.

Lemma run_line v vs r :
  fresh r = true → field r = EmptyString →
  Forall (fun v => safe v = true) (v :: vs) →
  ∃ r', run r (line (v :: vs)) = Some r' ∧ mode r' ≠ Quoted
        ∧ fields r' ++ [field r'] = fields r ++ v :: vs
        ∧ records r' = records r
        ∧ (mode r = FieldStart ∨ visible (v :: vs) = true → inside r' = true).
Proof.
  revert v r. induction vs as [|v' vs IH]; intros v r Hmode Hfield Hsafe;
    apply Forall_cons in Hsafe as [Hv Hsafe].
  - destruct (run_escape v r Hmode Hfield Hv)
      as (r' & Hrun & Hf & Hfs & Hrs & Hq & Hempty & Hin).
    exists r'. unfold line. simpl. split; [done|]. split; [done|].
    split; [by rewrite Hf, Hfs|]. split; [done|].
    destruct v as [|c v]; [|intros _; by apply Hin].
    intros [Hm|Hvis]; [|done]. unfold inside. by rewrite Hempty, Hm.
  - destruct (run_escape v r Hmode Hfield Hv)
      as (r1 & Hrun & Hf & Hfs & Hrs & Hq & _).
    destruct (IH v' (endField r1)) as (r' & Hrun' & Hq' & Hf' & Hrs' & Hin');
      [done..|].
    exists r'. split.
    { unfold line in *. cbn [map]. rewrite join_cons, run_app, Hrun.
      cbn [mbind option_bind]. rewrite run_app, run_str, step_comma by done.
      exact Hrun'. }
    split; [done|]. split; [|split].
    + simpl in *. rewrite Hf', Hf, Hfs. by rewrite <- app_assoc.
    + by rewrite Hrs'.
    + intros _. apply Hin'. by left.
Qed.

Lemma visible_cons row : visible row = true → ∃ v vs, row = v :: vs.
Proof. destruct row as [|v vs]; [done|eauto]. Qed.

Lemma run_lines row rows r :
  mode r = RecordStart → field r = EmptyString → fields r = [] →
  Forall (Forall (fun v => safe v = true)) (row :: rows) →
  Forall (fun row => visible row = true) (row :: rows) →
  ∃ r', run r (Js.join (Download.str Download.newline) (map line (row :: rows)))
        = Some r'
        ∧ inside r' = true
        ∧ records r' ++ [fields r' ++ [field r']] = records r ++ row :: rows.
Proof.
  revert row r. induction rows as [|row' rows IH];
    intros row r Hmode Hfield Hfields Hsafe Hvis;
    apply Forall_cons in Hsafe as [Hrow Hsafe];
    apply Forall_cons in Hvis as [Hv Hvis];
    destruct (visible_cons row Hv) as (v & vs & ->);
    (destruct (run_line v vs r) as (r1 & Hrun & Hq & Hf & Hrs & Hin);
     [by unfold fresh; rewrite Hmode|done|done|]);
    specialize (Hin (or_intror Hv)).
  - exists r1. simpl. by rewrite Hrun, Hf, Hrs, Hfields.
  - destruct (IH row' (endRecord RecordStart r1)) as (r' & Hrun' & Hin' & Hrs');
      [done..|].
    exists r'. split.
    { cbn [map]. rewrite join_cons, run_app, Hrun.
      cbn [mbind option_bind]. rewrite run_app, run_str, step_newline by done.
      exact Hrun'. }
    split; [done|]. simpl in *. rewrite Hrs', Hf, Hrs, Hfields.
    by rewrite <- app_assoc.
Qed.

Lemma finish_inside r :
  inside r = true → finish r = Some (records r ++ [fields r ++ [field r]]).
Proof. unfold inside, finish. by destruct (mode r). Qed.

(** Where [downloadCSV] is right.  When no key of the first record has a
    comma, a double quote, a line feed or a carriage return, every value
    with a carriage return also has a comma, a double quote or a line
    feed, and no line of the text is empty (there are two keys or more,
    or the one key and every value under it are not empty), the text
    reads back as the header row and the string values of every
    record. *)
Lemma downloadCSV_reads_back data first rest :
  data = first :: rest →
  Forall (fun h => bare h = true) (Js.keys first) →
  Forall (Forall (fun v => safe v = true)) (table data) →
  Forall (fun row => visible row = true) (table data) →
  (Download.downloadCSV data ≫= parse) = Some (table data).
Proof.
  intros -> Hbare. unfold Download.downloadCSV, table.
  assert (Hhead : Js.join (Download.str Download.comma) (Js.keys first)
                  = line (Js.keys first)).
  { unfold line. f_equal.
    induction Hbare as [|h hs Hh _ IH]; [done|].
    simpl. by rewrite escape_plain, <- IH by by apply bare_plain. }
  set (headers := Js.keys first) in *.
  set (cells := fun row : Js.Record =>
                  map (fun h => Download.stringValue (Js.get row h)) headers).
  intros Hsafe Hvis.
  assert (Hrows : map (Download.csvRow headers) (first :: rest)
                  = map line (map cells (first :: rest))).
  { rewrite map_map. apply map_ext. intros row.
    unfold Download.csvRow, line, cells. by rewrite map_map. }
  rewrite Hhead, Hrows. simpl. unfold parse.
  destruct (run_lines headers (map cells (first :: rest)) start)
    as (r' & Hrun & Hin & Hrs); try done.
  simpl in Hrun. rewrite Hrun. rewrite finish_inside by done. by rewrite Hrs.
Qed.
End CsvFacts.

(** C9 fails on the code for a column name with a line break, as the
    headers of spreadsheets have them: the header row is written without
    the quoting that values get, so the text reads back as three records
    and the first of them after the header is not the record that was
    written.  The same line break in a value is quoted and reads back. *)
Theorem header_is_not_escaped :
  let nl := Download.str Download.newline in
  let key := "Total" +:+ nl +:+ "Sales" in
  let data := [[(key, Js.JNum 5)]] in
  let data' := [[("Sales", Js.JStr key)]] in
  Download.downloadCSV data = Some ("Total" +:+ nl +:+ "Sales" +:+ nl +:+ "5")
  ∧ Csv.table data = [[key]; ["5"]]
  ∧ (Download.downloadCSV data ≫= Csv.parse) = Some [["Total"]; ["Sales"]; ["5"]]
  ∧ (Download.downloadCSV data ≫= Csv.parse) ≠ Some (Csv.table data)
  ∧ (Download.downloadCSV data' ≫= Csv.parse) = Some (Csv.table data').
Proof. repeat split; vm_compute; congruence. Qed.

(** ** The theorems at sample inputs *)

Lemma failures_become_error_results_witness :
  let qprops := {| QueryInput.datasetId := "d1"; QueryInput.suggestions := [];
                   QueryInput.model := None; QueryInput.onQueryResult := None |} in
  let qst := {| QueryInput.query := " how many rows? "; QueryInput.loading := false;
                QueryInput.result := None; QueryInput.showCode := false;
                QueryInput.history := [] |} in
  let mprops := {| DataEditor.datasetId := "d1";
                   DataEditor.onModifySuccess := Some (fun _ => Eff.Throw Js.NonError);
                   DataEditor.model := None |} in
  let mst := {| DataEditor.command := "Delete all rows"; DataEditor.loading := false;
                DataEditor.result := None |} in
  submits (QueryInput.query qst) (QueryInput.loading qst) = true
  ∧ query_fails Sample.server qprops qst Sample.world0 (Js.ErrorObj "Network Error")
  ∧ QueryInput.result
      (QueryInput.handleSubmit Sample.server qprops (qst, Sample.world0)).2.1
    = Some {| Api.query := " how many rows? "; Api.result_type := Api.RtError;
              Api.data := Api.PScalar Js.JNull; Api.explanation := "Network Error";
              Api.pandas_code := None; Api.execution_time_ms := 0 |}
  ∧ modify_fails Sample.server mprops mst Sample.world0 Js.NonError
  ∧ DataEditor.result
      (DataEditor.handleModify Sample.server mprops (mst, Sample.world0)).2.1
    = Some {| Api.success := false; Api.message := "Modification failed";
              Api.changes_made := EmptyString; Api.rows_affected := 0;
              Api.modify_pandas_code := None |}.
Proof.
  intros qprops qst mprops mst.
  assert (Hq : query_fails Sample.server qprops qst Sample.world0
                 (Js.ErrorObj "Network Error")) by (left; reflexivity).
  assert (Hm : modify_fails Sample.server mprops mst Sample.world0 Js.NonError).
  { right. eexists _, _. repeat split; reflexivity. }
  destruct (failures_become_error_results Sample.server Sample.world0
              qprops qst mprops mst) as (_ & _ & Hquery & Hmodify).
  split; [reflexivity|]. split; [exact Hq|].
  split; [exact (proj2 (Hquery eq_refl) _ Hq)|].
  split; [exact Hm|].
  exact (proj2 (Hmodify eq_refl) _ Hm).
Defined.

Lemma modify_all_or_nothing_witness :
  let props := {| DataEditor.datasetId := "d1";
                  DataEditor.onModifySuccess := Some (fun _ => Eff.Ok tt);
                  DataEditor.model := None |} in
  let st := {| DataEditor.command := "Delete all rows"; DataEditor.loading := false;
               DataEditor.result := None |} in
  let after := DataEditor.handleModify Sample.server props (st, Sample.world0) in
  let emptied := World.store after.2.2 !! "d1" in
  let dropped :=
    (Backend.modify Sample.interpret_modify "d1" "Drop the name column" None
       Sample.store0).2 !! "d1" in
  let added :=
    (Backend.modify Sample.interpret_modify "d1"
       "Add a new column 'twice' as v * 2" None Sample.store0).2 !! "d1" in
  let refused :=
    Backend.modify Sample.interpret_modify "d1" "Make it nicer" None
      Sample.store0 in
  submits (DataEditor.command st) (DataEditor.loading st) = true
  ∧ World.calls after.2.2 = ["onModifySuccess"]
  ∧ (World.ds_rows <$> emptied) = Some []
  ∧ (Api.rows ∘ World.ds_info <$> emptied) = Some 0
  ∧ (Api.column_names ∘ World.ds_info <$> emptied) = Some ["name"; "v"]
  ∧ (World.ds_rows <$> dropped) = Some [[("v", Js.JNum 2)]; [("v", Js.JNum 1)]]
  ∧ (Api.rows ∘ World.ds_info <$> dropped) = Some 2
  ∧ (Api.column_names ∘ World.ds_info <$> dropped) = Some ["v"]
  ∧ (Api.columns ∘ World.ds_info <$> dropped) = Some 1
  ∧ (World.ds_rows <$> added)
    = Some [[("name", Js.JStr "b"); ("v", Js.JNum 2); ("twice", Js.JNum 4)];
            [("name", Js.JStr "a"); ("v", Js.JNum 1); ("twice", Js.JNum 2)]]
  ∧ (Api.column_names ∘ World.ds_info <$> added) = Some ["name"; "v"; "twice"]
  ∧ (Api.columns ∘ World.ds_info <$> added) = Some 3
  ∧ refused
    = (Eff.Ok (Backend.modify_failed "Could not interpret the command"),
       Sample.store0).
Proof.
  intros props st after emptied dropped added refused.
  destruct (modify_all_or_nothing
              Sample.interpret_modify "d1" "Delete all rows" None
              Sample.store0 Sample.server props st Sample.world0
              (fun _ => Eff.Ok tt) eq_refl eq_refl) as [_ Hcalls].
  split; [reflexivity|]. split; [exact Hcalls|].
  repeat split; vm_compute; reflexivity.
Defined.

Lemma failed_chart_shows_error_witness :
  let cfg := {| Api.chart_type := Api.Bar; Api.title := "Sales by region";
                Api.x_axis := Some "region"; Api.y_axis := Some "v";
                Api.x_label := None; Api.y_label := None |} in
  let props := {| ChartDisplay.datasetId := "d1"; ChartDisplay.model := None |} in
  let st := {| ChartDisplay.query := "bar chart of sales by region";
               ChartDisplay.loading := false; ChartDisplay.chartData := None;
               ChartDisplay.error := None |} in
  let view := ChartDisplay.render
                (ChartDisplay.handleGenerate Sample.server props
                   (st, Sample.world0)).2.1 in
  "region" ∈ Backend.referenced cfg
  ∧ ("region" ∉ Api.column_names Sample.info)
  ∧ ChartDisplay.error_box view = Some "Column not found: region"
  ∧ ChartDisplay.chart_card view = None.
Proof.
  intros cfg props st view.
  assert (Hc : "region" ∈ Backend.referenced cfg) by (vm_compute; constructor).
  assert (Hmissing : "region" ∉ Api.column_names Sample.info) by compute_done.
  destruct (failed_chart_shows_error
              Sample.interpret_chart "d1" "bar chart of sales by region" None
              Sample.store0 Sample.dataset cfg "region"
              Sample.server props st Sample.world0
              (Backend.chart_failed "Column not found: region")
              eq_refl eq_refl Hc Hmissing eq_refl eq_refl eq_refl)
    as (_ & Hbox & _ & _ & Hnone).
  split; [exact Hc|]. split; [exact Hmissing|].
  split; [exact Hbox|]. exact (Hnone eq_refl).
Defined.

Lemma result_kind_is_one_of_four_witness :
  let r := {| Api.query := "how many rows?"; Api.result_type := Api.RtValue;
              Api.data := Api.PScalar (Js.JNum 2); Api.explanation := "Row count";
              Api.pandas_code := Some "len(df)"; Api.execution_time_ms := 3 |} in
  ("scalar" ∉ ["table"; "value"; "text"; "error"])
  ∧ QueryInput.renderSwitch "scalar" (Api.data r) (Api.explanation r)
    = QueryInput.RawJson (Api.data r)
  ∧ QueryInput.renderResult (Some r) = QueryInput.ValueBox (Api.data r).
Proof.
  intros r.
  assert (Hs : "scalar" ∉ ["table"; "value"; "text"; "error"]) by compute_done.
  destruct (result_kind_is_one_of_four r) as (_ & _ & _ & Hrender & Hother & _).
  split; [exact Hs|]. split; [exact (Hother _ _ _ Hs)|]. exact Hrender.
Defined.

Lemma pages_tile_the_dataset_witness :
  1 <= 1
  ∧ Backend.total_pages_of 2 1 = 2
  ∧ Backend.page_rows Sample.rows 1 1 ++ Backend.page_rows Sample.rows 2 1
    = Sample.rows.
Proof.
  destruct (pages_tile_the_dataset Sample.store0 "d1" Sample.dataset 1
              eq_refl ltac:(lia)) as (_ & _ & _ & Hconcat & _).
  split; [lia|]. split; [reflexivity|].
  vm_compute in Hconcat |- *. exact Hconcat.
Defined.

Lemma renderChart_total_over_kinds_witness :
  let chart := {| ChartDisplay.chart_type := "bar";
                  ChartDisplay.x_axis := Some "name";
                  ChartDisplay.y_axis := Some "v";
                  ChartDisplay.data := 0%nat |} in
  Heap.deref [Sample.rows] (ChartDisplay.data chart) ≠ []
  ∧ ∃ el, (ChartDisplay.renderChart Sample.StringToNumber (Some chart)
             [Sample.rows]).1 = Eff.Ok el
          ∧ ChartDisplay.element_kind el = Some Api.Bar.
Proof.
  intros chart.
  assert (Hne : Heap.deref [Sample.rows] (ChartDisplay.data chart) ≠ [])
    by (vm_compute; discriminate).
  destruct (renderChart_total_over_kinds Sample.StringToNumber [Sample.rows] chart)
    as (_ & _ & _ & Hkinds & _).
  split; [exact Hne|]. exact (proj1 (Hkinds Hne) Api.Bar eq_refl).
Defined.

Lemma pie_shows_top_ten_witness :
  let row := fun name v => [("region", Js.JStr name); ("units", Js.JNum 1);
                            ("sales", v)] in
  let first := row "a" (Js.JNum 5) in
  let rest := [row "b" (Js.JNum 12); row "c" (Js.JStr "7"); row "d" Js.JNull;
               row "e" (Js.JNum 3); row "f" (Js.JNum 9); row "g" (Js.JNum 1);
               row "h" (Js.JNum 20); row "i" (Js.JStr "x"); row "j" (Js.JNum 8);
               row "k" (Js.JNum 15); row "l" (Js.JNum 2)] in
  let chart := {| ChartDisplay.chart_type := "pie";
                  ChartDisplay.x_axis := Some "region";
                  ChartDisplay.y_axis := Some "sales";
                  ChartDisplay.data := 0%nat |} in
  ∃ (pieData : Heap.Ref) (h' : Heap.Heap),
    ChartDisplay.renderChart Sample.StringToNumber (Some chart) [first :: rest]
    = (Eff.Ok (ChartDisplay.PieChart pieData (Some "region") "sales"
                 (ChartDisplay.cells 10)), h')
    ∧ Heap.deref h' pieData
      = [row "h" (Js.JNum 20); row "k" (Js.JNum 15); row "b" (Js.JNum 12);
         row "f" (Js.JNum 9); row "j" (Js.JNum 8); row "c" (Js.JStr "7");
         row "a" (Js.JNum 5); row "e" (Js.JNum 3); row "l" (Js.JNum 2);
         row "g" (Js.JNum 1)]
    ∧ Heap.deref h' 0%nat = first :: rest.
Proof.
  intros row first rest chart.
  destruct (pie_shows_top_ten Sample.StringToNumber [first :: rest] chart
              first rest eq_refl eq_refl)
    as (pieData & h' & others & Hrender & _ & _ & _ & _ & _ & _ & Hsame & _).
  exists pieData, h'.
  assert (Hrun : ChartDisplay.renderChart Sample.StringToNumber (Some chart)
                   [first :: rest]
                 = (Eff.Ok (ChartDisplay.PieChart 2%nat (Some "region") "sales"
                              (ChartDisplay.cells 10)),
                    [first :: rest;
                     [row "h" (Js.JNum 20); row "k" (Js.JNum 15);
                      row "b" (Js.JNum 12); row "f" (Js.JNum 9);
                      row "j" (Js.JNum 8); row "c" (Js.JStr "7");
                      row "a" (Js.JNum 5); row "e" (Js.JNum 3);
                      row "l" (Js.JNum 2); row "g" (Js.JNum 1);
                      row "d" Js.JNull; row "i" (Js.JStr "x")];
                     [row "h" (Js.JNum 20); row "k" (Js.JNum 15);
                      row "b" (Js.JNum 12); row "f" (Js.JNum 9);
                      row "j" (Js.JNum 8); row "c" (Js.JStr "7");
                      row "a" (Js.JNum 5); row "e" (Js.JNum 3);
                      row "l" (Js.JNum 2); row "g" (Js.JNum 1)]]))
    by (vm_compute; reflexivity).
  rewrite Hrun in Hrender. injection Hrender as Hcells Hp Hh.
  subst pieData h'. split; [exact Hrun|]. split; [reflexivity|exact Hsame].
Defined.

(** * Further properties of the code *)

(** ** lib/download.ts: escaping, CSV and clipboard text *)

Lemma length_append s t :
  String.length (s +:+ t) = (String.length s + String.length t)%nat.
Proof. induction s as [|c s IH]; [done|]. rewrite append_cons. simpl. lia. Qed.

Lemma append_cancel_r s s' t : s +:+ t = s' +:+ t → s = s'.
Proof.
  revert s'. induction s as [|c s IH]; intros [|c' s'] Heq; [done| | |].
  - apply (f_equal String.length) in Heq. rewrite !length_append in Heq.
    simpl in Heq. lia.
  - apply (f_equal String.length) in Heq. rewrite !length_append in Heq.
    simpl in Heq. lia.
  - rewrite !append_cons in Heq. injection Heq as -> Heq. f_equal. by apply IH.
Qed.

Lemma doubling_inj v w :
  Js.replace_all v Download.dquote
    (Download.str Download.dquote +:+ Download.str Download.dquote)
  = Js.replace_all w Download.dquote
      (Download.str Download.dquote +:+ Download.str Download.dquote)
  → v = w.
Proof.
  revert w. induction v as [|c v IH]; intros [|d w]; cbn [Js.replace_all].
  - done.
  - by destruct (Ascii.eqb d Download.dquote).
  - by destruct (Ascii.eqb c Download.dquote).
  - destruct (Ascii.eqb_spec c Download.dquote) as [->|Hc],
      (Ascii.eqb_spec d Download.dquote) as [->|Hd].
    + change (Download.str Download.dquote +:+ Download.str Download.dquote +:+ ?x)
        with (String Download.dquote (String Download.dquote x)).
      intros Heq. injection Heq as Heq. f_equal. by apply IH.
    + change (Download.str Download.dquote +:+ Download.str Download.dquote +:+ ?x)
        with (String Download.dquote (String Download.dquote x)).
      intros Heq. injection Heq as Heq _. by destruct Hd.
    + change (Download.str Download.dquote +:+ Download.str Download.dquote +:+ ?x)
        with (String Download.dquote (String Download.dquote x)).
      intros Heq. injection Heq as Heq _. by destruct Hc.
    + intros Heq. injection Heq as -> Heq. f_equal. by apply IH.
Qed.

Lemma escape_inj v w : Download.escape v = Download.escape w → v = w.
Proof.
  assert (Hmixed : ∀ a b, Download.plain a = true → Download.plain b = false →
                          Download.escape a ≠ Download.escape b).
  { intros a b Ha Hb Heq. rewrite (escape_plain a Ha) in Heq.
    unfold Download.escape in Heq. unfold Download.plain in Hb.
    apply negb_false_iff in Hb. rewrite Hb in Heq.
    change (Download.str Download.dquote +:+ ?x)
      with (String Download.dquote x) in Heq.
    subst a. apply plain_cons in Ha as (_ & Hq & _). discriminate Hq. }
  destruct (Download.plain v) eqn:Hv, (Download.plain w) eqn:Hw.
  - by rewrite !escape_plain.
  - intros Heq. by destruct (Hmixed v w).
  - intros Heq. by destruct (Hmixed w v).
  - unfold Download.escape. unfold Download.plain in Hv, Hw.
    apply negb_false_iff in Hv, Hw. rewrite Hv, Hw.
    change (Download.str Download.dquote +:+ ?x)
      with (String Download.dquote x).
    intros Heq. injection Heq as Heq.
    by apply append_cancel_r, doubling_inj in Heq.
Qed.

(** The quoting of [downloadCSV]: two different values are never written
    alike, and a value that is not empty and, if it has a carriage return,
    also has a comma, a double quote or a line feed, reads back as that
    value.  The empty value is written as the empty text, which holds no
    record; and a carriage return alone does not make [escape] quote: a
    value of two bare parts with a carriage return between them reads
    back as two records. *)
Theorem escape_reads_back (v w : string) :
  (Download.escape v = Download.escape w → v = w)
  ∧ (v ≠ EmptyString → Csv.safe v = true →
     Csv.parse (Download.escape v) = Some [[v]])
  ∧ Csv.parse (Download.escape EmptyString) = Some []
  ∧ (Csv.bare v = true → Csv.bare w = true →
     v ≠ EmptyString → w ≠ EmptyString →
     Csv.parse (Download.escape (v +:+ Download.str Csv.cr +:+ w))
     = Some [[v]; [w]]).
Proof.
  split; [apply escape_inj|]. split; [|split; [done|]].
  - intros Hne Hsafe. unfold Csv.parse.
    destruct (run_escape v Csv.start eq_refl eq_refl Hsafe)
      as (r' & Hrun & Hf & Hfs & Hrs & _ & _ & Hin).
    rewrite Hrun, finish_inside by by apply Hin.
    by rewrite Hf, Hfs, Hrs.
  - intros Hv Hw Hvne Hwne.
    assert (Hplain : Download.plain (v +:+ Download.str Csv.cr +:+ w) = true).
    { unfold Download.plain. rewrite !includes_app.
      apply bare_plain in Hv, Hw. unfold Download.plain in Hv, Hw.
      apply negb_true_iff in Hv, Hw.
      apply orb_false_iff in Hv as [[-> ->]%orb_false_iff ->].
      by apply orb_false_iff in Hw as [[-> ->]%orb_false_iff ->]. }
    rewrite escape_plain by done. unfold Csv.parse.
    destruct (run_plain v Csv.start Hv) as (r1 & Hrun1 & Hf1 & Hfs1 & Hrs1 & Hm1);
      [by left|].
    assert (Hin1 : Csv.inside r1 = true).
    { unfold Csv.inside. rewrite Hm1. by destruct v. }
    rewrite run_app, Hrun1. cbn [mbind option_bind].
    rewrite run_app, run_str, step_cr by done. cbn [mbind option_bind].
    destruct (run_plain w (Csv.endRecord Csv.AfterCR r1) Hw)
      as (r2 & Hrun2 & Hf2 & Hfs2 & Hrs2 & Hm2); [by left|].
    rewrite Hrun2. rewrite finish_inside
      by (unfold Csv.inside; rewrite Hm2; by destruct w).
    rewrite Hf2, Hfs2, Hrs2. simpl. by rewrite Hf1, Hfs1, Hrs1.
Qed.

Lemma escape_reads_back_witness :
  let v := "say " +:+ Download.str Download.dquote +:+ "hi"
           +:+ Download.str Download.dquote +:+ ", twice" in
  Download.escape v
  = Download.str Download.dquote +:+ "say "
    +:+ Download.str Download.dquote +:+ Download.str Download.dquote +:+ "hi"
    +:+ Download.str Download.dquote +:+ Download.str Download.dquote
    +:+ ", twice" +:+ Download.str Download.dquote
  ∧ v ≠ EmptyString
  ∧ Csv.safe v = true
  ∧ Csv.parse (Download.escape v) = Some [[v]]
  ∧ Csv.bare "Main St" = true
  ∧ Csv.bare "Apt 4" = true
  ∧ Csv.parse (Download.escape ("Main St" +:+ Download.str Csv.cr +:+ "Apt 4"))
    = Some [["Main St"]; ["Apt 4"]].
Proof.
  intros v.
  assert (Hne : v ≠ EmptyString) by discriminate.
  destruct (escape_reads_back v v) as (_ & Hback & _).
  destruct (escape_reads_back "Main St" "Apt 4") as (_ & _ & _ & Hcr).
  split; [reflexivity|]. split; [exact Hne|]. split; [reflexivity|].
  split; [exact (Hback Hne eq_refl)|]. split; [reflexivity|].
  split; [reflexivity|].
  apply Hcr; [reflexivity|reflexivity|discriminate|discriminate].
Defined.

Lemma downloadCSV_reads_back_witness :
  let nl := Download.str Download.newline in
  let data := [[("name", Js.JStr "Ada, Countess"); ("note", Js.JNull)];
               [("name", Js.JStr ("Bob" +:+ Download.str Csv.cr +:+ nl +:+ "Jr"));
                ("note", Js.JNum (-3))]] in
  Forall (fun h => Csv.bare h = true) ["name"; "note"]
  ∧ Forall (Forall (fun v => Csv.safe v = true)) (Csv.table data)
  ∧ Forall (fun row => Csv.visible row = true) (Csv.table data)
  ∧ (Download.downloadCSV data ≫= Csv.parse)
    = Some [["name"; "note"]; ["Ada, Countess"; EmptyString];
            ["Bob" +:+ Download.str Csv.cr +:+ nl +:+ "Jr"; "-3"]].
Proof.
  intros nl data.
  assert (Hbare : Forall (fun h => Csv.bare h = true) ["name"; "note"])
    by (repeat constructor).
  assert (Hsafe : Forall (Forall (fun v => Csv.safe v = true)) (Csv.table data))
    by (repeat constructor).
  assert (Hvis : Forall (fun row => Csv.visible row = true) (Csv.table data))
    by (repeat constructor).
  split; [exact Hbare|]. split; [exact Hsafe|]. split; [exact Hvis|].
  exact (downloadCSV_reads_back data _ _ eq_refl Hbare Hsafe Hvis).
Defined.

Section TsvFacts.

Lemma split_on_cons c s : ∃ p ps, Tsv.split_on c s = p :: ps.
Proof.
  induction s as [|d s (p & ps & IH)]; simpl; [by eexists _, _|].
  destruct (Ascii.eqb d c); [by eexists _, _|]. rewrite IH. by eexists _, _.
Qed.

Lemma split_on_clean c s :
  Js.includes_char s c = false → Tsv.split_on c s = [s].
Proof.
  induction s as [|d s IH]; simpl; [done|].
  intros [Hd Hs]%orb_false_iff. by rewrite Hd, IH.
Qed.

Lemma split_on_app c s t :
  Js.includes_char s c = false →
  Tsv.split_on c (s +:+ String c t) = s :: Tsv.split_on c t.
Proof.
  induction s as [|d s IH]; intros H.
  - change (EmptyString +:+ String c t) with (String c t).
    cbn [Tsv.split_on]. by rewrite Ascii.eqb_refl.
  - cbn [Js.includes_char] in H. apply orb_false_iff in H as [Hd Hs].
    rewrite append_cons. cbn [Tsv.split_on]. by rewrite Hd, IH.
Qed.

Lemma split_on_join c part parts :
  Forall (fun p => Js.includes_char p c = false) (part :: parts) →
  Tsv.split_on c (Js.join (Download.str c) (part :: parts)) = part :: parts.
Proof.
  revert part. induction parts as [|q parts IH]; intros part Hall.
  - apply Forall_cons in Hall as [Hp _]. by apply split_on_clean.
  - apply Forall_cons in Hall as [Hp Hall].
    rewrite join_cons.
    change (Download.str c +:+ ?x) with (String c x).
    rewrite split_on_app by done. by rewrite IH.
Qed.

Lemma includes_join sep parts c :
  Js.includes_char sep c = false →
  Forall (fun p => Js.includes_char p c = false) parts →
  Js.includes_char (Js.join sep parts) c = false.
Proof.
  intros Hsep. induction 1 as [|p parts Hp Hall IH]; [done|].
  destruct parts as [|q parts]; [done|].
  by rewrite join_cons, !includes_app, Hp, Hsep, IH.
Qed.

End TsvFacts.


Lemma cell_safe_spec s :
  cell_safe s = true →
  Js.includes_char s Download.tab = false
  ∧ Js.includes_char s Download.newline = false.
Proof. unfold cell_safe. rewrite negb_true_iff. by intros ?%orb_false_iff. Qed.

Lemma tsv_line_reads_back (row : list string) :
  row ≠ [] → Forall (fun s => cell_safe s = true) row →
  Tsv.split_on Download.tab (Js.join (Download.str Download.tab) row) = row
  ∧ Js.includes_char (Js.join (Download.str Download.tab) row) Download.newline
    = false.
Proof.
  intros Hne Hsafe. destruct row as [|cell cells]; [done|]. split.
  - apply split_on_join. eapply Forall_impl; [exact Hsafe|].
    intros s Hs. by apply cell_safe_spec in Hs as [? _].
  - apply includes_join; [done|]. eapply Forall_impl; [exact Hsafe|].
    intros s Hs. by apply cell_safe_spec in Hs as [_ ?].
Qed.

Lemma tsv_reads_back (tbl : list (list string)) :
  tbl ≠ [] →
  Forall (fun row => row ≠ [] ∧ Forall (fun s => cell_safe s = true) row) tbl →
  Tsv.read (Js.join (Download.str Download.newline)
              (map (Js.join (Download.str Download.tab)) tbl)) = tbl.
Proof.
  intros Hne Hall. unfold Tsv.read.
  destruct tbl as [|row rows]; [done|]. cbn [map].
  rewrite split_on_join.
  - change (map (Tsv.split_on Download.tab)
              (map (Js.join (Download.str Download.tab)) (row :: rows))
            = row :: rows).
    rewrite map_map. clear Hne.
    induction Hall as [|r rs [Hr Hsafe] _ IH]; [done|].
    cbn [map]. rewrite IH. f_equal. by apply tsv_line_reads_back.
  - change (Forall (fun p => Js.includes_char p Download.newline = false)
              (map (Js.join (Download.str Download.tab)) (row :: rows))).
    apply List.Forall_map. eapply Forall_impl; [exact Hall|].
    intros r [Hr Hsafe]. by apply tsv_line_reads_back.
Qed.

(** [copyToClipboard] writes nothing and returns false for an empty
    list.  Otherwise it writes once, and returns true exactly when the
    write is accepted.  When the first record has a key and no key and no
    string value has a tab or a line feed in it, the text splits back,
    at line feeds and tabs, into the header row and the string values of
    every record. *)
Theorem clipboard_text_reads_back
    (writeText : string → Eff.Outcome unit) (first : Js.Record)
    (rest : list Js.Record)
    (Hkeys : Js.keys first ≠ [])
    (Hheaders : Forall (fun h => cell_safe h = true) (Js.keys first))
    (Hvalues : Forall (fun row =>
                 Forall (fun h => cell_safe (Download.stringValue (Js.get row h))
                                  = true) (Js.keys first))
                 (first :: rest)) :
  Download.copyToClipboard writeText [] = ([], false)
  ∧ ∃ text,
      Download.clipboardText (first :: rest) = Some text
      ∧ Download.copyToClipboard writeText (first :: rest)
        = ([text], match writeText text with
                   | Eff.Ok _ => true
                   | Eff.Throw _ => false
                   end)
      ∧ Tsv.read text = Csv.table (first :: rest).
Proof.
  split; [done|]. eexists. split; [done|]. split.
  { unfold Download.copyToClipboard. cbn [Download.clipboardText].
    by destruct (writeText _). }
  set (headers := Js.keys first) in *.
  set (cells := fun row : Js.Record =>
                  map (fun h => Download.stringValue (Js.get row h)) headers).
  change (Csv.table (first :: rest)) with (headers :: map cells (first :: rest)).
  change (Tsv.read (Js.join (Download.str Download.newline)
                      (Js.join (Download.str Download.tab) headers
                       :: map (fun row => Js.join (Download.str Download.tab)
                                            (cells row)) (first :: rest)))
          = headers :: map cells (first :: rest)).
  rewrite <- (map_map cells (Js.join (Download.str Download.tab))).
  change (Tsv.read (Js.join (Download.str Download.newline)
                      (map (Js.join (Download.str Download.tab))
                           (headers :: map cells (first :: rest))))
          = headers :: map cells (first :: rest)).
  apply tsv_reads_back; [done|]. constructor; [done|].
  apply List.Forall_map. eapply Forall_impl; [exact Hvalues|].
  intros row Hrow. split.
  - unfold cells. by destruct headers.
  - unfold cells. by apply List.Forall_map.
Qed.

Lemma clipboard_text_reads_back_witness :
  Tsv.read ("name" +:+ Download.str Download.tab +:+ "v"
            +:+ Download.str Download.newline
            +:+ "b" +:+ Download.str Download.tab +:+ "2"
            +:+ Download.str Download.newline
            +:+ "a" +:+ Download.str Download.tab +:+ "1")
  = Csv.table Sample.rows
  ∧ Download.copyToClipboard (fun _ => Eff.Ok tt) Sample.rows
    = (["name" +:+ Download.str Download.tab +:+ "v"
        +:+ Download.str Download.newline
        +:+ "b" +:+ Download.str Download.tab +:+ "2"
        +:+ Download.str Download.newline
        +:+ "a" +:+ Download.str Download.tab +:+ "1"], true).
Proof.
  destruct (clipboard_text_reads_back (fun _ => Eff.Ok tt)
              [("name", Js.JStr "b"); ("v", Js.JNum 2)]
              [[("name", Js.JStr "a"); ("v", Js.JNum 1)]]
              ltac:(discriminate)
              ltac:(repeat constructor) ltac:(repeat constructor))
    as (_ & text & Htext & Hcopy & Hread).
  vm_compute in Htext. injection Htext as <-.
  split; [exact Hread|exact Hcopy].
Defined.

(** ** The submit handlers of QueryInput, DataEditor and ChartDisplay *)

(** A submission with no text but white space, or while a request is in
    flight, does nothing at all: no request, no state change, no
    exception, in all three handlers. *)
Theorem blank_or_busy_submission_does_nothing
    (srv : World.Server) (w : World.World)
    (qprops : QueryInput.Props) (qst : QueryInput.State)
    (mprops : DataEditor.Props) (mst : DataEditor.State)
    (cprops : ChartDisplay.Props) (cst : ChartDisplay.State) :
  (submits (QueryInput.query qst) (QueryInput.loading qst) = false →
   QueryInput.handleSubmit srv qprops (qst, w) = (Eff.Ok tt, (qst, w)))
  ∧ (submits (DataEditor.command mst) (DataEditor.loading mst) = false →
     DataEditor.handleModify srv mprops (mst, w) = (Eff.Ok tt, (mst, w)))
  ∧ (submits (ChartDisplay.query cst) (ChartDisplay.loading cst) = false →
     ChartDisplay.handleGenerate srv cprops (cst, w) = (Eff.Ok tt, (cst, w))).
Proof.
  unfold submits. repeat split; intros Hg.
  - unfold QueryInput.handleSubmit. run_eff.
    destruct (Js.truthy _), (QueryInput.loading qst); simpl in *; congruence.
  - unfold DataEditor.handleModify. run_eff.
    destruct (Js.truthy _), (DataEditor.loading mst); simpl in *; congruence.
  - unfold ChartDisplay.handleGenerate. run_eff.
    destruct (Js.truthy _), (ChartDisplay.loading cst); simpl in *; congruence.
Qed.

Lemma blank_or_busy_submission_does_nothing_witness :
  let qprops := {| QueryInput.datasetId := "d1"; QueryInput.suggestions := [];
                   QueryInput.model := None; QueryInput.onQueryResult := None |} in
  let qst := {| QueryInput.query := "   "; QueryInput.loading := false;
                QueryInput.result := None; QueryInput.showCode := false;
                QueryInput.history := ["rows?"] |} in
  submits (QueryInput.query qst) (QueryInput.loading qst) = false
  ∧ QueryInput.handleSubmit Sample.server qprops (qst, Sample.world0)
    = (Eff.Ok tt, (qst, Sample.world0)).
Proof.
  intros qprops qst. split; [reflexivity|].
  exact (proj1 (blank_or_busy_submission_does_nothing Sample.server Sample.world0
                  qprops qst
                  {| DataEditor.datasetId := "d1";
                     DataEditor.onModifySuccess := None;
                     DataEditor.model := None |}
                  {| DataEditor.command := EmptyString;
                     DataEditor.loading := false; DataEditor.result := None |}
                  {| ChartDisplay.datasetId := "d1"; ChartDisplay.model := None |}
                  {| ChartDisplay.query := EmptyString;
                     ChartDisplay.loading := true;
                     ChartDisplay.chartData := None;
                     ChartDisplay.error := None |}) eq_refl).
Defined.

Ltac split_guard H :=
  unfold submits in H; apply andb_true_iff in H as [?Hq ?Hl];
  apply negb_true_iff in Hl.

(** A submission that passes the guard sends exactly one request, with
    the text trimmed and the selected model, and leaves [loading] false
    whether the request succeeds or not. *)
Theorem submission_sends_one_request
    (srv : World.Server) (w : World.World)
    (qprops : QueryInput.Props) (qst : QueryInput.State)
    (mprops : DataEditor.Props) (mst : DataEditor.State)
    (cprops : ChartDisplay.Props) (cst : ChartDisplay.State) :
  (submits (QueryInput.query qst) (QueryInput.loading qst) = true →
   let after := (QueryInput.handleSubmit srv qprops (qst, w)).2 in
   World.requests after.2
   = World.requests w
     ++ [Api.PostQuery (QueryInput.datasetId qprops)
           (Js.trim (QueryInput.query qst)) (QueryInput.model qprops)]
   ∧ QueryInput.loading after.1 = false)
  ∧ (submits (DataEditor.command mst) (DataEditor.loading mst) = true →
     let after := (DataEditor.handleModify srv mprops (mst, w)).2 in
     World.requests after.2
     = World.requests w
       ++ [Api.PostModify (DataEditor.datasetId mprops)
             (Js.trim (DataEditor.command mst)) (DataEditor.model mprops)]
     ∧ DataEditor.loading after.1 = false)
  ∧ (submits (ChartDisplay.query cst) (ChartDisplay.loading cst) = true →
     let after := (ChartDisplay.handleGenerate srv cprops (cst, w)).2 in
     World.requests after.2
     = World.requests w
       ++ [Api.PostChart (ChartDisplay.datasetId cprops)
             (Js.trim (ChartDisplay.query cst)) (ChartDisplay.model cprops)]
     ∧ ChartDisplay.loading after.1 = false).
Proof.
  split; [|split]; intros Hg; split_guard Hg; cbv zeta; split.
  - unfold QueryInput.handleSubmit. run_eff. rewrite Hq, Hl. simpl.
    destruct (World.on_query srv _ _ _ _) as [[r|e] st1]; simpl;
      [|by rewrite Facts.requests_record_sent].
    destruct (QueryInput.onQueryResult qprops) as [cb|]; simpl;
      [|by rewrite Facts.requests_record_sent].
    destruct (cb r) as [[]|e]; simpl;
      by rewrite Facts.requests_record_called, Facts.requests_record_sent.
  - unfold QueryInput.handleSubmit. run_eff. rewrite Hq, Hl. simpl.
    destruct (World.on_query srv _ _ _ _) as [[r|e] st1]; simpl; [|done].
    destruct (QueryInput.onQueryResult qprops) as [cb|]; simpl; [|done].
    by destruct (cb r) as [[]|e].
  - unfold DataEditor.handleModify. run_eff. rewrite Hq, Hl. simpl.
    destruct (World.on_modify srv _ _ _ _) as [[r|e] st1]; simpl;
      [|by rewrite Facts.requests_record_sent].
    destruct (Api.success r); simpl; [|by rewrite Facts.requests_record_sent].
    destruct (DataEditor.onModifySuccess mprops) as [cb|]; simpl;
      [|by rewrite Facts.requests_record_sent].
    destruct (cb tt) as [[]|e]; simpl;
      by rewrite Facts.requests_record_called, Facts.requests_record_sent.
  - unfold DataEditor.handleModify. run_eff. rewrite Hq, Hl. simpl.
    destruct (World.on_modify srv _ _ _ _) as [[r|e] st1]; simpl; [|done].
    destruct (Api.success r); simpl; [|done].
    destruct (DataEditor.onModifySuccess mprops) as [cb|]; simpl; [|done].
    by destruct (cb tt) as [[]|e].
  - unfold ChartDisplay.handleGenerate. run_eff. rewrite Hq, Hl. simpl.
    destruct (World.on_chart srv _ _ _ _) as [[r|e] st1]; simpl;
      [|by rewrite Facts.requests_record_sent].
    destruct (Api.chart_success r); simpl;
      by rewrite Facts.requests_record_sent.
  - unfold ChartDisplay.handleGenerate. run_eff. rewrite Hq, Hl. simpl.
    destruct (World.on_chart srv _ _ _ _) as [[r|e] st1]; simpl; [|done].
    by destruct (Api.chart_success r).
Qed.

Lemma submission_sends_one_request_witness :
  let cprops := {| ChartDisplay.datasetId := "d1"; ChartDisplay.model := Some "groq" |} in
  let cst := {| ChartDisplay.query := "  pie of v  "; ChartDisplay.loading := false;
                ChartDisplay.chartData := None; ChartDisplay.error := None |} in
  submits (ChartDisplay.query cst) (ChartDisplay.loading cst) = true
  ∧ World.requests
      (ChartDisplay.handleGenerate Sample.server cprops (cst, Sample.world0)).2.2
    = [Api.PostChart "d1" "pie of v" (Some "groq")].
Proof.
  intros cprops cst. split; [reflexivity|].
  exact (proj1 (proj2 (proj2 (submission_sends_one_request Sample.server
           Sample.world0
           {| QueryInput.datasetId := "d1"; QueryInput.suggestions := [];
              QueryInput.model := None; QueryInput.onQueryResult := None |}
           {| QueryInput.query := "q"; QueryInput.loading := false;
              QueryInput.result := None; QueryInput.showCode := false;
              QueryInput.history := [] |}
           {| DataEditor.datasetId := "d1"; DataEditor.onModifySuccess := None;
              DataEditor.model := None |}
           {| DataEditor.command := "c"; DataEditor.loading := false;
              DataEditor.result := None |}
           cprops cst)) eq_refl)).
Defined.

(** The list the history becomes after a query [q]. *)
Lemma history_update (q : string) (prev : list string) :
  let h := take 10 (q :: filter (fun x => x ≠ q) prev) in
  head h = Some q
  ∧ (length h ≤ 10)%nat
  ∧ (NoDup prev → NoDup h)
  ∧ ∀ x, x ∈ h → x = q ∨ x ∈ prev.
Proof.
  intros h. subst h. split; [done|].
  split; [rewrite length_take; lia|]. split.
  - intros Hnd. eapply sublist_NoDup; [|apply sublist_take].
    apply NoDup_cons. split; [|by apply NoDup_filter].
    intros [Hne _]%list_elem_of_filter. done.
  - intros x Hx. apply elem_of_take in Hx as (i & Hi & _).
    apply list_elem_of_lookup_2 in Hi.
    apply elem_of_cons in Hi as [->|[_ Hin]%list_elem_of_filter]; auto.
Qed.

(** After a query that succeeds, the trimmed query text is the first
    entry of the history, at most 10 entries are kept, an entry is never
    listed twice if none was before, and nothing else is added.  A query
    that fails leaves the history as it was. *)
Theorem history_keeps_recent_queries
    (srv : World.Server) (props : QueryInput.Props)
    (st : QueryInput.State) (w : World.World)
    (Hsubmit : submits (QueryInput.query st) (QueryInput.loading st) = true) :
  let st' := (QueryInput.handleSubmit srv props (st, w)).2.1 in
  let q := Js.trim (QueryInput.query st) in
  ((∃ e, query_fails srv props st w e) →
   QueryInput.history st' = QueryInput.history st)
  ∧ ((∀ e, ¬ query_fails srv props st w e) →
     QueryInput.history st'
     = take 10 (q :: filter (fun x => x ≠ q) (QueryInput.history st))
     ∧ head (QueryInput.history st') = Some q
     ∧ (length (QueryInput.history st') ≤ 10)%nat
     ∧ (NoDup (QueryInput.history st) → NoDup (QueryInput.history st'))
     ∧ ∀ x, x ∈ QueryInput.history st' → x = q ∨ x ∈ QueryInput.history st).
Proof.
  split_guard Hsubmit. unfold query_fails.
  unfold QueryInput.handleSubmit. run_eff. rewrite Hq, Hl. simpl.
  destruct (World.on_query srv _ _ _ _) as [[r|e] st1]; simpl.
  - destruct (QueryInput.onQueryResult props) as [cb|]; simpl.
    + destruct (cb r) as [[]|e] eqn:Hcb; simpl.
      * split; [intros (e & [?|(r' & cb' & ? & ? & ?)]); simplify_eq; congruence|].
        intros _. split; [done|]. apply history_update.
      * split; [done|]. intros Hno. destruct (Hno e). right. by exists r, cb.
    + split; [intros (e & [?|(r' & cb' & ? & ? & ?)]); simplify_eq|].
      intros _. split; [done|]. apply history_update.
  - split; [done|]. intros Hno. destruct (Hno e). by left.
Qed.

Lemma history_keeps_recent_queries_witness :
  let props := {| QueryInput.datasetId := "d1"; QueryInput.suggestions := [];
                  QueryInput.model := None; QueryInput.onQueryResult := None |} in
  let st := {| QueryInput.query := " rows? "; QueryInput.loading := false;
               QueryInput.result := None; QueryInput.showCode := false;
               QueryInput.history := ["mean of v"; "rows?"] |} in
  submits (QueryInput.query st) (QueryInput.loading st) = true
  ∧ (∃ e, query_fails Sample.server props st Sample.world0 e)
  ∧ QueryInput.history
      (QueryInput.handleSubmit Sample.server props (st, Sample.world0)).2.1
    = ["mean of v"; "rows?"].
Proof.
  intros props st.
  assert (Hfails : ∃ e, query_fails Sample.server props st Sample.world0 e)
    by (exists (Js.ErrorObj "Network Error"); left; reflexivity).
  split; [reflexivity|]. split; [exact Hfails|].
  exact (proj1 (history_keeps_recent_queries Sample.server props st
                  Sample.world0 eq_refl) Hfails).
Defined.

(** A rejected query is shown to the user: after the submission
    [renderResult] is the error box with the error's message. *)
Theorem rejected_query_renders_error
    (srv : World.Server) (props : QueryInput.Props)
    (st : QueryInput.State) (w : World.World) (e : Js.Thrown)
    (Hsubmit : submits (QueryInput.query st) (QueryInput.loading st) = true)
    (Hfails : query_fails srv props st w e) :
  QueryInput.renderResult
    (QueryInput.result (QueryInput.handleSubmit srv props (st, w)).2.1)
  = QueryInput.ErrorBox (Js.message_or e "Query failed").
Proof.
  destruct (handleSubmit_result srv props st w Hsubmit) as (_ & _ & Hres).
  cbv zeta in Hres. by rewrite (Hres e Hfails).
Qed.

Lemma rejected_query_renders_error_witness :
  let props := {| QueryInput.datasetId := "d1"; QueryInput.suggestions := [];
                  QueryInput.model := None; QueryInput.onQueryResult := None |} in
  let st := {| QueryInput.query := "rows?"; QueryInput.loading := false;
               QueryInput.result := None; QueryInput.showCode := false;
               QueryInput.history := [] |} in
  QueryInput.renderResult
    (QueryInput.result
       (QueryInput.handleSubmit Sample.server props (st, Sample.world0)).2.1)
  = QueryInput.ErrorBox "Network Error".
Proof.
  intros props st.
  exact (rejected_query_renders_error Sample.server props st Sample.world0
           (Js.ErrorObj "Network Error") eq_refl (or_introl eq_refl)).
Defined.

(** ** ChartDisplay: the outcomes of a chart request *)

(** A chart request that passes the guard and is answered with success
    true stores the response: it is the chart shown, and no error box is
    shown, whatever error an earlier request left.  A rejected request
    keeps the chart state and sets the error to the error's message
    ("Failed to generate chart" when what was thrown is no Error), which
    the error box shows unless it is empty. *)
Theorem chart_request_outcomes
    (srv : World.Server) (props : ChartDisplay.Props)
    (st : ChartDisplay.State) (w : World.World)
    (Hsubmit : submits (ChartDisplay.query st) (ChartDisplay.loading st) = true) :
  let answer := (World.on_chart srv (ChartDisplay.datasetId props)
                   (Js.trim (ChartDisplay.query st)) (ChartDisplay.model props)
                   (World.store w)).1 in
  let st' := (ChartDisplay.handleGenerate srv props (st, w)).2.1 in
  let view := ChartDisplay.render st' in
  (∀ r, answer = Eff.Ok r → Api.chart_success r = true →
        ChartDisplay.chartData st' = Some r
        ∧ ChartDisplay.chart_card view = Some r
        ∧ ChartDisplay.error_box view = None)
  ∧ (∀ e, answer = Eff.Throw e →
          let msg := Js.message_or e "Failed to generate chart" in
          ChartDisplay.chartData st' = ChartDisplay.chartData st
          ∧ ChartDisplay.error st' = Some msg
          ∧ (Js.truthy msg = true → ChartDisplay.error_box view = Some msg)).
Proof.
  split_guard Hsubmit.
  unfold ChartDisplay.handleGenerate. run_eff. rewrite Hq, Hl. simpl.
  destruct (World.on_chart srv _ _ _ _) as [[r|e] st1]; simpl.
  - split; [|done]. intros r' ? Hs. simplify_eq. rewrite Hs. simpl.
    unfold ChartDisplay.render. simpl. by rewrite Hs.
  - split; [done|]. intros e' ?. simplify_eq. repeat split.
    intros Hm. unfold ChartDisplay.render. simpl. by rewrite Hm.
Qed.

Lemma chart_request_outcomes_witness :
  let props := {| ChartDisplay.datasetId := "d1"; ChartDisplay.model := None |} in
  let st := {| ChartDisplay.query := "bars"; ChartDisplay.loading := false;
               ChartDisplay.chartData := None;
               ChartDisplay.error := Some "Column not found: region" |} in
  let good := {| Api.chart_success := true; Api.config := Backend.default_config;
                 Api.chart_data := Sample.rows; Api.chart_explanation := "ok";
                 Api.error := None |} in
  let srv := {| World.on_upload := World.on_upload Sample.server;
                World.on_get_dataset := World.on_get_dataset Sample.server;
                World.on_query := World.on_query Sample.server;
                World.on_chart := fun _ _ _ s => (Eff.Ok good, s);
                World.on_modify := World.on_modify Sample.server;
                World.on_cell := World.on_cell Sample.server |} in
  let view := ChartDisplay.render
                (ChartDisplay.handleGenerate srv props (st, Sample.world0)).2.1 in
  submits (ChartDisplay.query st) (ChartDisplay.loading st) = true
  ∧ ChartDisplay.chart_card view = Some good
  ∧ ChartDisplay.error_box view = None.
Proof.
  intros props st good srv view.
  destruct (proj1 (chart_request_outcomes srv props st Sample.world0 eq_refl)
              good eq_refl eq_refl) as (_ & Hcard & Hbox).
  split; [reflexivity|]. split; [exact Hcard|exact Hbox].
Defined.

(** ** ChartDisplay: what [renderChart] does to the data *)

(** For every chart type but pie, [renderChart] allocates nothing and
    changes no array, and a chart it returns is drawn from the very array
    held in the component's state, not from a copy. *)
Theorem renderChart_shares_data
    (S2N : string → option Z) (h : Heap.Heap) (chart : ChartDisplay.Chart)
    (Hkind : ChartDisplay.chart_type chart ≠ "pie") :
  (ChartDisplay.renderChart S2N (Some chart) h).2 = h
  ∧ ∀ el d, (ChartDisplay.renderChart S2N (Some chart) h).1 = Eff.Ok el →
            element_data el = Some d → d = ChartDisplay.data chart.
Proof.
  unfold ChartDisplay.renderChart. run_eff.
  destruct (Heap.deref h (ChartDisplay.data chart)) as [|first rest];
    [split; [done|]; intros el d ? Hd; by simplify_eq/=|].
  apply String.eqb_neq in Hkind. rewrite Hkind.
  repeat (destruct (String.eqb (ChartDisplay.chart_type chart) _);
          [split; [done|]; intros el d ? Hd; by simplify_eq/=|]).
  split; [done|]. intros el d ? Hd. by simplify_eq/=.
Qed.

Lemma renderChart_shares_data_witness :
  let chart := {| ChartDisplay.chart_type := "line";
                  ChartDisplay.x_axis := None; ChartDisplay.y_axis := None;
                  ChartDisplay.data := 0%nat |} in
  ChartDisplay.chart_type chart ≠ "pie"
  ∧ ChartDisplay.renderChart Sample.StringToNumber (Some chart) [Sample.rows]
    = (Eff.Ok (ChartDisplay.LineChart 0%nat (Some "name") "v"), [Sample.rows]).
Proof.
  intros chart.
  assert (Hkind : ChartDisplay.chart_type chart ≠ "pie") by discriminate.
  destruct (renderChart_shares_data Sample.StringToNumber [Sample.rows] chart Hkind)
    as [Hheap _].
  split; [exact Hkind|].
  destruct (ChartDisplay.renderChart _ _ _) as [out h'] eqn:Hr.
  simpl in Hheap. subst h'. vm_compute in Hr. by simplify_eq.
Defined.

Lemma renderChart_element S2N (h : Heap.Heap) chart first rest el :
  Heap.deref h (ChartDisplay.data chart) = first :: rest →
  (ChartDisplay.renderChart S2N (Some chart) h).1 = Eff.Ok el →
  let xKey := ChartDisplay.or_key (ChartDisplay.x_axis chart)
                (Js.keys first !! 0%nat) in
  let yKey := ChartDisplay.or_else
                (ChartDisplay.or_key (ChartDisplay.y_axis chart)
                   (Js.keys first !! 1%nat)) "count" in
  let d := ChartDisplay.data chart in
  let t := ChartDisplay.chart_type chart in
  let sorted := Js.sort_by (ChartDisplay.pie_cmp S2N yKey) (first :: rest) in
  (t = "bar"
   ∧ el = ChartDisplay.BarChart d xKey yKey
            (ChartDisplay.cells (length (first :: rest)))
   ∧ (ChartDisplay.renderChart S2N (Some chart) h).2 = h)
  ∨ (t = "pie"
     ∧ el = ChartDisplay.PieChart (S (length h)) xKey yKey
              (ChartDisplay.cells (length (take 10 sorted)))
     ∧ (ChartDisplay.renderChart S2N (Some chart) h).2
       = h ++ [sorted; take 10 sorted])
  ∨ (el = ChartDisplay.LineChart d xKey yKey
     ∨ el = ChartDisplay.ScatterChart d xKey yKey
     ∨ el = ChartDisplay.AreaChart d xKey yKey
     ∨ el = ChartDisplay.Unsupported t).
Proof.
  intros Hd Hrender xKey yKey d t sorted.
  destruct (decide (ChartDisplay.chart_type chart = "pie")) as [Hpie|Hpie].
  - rewrite (renderChart_pie S2N h chart first rest Hpie Hd) in Hrender |- *.
    simpl in Hrender. simplify_eq. right. left. done.
  - revert Hrender. unfold ChartDisplay.renderChart. run_eff. rewrite Hd.
    fold xKey yKey d t.
    apply String.eqb_neq in Hpie. fold t in Hpie. rewrite Hpie.
    destruct (String.eqb_spec t "bar") as [Hbar|_];
      [simpl; intros ?; simplify_eq; left; done|].
    destruct (String.eqb t "line");
      [simpl; intros ?; simplify_eq; right; right; auto|].
    destruct (String.eqb t "scatter");
      [simpl; intros ?; simplify_eq; right; right; auto|].
    destruct (String.eqb t "area");
      [simpl; intros ?; simplify_eq; right; right; auto|].
    simpl. intros ?. simplify_eq. right. right. auto.
Qed.

(** The key the values of a chart are read under is the configured y
    axis when that is not empty, else the second key of the first record
    when that is not empty, else "count"; so it is never the empty
    string. *)
Theorem chart_data_key_never_empty
    (S2N : string → option Z) (h : Heap.Heap)
    (chartData : option ChartDisplay.Chart) (el : ChartDisplay.Element)
    (y : string)
    (Hrender : (ChartDisplay.renderChart S2N chartData h).1 = Eff.Ok el)
    (Hkey : element_yKey el = Some y) :
  ∃ chart first rest,
    chartData = Some chart
    ∧ Heap.deref h (ChartDisplay.data chart) = first :: rest
    ∧ y ≠ EmptyString
    ∧ (∀ k, ChartDisplay.y_axis chart = Some k → k ≠ EmptyString → y = k)
    ∧ (ChartDisplay.y_axis chart = None
       ∨ ChartDisplay.y_axis chart = Some EmptyString →
       (∀ k, Js.keys first !! 1%nat = Some k → k ≠ EmptyString → y = k)
       ∧ (Js.keys first !! 1%nat = None
          ∨ Js.keys first !! 1%nat = Some EmptyString → y = "count")).
Proof.
  destruct chartData as [chart|]; [|simpl in Hrender; by simplify_eq].
  destruct (Heap.deref h (ChartDisplay.data chart)) as [|first rest] eqn:Hd.
  { rewrite renderChart_empty in Hrender by done. simpl in Hrender.
    by simplify_eq. }
  exists chart, first, rest. split; [done|]. split; [done|].
  assert (Hy : y = ChartDisplay.or_else
                     (ChartDisplay.or_key (ChartDisplay.y_axis chart)
                        (Js.keys first !! 1%nat)) "count").
  { destruct (renderChart_element S2N h chart first rest el Hd Hrender)
      as [(_ & -> & _)|[(_ & -> & _)|[-> |[-> |[-> | ->]]]]];
      simpl in Hkey; by simplify_eq. }
  split; [|split; [|intros Hnone; split]].
  - rewrite Hy. intros Hempty.
    pose proof (or_else_truthy
                  (ChartDisplay.or_key (ChartDisplay.y_axis chart)
                     (Js.keys first !! 1%nat)) "count" eq_refl) as Ht.
    by rewrite Hempty in Ht.
  - intros k Hk Hne. rewrite Hy, Hk. by destruct k.
  - intros k Hk Hne. rewrite Hy, Hk.
    destruct Hnone as [-> | ->]; by destruct k.
  - intros Hsecond. rewrite Hy.
    destruct Hnone as [-> | ->], Hsecond as [-> | ->]; done.
Qed.

Lemma chart_data_key_never_empty_witness :
  let rows := [[("region", Js.JStr "north"); ("units", Js.JNum 3);
                ("sales", Js.JNum 40)]] in
  let chart := fun y => {| ChartDisplay.chart_type := "bar";
                           ChartDisplay.x_axis := None;
                           ChartDisplay.y_axis := y;
                           ChartDisplay.data := 0%nat |} in
  (ChartDisplay.renderChart Sample.StringToNumber (Some (chart (Some "sales")))
     [rows]).1
  = Eff.Ok (ChartDisplay.BarChart 0%nat (Some "region") "sales" ["#8b5cf6"])
  ∧ (ChartDisplay.renderChart Sample.StringToNumber
       (Some (chart (Some EmptyString))) [rows]).1
    = Eff.Ok (ChartDisplay.BarChart 0%nat (Some "region") "units" ["#8b5cf6"])
  ∧ (ChartDisplay.renderChart Sample.StringToNumber (Some (chart None))
       [[[("region", Js.JStr "north")]]]).1
    = Eff.Ok (ChartDisplay.BarChart 0%nat (Some "region") "count" ["#8b5cf6"])
  ∧ "sales" ≠ EmptyString.
Proof.
  intros rows chart.
  assert (Hr : (ChartDisplay.renderChart Sample.StringToNumber
                  (Some (chart (Some "sales"))) [rows]).1
               = Eff.Ok (ChartDisplay.BarChart 0%nat (Some "region") "sales"
                           ["#8b5cf6"])) by reflexivity.
  split; [exact Hr|]. split; [reflexivity|]. split; [reflexivity|].
  destruct (chart_data_key_never_empty _ _ _ _ "sales" Hr eq_refl)
    as (c & first & rest & _ & _ & Hne & _).
  exact Hne.
Defined.

Lemma lookup_map {A B} (f : A → B) (l : list A) (i : nat) :
  map f l !! i = f <$> l !! i.
Proof. revert i. induction l as [|x l IH]; intros [|i]; simpl; auto. Qed.

Lemma cells_lookup (n j : nat) :
  (j < n)%nat →
  ChartDisplay.cells n !! j
  = Some (default EmptyString (ChartDisplay.COLORS !! (j mod 8)%nat)).
Proof.
  intros Hj. unfold ChartDisplay.cells.
  by rewrite lookup_map, lookup_seq_lt.
Qed.

Lemma cells_length (n : nat) : length (ChartDisplay.cells n) = n.
Proof. unfold ChartDisplay.cells. by rewrite length_map, length_seq. Qed.

Lemma cells_colors (n i : nat) :
  (i < n)%nat →
  ChartDisplay.cells n !! i
  = ["#8b5cf6"; "#06b6d4"; "#f59e0b"; "#ef4444";
     "#10b981"; "#f97316"; "#ec4899"; "#6366f1"] !! (i mod 8)%nat.
Proof.
  intros Hi. rewrite cells_lookup by done.
  assert (Hm : (i mod 8 < 8)%nat) by (apply Nat.mod_upper_bound; lia).
  change ["#8b5cf6"; "#06b6d4"; "#f59e0b"; "#ef4444";
          "#10b981"; "#f97316"; "#ec4899"; "#6366f1"] with ChartDisplay.COLORS.
  destruct (lookup_lt_is_Some_2 ChartDisplay.COLORS (i mod 8)) as [color Hc];
    [exact Hm|].
  by rewrite Hc.
Qed.

(** Only bar and pie charts have cells.  A chart that has them has one
    cell for every record of the array it is drawn from (the data of a
    bar chart, the slices of a pie chart), and the cells are coloured in
    the order of COLORS, starting over after the eighth: cell [i] has the
    colour at index [i mod 8]. *)
Theorem cells_cycle_through_colors
    (S2N : string → option Z) (h : Heap.Heap) (chart : ChartDisplay.Chart)
    (el : ChartDisplay.Element) (cs : list string)
    (Hrender : (ChartDisplay.renderChart S2N (Some chart) h).1 = Eff.Ok el)
    (Hcells : element_cells el = Some cs) :
  let h' := (ChartDisplay.renderChart S2N (Some chart) h).2 in
  let rows := Heap.deref h (ChartDisplay.data chart) in
  (ChartDisplay.chart_type chart = "bar" ∧ length cs = length rows
   ∨ ChartDisplay.chart_type chart = "pie"
     ∧ length cs = min 10 (length rows))
  ∧ (∃ d, element_data el = Some d ∧ length cs = length (Heap.deref h' d))
  ∧ (∀ i, (i < length cs)%nat →
          cs !! i
          = ["#8b5cf6"; "#06b6d4"; "#f59e0b"; "#ef4444";
             "#10b981"; "#f97316"; "#ec4899"; "#6366f1"] !! (i mod 8)%nat).
Proof.
  intros h' rows. subst h' rows.
  destruct (Heap.deref h (ChartDisplay.data chart)) as [|first rest] eqn:Hd.
  { rewrite renderChart_empty in Hrender by done. simpl in Hrender.
    by simplify_eq. }
  pose proof (deref_cons_lookup _ _ _ _ Hd) as Hlook.
  destruct (renderChart_element S2N h chart first rest el Hd Hrender)
    as [(Ht & -> & Hh)|[(Ht & -> & Hh)|[-> |[-> |[-> | ->]]]]];
    simpl in Hcells; simplify_eq.
  - rewrite Hh, cells_length. split; [by left|]. split.
    + eexists. split; [done|]. by rewrite Hd.
    + intros i Hi. by apply cells_colors.
  - rewrite Hh, cells_length.
    set (sorted := Js.sort_by _ (first :: rest)).
    assert (Hlen : length (take 10 sorted) = min 10 (length (first :: rest))).
    { rewrite length_take. unfold sorted.
      by rewrite (Permutation_length (sort_by_perm _ (first :: rest))). }
    split; [by right|]. split.
    + eexists. split; [done|]. unfold Heap.deref.
      rewrite lookup_app_r by lia.
      by replace (S (length h) - length h)%nat with 1%nat by lia.
    + intros i Hi. by apply cells_colors.
Qed.

Lemma cells_cycle_through_colors_witness :
  let rows := replicate 9 [("region", Js.JStr "north")] in
  let chart := {| ChartDisplay.chart_type := "bar";
                  ChartDisplay.x_axis := None; ChartDisplay.y_axis := None;
                  ChartDisplay.data := 0%nat |} in
  (ChartDisplay.renderChart Sample.StringToNumber (Some chart) [rows]).1
  = Eff.Ok (ChartDisplay.BarChart 0%nat (Some "region") "count"
              ["#8b5cf6"; "#06b6d4"; "#f59e0b"; "#ef4444"; "#10b981";
               "#f97316"; "#ec4899"; "#6366f1"; "#8b5cf6"])
  ∧ length (ChartDisplay.cells 9) = 9%nat
  ∧ ChartDisplay.cells 9 !! 8%nat = Some "#8b5cf6".
Proof.
  intros rows chart.
  assert (Hr : (ChartDisplay.renderChart Sample.StringToNumber (Some chart)
                  [rows]).1
               = Eff.Ok (ChartDisplay.BarChart 0%nat (Some "region") "count"
                           (ChartDisplay.cells 9))) by reflexivity.
  destruct (cells_cycle_through_colors Sample.StringToNumber [rows] chart _
              (ChartDisplay.cells 9) Hr eq_refl)
    as ([[_ Hlen]|[Hpie _]] & _ & Hcolor); [|discriminate Hpie].
  split; [exact Hr|]. split; [exact Hlen|].
  assert (Hlt : (8 < length (ChartDisplay.cells 9))%nat)
    by (rewrite Hlen; repeat constructor).
  exact (Hcolor 8%nat Hlt).
Defined.

(** ** DataTable: sorting and editing *)

Lemma insert_by_ext {A} (cmp cmp' : A → A → Z) x l :
  (∀ y, y ∈ l → cmp x y = cmp' x y) →
  Js.insert_by cmp x l = Js.insert_by cmp' x l.
Proof.
  induction l as [|y l IH]; intros Heq; simpl; [done|].
  rewrite <- (Heq y) by apply list_elem_of_here.
  destruct (cmp x y <=? 0); [done|]. f_equal. apply IH.
  intros z Hz. apply Heq. by apply list_elem_of_further.
Qed.

Lemma sort_by_ext {A} (cmp cmp' : A → A → Z) l :
  (∀ x y, x ∈ l → y ∈ l → cmp x y = cmp' x y) →
  Js.sort_by cmp l = Js.sort_by cmp' l.
Proof.
  induction l as [|x l IH]; intros Heq; simpl; [done|].
  rewrite <- IH.
  - apply insert_by_ext. intros y Hy. apply Heq; [apply list_elem_of_here|].
    apply list_elem_of_further. by rewrite <- (sort_by_perm cmp l).
  - intros a b Ha Hb. apply Heq; by apply list_elem_of_further.
Qed.

Lemma StronglySorted_weaken {A} (R R' : A → A → Prop) l :
  (∀ a b, R a b → R' a b) → StronglySorted R l → StronglySorted R' l.
Proof.
  intros Himp. induction 1 as [|x l Hl IH Hx]; constructor; [done|].
  eapply Forall_impl; [exact Hx|]. auto.
Qed.

(** Sorting never loses, adds or duplicates a row: in every state the
    rows shown are a rearrangement of the rows given. *)
Theorem sortedData_is_permutation
    (localeCompare : string → string → Z) (props : DataTable.Props)
    (s : DataTable.State) :
  DataTable.sortedData localeCompare props s ≡ₚ DataTable.data props
  ∧ length (DataTable.sortedData localeCompare props s)
    = length (DataTable.data props).
Proof.
  assert (H : DataTable.sortedData localeCompare props s ≡ₚ DataTable.data props).
  { unfold DataTable.sortedData. destruct (DataTable.sortColumn s) as [c|]; [|done].
    destruct (Js.truthy c); [apply sort_by_perm|done]. }
  split; [exact H|]. by rewrite H.
Qed.

(** When every row has a number in the sort column, the rows are shown
    in ascending order of that number for direction asc and in descending
    order for desc. *)
Theorem numeric_column_is_sorted
    (localeCompare : string → string → Z) (props : DataTable.Props)
    (s : DataTable.State) (column : string)
    (Hcolumn : DataTable.sortColumn s = Some column)
    (Hname : Js.truthy column = true)
    (Hnumbers : ∀ r, r ∈ DataTable.data props → ∃ x, Js.get r column = Js.JNum x) :
  StronglySorted
    (fun a b => match DataTable.sortDirection s with
                | DataTable.Asc => num column a <= num column b
                | DataTable.Desc => num column b <= num column a
                end)
    (DataTable.sortedData localeCompare props s).
Proof.
  unfold DataTable.sortedData. rewrite Hcolumn, Hname.
  set (key := fun r => match DataTable.sortDirection s with
                       | DataTable.Asc => - num column r
                       | DataTable.Desc => num column r
                       end).
  rewrite (sort_by_ext _ (by_key_desc key)).
  - eapply StronglySorted_weaken; [|apply sort_by_desc].
    intros a b. unfold desc, key. destruct (DataTable.sortDirection s); lia.
  - intros a b Ha Hb.
    destruct (Hnumbers a Ha) as [x Hx], (Hnumbers b Hb) as [y Hy].
    unfold DataTable.compare_rows, by_key_desc, key, num. rewrite Hx, Hy.
    destruct (DataTable.sortDirection s); lia.
Qed.

Lemma numeric_column_is_sorted_witness :
  let props := Home.tableProps
                 {| Home.selectedDataset := Some Sample.info;
                    Home.tableData := Sample.rows;
                    Home.pagination := {| Api.current_page := 1;
                                          Api.page_size := 50;
                                          Api.total_rows := 2;
                                          Api.total_pages := 1 |};
                    Home.loading := false |} Sample.info in
  let s := DataTable.handleSort "v" DataTable.initial in
  (∀ r, r ∈ DataTable.data props → ∃ x, Js.get r "v" = Js.JNum x)
  ∧ StronglySorted (fun a b => num "v" a <= num "v" b)
      (DataTable.sortedData Sample.localeCompare props s).
Proof.
  intros props s.
  assert (Hnum : ∀ r, r ∈ DataTable.data props → ∃ x, Js.get r "v" = Js.JNum x).
  { intros r Hr. simpl in Hr. unfold Sample.rows in Hr.
    repeat (apply elem_of_cons in Hr as [->|Hr]; [by eexists|]).
    by apply elem_of_nil in Hr. }
  split; [exact Hnum|].
  exact (numeric_column_is_sorted Sample.localeCompare props s "v"
           eq_refl eq_refl Hnum).
Defined.

(** A click on a column header makes it the sort column.  On the column
    that is already sorted it flips the direction, so two clicks put the
    table back as it was; on another column it starts ascending.  An edit
    in progress is kept as it is, with its row position. *)
Theorem header_click_toggles_direction (column : string) (s : DataTable.State) :
  let s' := DataTable.handleSort column s in
  DataTable.sortColumn s' = Some column
  ∧ DataTable.editingCell s' = DataTable.editingCell s
  ∧ DataTable.editValue s' = DataTable.editValue s
  ∧ (DataTable.sortColumn s = Some column →
     DataTable.sortDirection s' ≠ DataTable.sortDirection s
     ∧ DataTable.handleSort column s' = s)
  ∧ (DataTable.sortColumn s ≠ Some column →
     DataTable.sortDirection s' = DataTable.Asc
     ∧ DataTable.sortDirection (DataTable.handleSort column s') = DataTable.Desc).
Proof.
  unfold DataTable.handleSort. destruct s as [cell value col dir]. simpl.
  destruct (decide (col = Some column)) as [->|Hne].
  - rewrite !bool_decide_eq_true_2 by done. simpl.
    rewrite ?bool_decide_eq_true_2 by done.
    repeat split; try done; destruct dir; done.
  - rewrite bool_decide_eq_false_2 by done. simpl.
    rewrite ?bool_decide_eq_true_2 by done. by repeat split.
Qed.

Lemma header_click_toggles_direction_witness :
  let s := DataTable.handleSort "v" DataTable.initial in
  DataTable.sortColumn DataTable.initial ≠ Some "v"
  ∧ DataTable.sortDirection s = DataTable.Asc
  ∧ DataTable.sortColumn s = Some "v"
  ∧ DataTable.handleSort "v" (DataTable.handleSort "v" s) = s.
Proof.
  intros s.
  assert (Hne : DataTable.sortColumn DataTable.initial ≠ Some "v") by discriminate.
  destruct (header_click_toggles_direction "v" DataTable.initial)
    as (Hcol & _ & _ & _ & Hother).
  destruct (header_click_toggles_direction "v" s) as (_ & _ & _ & Hsame & _).
  split; [exact Hne|]. split; [exact (proj1 (Hother Hne))|].
  split; [exact Hcol|]. exact (proj2 (Hsame Hcol)).
Defined.

Lemma digit_not_space (k : N) :
  (k < 10)%N → Js.is_space (ascii_of_N (48 + k)) = false.
Proof.
  intros Hk.
  assert (k = 0 ∨ k = 1 ∨ k = 2 ∨ k = 3 ∨ k = 4 ∨ k = 5 ∨ k = 6 ∨ k = 7
          ∨ k = 8 ∨ k = 9)%N as Hcases by lia.
  repeat destruct Hcases as [->|Hcases]; try subst k; reflexivity.
Qed.

Lemma digits_fuel_head fuel n acc :
  ∃ c rest, Js.digits_fuel (S fuel) n acc = String c rest
            ∧ Js.is_space c = false.
Proof.
  revert n acc. induction fuel as [|fuel IH]; intros n acc.
  - simpl. destruct (n <? 10)%N; eexists _, _; (split; [done|]);
      apply digit_not_space, N.mod_lt; lia.
  - change (Js.digits_fuel (S (S fuel)) n acc)
      with (let acc' := String (ascii_of_N (48 + n mod 10)) acc in
            if (n <? 10)%N then acc'
            else Js.digits_fuel (S fuel) (n / 10)%N acc').
    cbv zeta. destruct (n <? 10)%N; [|apply IH].
    eexists _, _. split; [done|]. apply digit_not_space, N.mod_lt. lia.
Qed.

Lemma trim_keeps_text c rest :
  Js.is_space c = false → Js.truthy (Js.trim (String c rest)) = true.
Proof.
  intros Hc. unfold Js.trim. simpl. rewrite Hc. simpl.
  destruct (Js.trimEnd rest); [by rewrite Hc|done].
Qed.

Lemma number_text_not_blank n : Js.truthy (Js.trim (Js.number_to_string n)) = true.
Proof.
  unfold Js.number_to_string, Js.digits. destruct (n <? 0).
  - by apply trim_keeps_text.
  - destruct (digits_fuel_head (N.to_nat (N.log2 (Z.to_N n))) (Z.to_N n) EmptyString)
      as (c & rest & -> & Hc).
    by apply trim_keeps_text.
Qed.

(** Opening the editor on a shown cell and saving without typing sends
    the cell's text as [saveEdit] reads it, not always the cell's value: a
    null or missing cell is sent as the empty string and a boolean as the
    string true or false, a string that reads as a number is sent as that
    number, while a number or any other string is sent unchanged. *)
Theorem untouched_edit_value
    (S2N : string → option Z) (localeCompare : string → string → Z)
    (props : DataTable.Props) (s : DataTable.State)
    (i : nat) (column : string) (row : Js.Record)
    (Hrow : DataTable.sortedData localeCompare props s !! i = Some row)
    (Hcallback : DataTable.onCellEdit props = true) :
  let v := Js.get row column in
  ∃ e, (DataTable.saveEdit S2N props
          (DataTable.clickEdit localeCompare props i column s)).1 = Some e
       ∧ DataTable.columnName e = column
       ∧ (v = Js.JNull ∨ v = Js.JUndefined →
          DataTable.newValue e = Js.JStr EmptyString)
       ∧ (∀ b, v = Js.JBool b → S2N (Js.to_string v) = None →
               DataTable.newValue e = Js.JStr (Js.to_string v))
       ∧ (∀ t, v = Js.JStr t → S2N t = None → DataTable.newValue e = v)
       ∧ (∀ t n, v = Js.JStr t → S2N t = Some n →
                 Js.truthy (Js.trim t) = true →
                 DataTable.newValue e = Js.JNum n)
       ∧ (∀ n, v = Js.JNum n → S2N (Js.number_to_string n) = Some n →
               DataTable.newValue e = v).
Proof.
  intros v. unfold DataTable.clickEdit, DataTable.saveEdit.
  rewrite Hrow, Hcallback. simpl.
  eexists. split; [done|]. split; [done|]. simpl. fold v.
  unfold DataTable.parsed. repeat split.
  - intros [-> | ->]; simpl; by destruct (S2N EmptyString).
  - intros b -> Hb. simpl in *. by rewrite Hb.
  - intros t -> Ht. simpl. by rewrite Ht.
  - intros t n -> Ht Htrim. simpl. by rewrite Ht, Htrim.
  - intros n -> Hn. simpl. by rewrite Hn, number_text_not_blank.
Qed.

Lemma untouched_edit_value_witness :
  let props := {| DataTable.data := [[("name", Js.JNull); ("zip", Js.JStr "0042")]];
                  DataTable.columns := ["name"; "zip"];
                  DataTable.totalRows := 1; DataTable.currentPage := 1;
                  DataTable.totalPages := 1; DataTable.pageSize := 50;
                  DataTable.onPageChange := true; DataTable.onCellEdit := true;
                  DataTable.loading := false |} in
  let save column :=
    (DataTable.saveEdit Sample.StringToNumber props
       (DataTable.clickEdit Sample.localeCompare props 0 column
          DataTable.initial)).1 in
  (DataTable.newValue <$> save "name") = Some (Js.JStr EmptyString)
  ∧ (DataTable.newValue <$> save "zip") = Some (Js.JNum 42).
Proof.
  intros props save.
  destruct (untouched_edit_value Sample.StringToNumber Sample.localeCompare props
              DataTable.initial 0 "name" _ eq_refl eq_refl)
    as (e1 & He1 & _ & Hnull & _).
  destruct (untouched_edit_value Sample.StringToNumber Sample.localeCompare props
              DataTable.initial 0 "zip" _ eq_refl eq_refl)
    as (e2 & He2 & _ & _ & _ & _ & Hnum & _).
  unfold save. rewrite He1, He2. simpl.
  rewrite (Hnull (or_introl eq_refl)).
  by rewrite (Hnum "0042" 42 eq_refl eq_refl eq_refl).
Defined.

(** Saving closes the editor, so a second Enter sends nothing; Escape
    closes it without sending; any other key changes nothing; without an
    [onCellEdit] callback nothing is ever sent.  None of this touches the
    sort column or direction. *)
Theorem keys_of_the_cell_editor
    (S2N : string → option Z) (props : DataTable.Props) (s : DataTable.State)
    (key : string) :
  let saved := DataTable.handleKeyDown S2N props "Enter" s in
  let cancelled := DataTable.handleKeyDown S2N props "Escape" s in
  DataTable.editingCell saved.2 = None
  ∧ DataTable.editValue saved.2 = EmptyString
  ∧ (DataTable.handleKeyDown S2N props "Enter" saved.2).1 = None
  ∧ cancelled = (None, saved.2)
  ∧ DataTable.sortColumn saved.2 = DataTable.sortColumn s
  ∧ DataTable.sortDirection saved.2 = DataTable.sortDirection s
  ∧ (key ≠ "Enter" → key ≠ "Escape" →
     DataTable.handleKeyDown S2N props key s = (None, s))
  ∧ (DataTable.onCellEdit props = false → saved.1 = None)
  ∧ (DataTable.editingCell s = None → saved.1 = None).
Proof.
  unfold DataTable.handleKeyDown, DataTable.saveEdit. simpl.
  repeat split.
  - intros H1%String.eqb_neq H2%String.eqb_neq. by rewrite H1, H2.
  - intros ->. by destruct (DataTable.editingCell s) as [[]|].
  - by intros ->.
Qed.

Lemma keys_of_the_cell_editor_witness :
  let props := {| DataTable.data := Sample.rows; DataTable.columns := ["name"; "v"];
                  DataTable.totalRows := 2; DataTable.currentPage := 1;
                  DataTable.totalPages := 1; DataTable.pageSize := 50;
                  DataTable.onPageChange := true; DataTable.onCellEdit := true;
                  DataTable.loading := false |} in
  let s := DataTable.setEditValue "c"
             (DataTable.clickEdit Sample.localeCompare props 1 "name"
                DataTable.initial) in
  "Tab" ≠ "Enter" ∧ "Tab" ≠ "Escape"
  ∧ DataTable.handleKeyDown Sample.StringToNumber props "Tab" s = (None, s)
  ∧ (DataTable.handleKeyDown Sample.StringToNumber props "Enter" s).1
    = Some {| DataTable.rowIndex := 1; DataTable.columnName := "name";
              DataTable.newValue := Js.JStr "c" |}.
Proof.
  intros props s.
  destruct (keys_of_the_cell_editor Sample.StringToNumber props s "Tab")
    as (_ & _ & _ & _ & _ & _ & Hother & _).
  split; [discriminate|]. split; [discriminate|].
  split; [exact (Hother ltac:(discriminate) ltac:(discriminate))|reflexivity].
Defined.

(** ** app/page.tsx: paging and cell edits *)

(** [handlePageChange] never throws.  Without a selected dataset it does
    nothing.  Otherwise it sends one request, for the asked page at the
    page size of the state, and ends with [loading] false; the rows and
    the pagination become the server's answer, or stay as they were when
    the request is rejected. *)
Theorem page_change_outcomes
    (srv : World.Server) (page : Z) (st : Home.State) (w : World.World) :
  let after := Home.handlePageChange srv page (st, w) in
  after.1 = Eff.Ok tt
  ∧ match Home.selectedDataset st with
    | None => after.2 = (st, w)
    | Some ds =>
        let size := Api.page_size (Home.pagination st) in
        World.requests after.2.2
        = World.requests w ++ [Api.GetDataset (Api.id ds) page size]
        ∧ Home.loading after.2.1 = false
        ∧ Home.selectedDataset after.2.1 = Some ds
        ∧ match (World.on_get_dataset srv (Api.id ds) page size
                   (World.store w)).1 with
          | Eff.Ok result =>
              Home.tableData after.2.1 = Api.page_data result
              ∧ Home.pagination after.2.1 = Api.pagination result
          | Eff.Throw _ =>
              Home.tableData after.2.1 = Home.tableData st
              ∧ Home.pagination after.2.1 = Home.pagination st
          end
    end.
Proof.
  unfold Home.handlePageChange. run_eff.
  destruct (Home.selectedDataset st) as [ds|] eqn:Hds; simpl; [|done].
  destruct (World.on_get_dataset srv _ _ _ _) as [[result|e] st1]; simpl;
    rewrite Facts.requests_record_sent; by rewrite ?Hds.
Qed.

(** [handleCellEdit] never throws.  It sends the cell update; when the
    server accepts it, the current page is fetched again, from the store
    as the update left it, and shown; when the server rejects it, nothing
    more is sent and the page's state is untouched. *)
Theorem cell_edit_then_refresh
    (srv : World.Server) (e : DataTable.CellEdit) (st : Home.State)
    (w : World.World) (ds : Api.DatasetInfo)
    (Hselected : Home.selectedDataset st = Some ds) :
  let after := Home.handleCellEdit srv e (st, w) in
  let put := Api.PutCell (Api.id ds) (DataTable.rowIndex e)
               (DataTable.columnName e) (DataTable.newValue e) in
  let page := Api.current_page (Home.pagination st) in
  let size := Api.page_size (Home.pagination st) in
  let update := World.on_cell srv (Api.id ds) (DataTable.rowIndex e)
                  (DataTable.columnName e) (DataTable.newValue e)
                  (World.store w) in
  after.1 = Eff.Ok tt
  ∧ match update.1 with
    | Eff.Ok _ =>
        World.requests after.2.2
        = World.requests w ++ [put; Api.GetDataset (Api.id ds) page size]
        ∧ ∀ result, (World.on_get_dataset srv (Api.id ds) page size update.2).1
                    = Eff.Ok result →
                    Home.tableData after.2.1 = Api.page_data result
    | Eff.Throw _ =>
        World.requests after.2.2 = World.requests w ++ [put]
        ∧ after.2.1 = st
    end.
Proof.
  unfold Home.handleCellEdit, Home.handlePageChange. run_eff.
  rewrite Hselected. simpl.
  destruct (World.on_cell srv _ _ _ _ _) as [[[]|err] st1]; simpl.
  - rewrite Hselected. simpl.
    destruct (World.on_get_dataset srv _ _ _ _) as [[result|err] st2]; simpl.
    + split; [done|]. unfold World.requests. simpl.
      rewrite !omap_app, <- app_assoc.
      split; [done|]. intros ? ?. by simplify_eq.
    + split; [done|]. unfold World.requests. simpl.
      rewrite !omap_app, <- app_assoc.
      split; [done|]. intros ? ?. by simplify_eq.
  - by rewrite Facts.requests_record_sent.
Qed.

Lemma cell_edit_then_refresh_witness :
  let st := {| Home.selectedDataset := Some Sample.info;
               Home.tableData := Sample.rows;
               Home.pagination := {| Api.current_page := 1; Api.page_size := 50;
                                     Api.total_rows := 2; Api.total_pages := 1 |};
               Home.loading := false |} in
  let e := {| DataTable.rowIndex := 1; DataTable.columnName := "v";
              DataTable.newValue := Js.JNum 7 |} in
  let after := Home.handleCellEdit Sample.server e (st, Sample.world0) in
  World.requests after.2.2
  = [Api.PutCell "d1" 1 "v" (Js.JNum 7); Api.GetDataset "d1" 1 50]
  ∧ Home.tableData after.2.1
    = [[("name", Js.JStr "b"); ("v", Js.JNum 2)];
       [("name", Js.JStr "a"); ("v", Js.JNum 7)]].
Proof.
  intros st e after.
  pose proof (cell_edit_then_refresh Sample.server e st Sample.world0
                Sample.info eq_refl) as [_ H].
  vm_compute in H. destruct H as [Hreq Htable].
  split; [vm_compute; exact Hreq|].
  vm_compute. exact (Htable _ eq_refl).
Defined.

(** ** FileUpload: the extension and the outcomes of a drop *)

Lemma lastIndexOf_from_last base c ext i :
  0 <= i →
  Js.includes_char ext c = false →
  Js.lastIndexOf_from (base +:+ String c ext) c i
  = i + Z.of_nat (String.length base).
Proof.
  revert i. induction base as [|d base IH]; intros i Hi Hext.
  - change (EmptyString +:+ String c ext) with (String c ext).
    cbn [Js.lastIndexOf_from].
    rewrite (Facts.lastIndexOf_from_absent _ _ _ Hext), Ascii.eqb_refl.
    simpl. lia.
  - rewrite append_cons. cbn [Js.lastIndexOf_from].
    rewrite IH by (done || lia).
    destruct (Z.leb_spec 0 (i + 1 + Z.of_nat (String.length base))); simpl; lia.
Qed.

Lemma drop_chars_app base t :
  Js.drop_chars (String.length base) (base +:+ t) = t.
Proof. induction base as [|d base IH]; [by destruct t|]. by rewrite append_cons. Qed.

(** The extension [onDrop] checks is what follows the last dot of the
    name, lowercased: a file named base.ext, where ext has no dot, is
    accepted exactly when ext, in any mix of upper and lower case, is csv,
    xlsx or xls, whatever base is. *)
Theorem extension_follows_last_dot (base ext : string) (size : Z)
    (Hext : Js.includes_char ext "." = false) :
  let file := {| Api.name := base +:+ "." +:+ ext; Api.size := size |} in
  FileUpload.fileExt file = "." +:+ Js.toLowerCase ext
  ∧ (FileUpload.valid file = true
     ↔ Js.toLowerCase ext ∈ ["csv"; "xlsx"; "xls"]).
Proof.
  intros file.
  assert (Hfile : FileUpload.fileExt file = "." +:+ Js.toLowerCase ext).
  { unfold FileUpload.fileExt, Js.lastIndexOf, file. simpl.
    change ("." +:+ ext) with (String "." ext).
    rewrite lastIndexOf_from_last by done.
    unfold Js.substring_from.
    replace (Z.to_nat (Z.max 0 (0 + Z.of_nat (String.length base))))
      with (String.length base) by lia.
    by rewrite drop_chars_app. }
  split; [exact Hfile|]. rewrite valid_iff, Hfile.
  unfold FileUpload.validTypes. rewrite !elem_of_cons, !elem_of_nil.
  change ("." +:+ Js.toLowerCase ext) with (String "." (Js.toLowerCase ext)).
  split; intros [H|[H|[H|[]]]]; [left|right; left|right; right; left
                                 |left|right; left|right; right; left];
    first [by injection H | by rewrite H].
Qed.

Lemma extension_follows_last_dot_witness :
  Js.includes_char "XLSX" "." = false
  ∧ FileUpload.fileExt {| Api.name := "sales.2024.final.XLSX"; Api.size := 9 |}
    = ".xlsx"
  ∧ FileUpload.valid {| Api.name := "sales.2024.final.XLSX"; Api.size := 9 |}
    = true.
Proof.
  destruct (extension_follows_last_dot "sales.2024.final" "XLSX" 9 eq_refl)
    as [Hext Hvalid].
  split; [reflexivity|]. split; [exact Hext|].
  apply Hvalid. vm_compute. apply list_elem_of_further, list_elem_of_here.
Defined.

(** A drop without a file does nothing.  A drop of a file with a valid
    extension ends with [uploading] false and that file shown; when the
    upload is accepted and [onUploadSuccess] returns, success is set, the
    error is cleared and the callback has been called once with the
    answer; when the upload is rejected, the error is the error's message
    ("Upload failed" when what was thrown is no Error), success is false
    and [onUploadSuccess] is not called. *)
Theorem drop_outcomes
    (srv : World.Server) (props : FileUpload.Props) (file : Api.File)
    (rest : list Api.File) (st : FileUpload.State) (w : World.World)
    (Hvalid : FileUpload.valid file = true) :
  let after := (FileUpload.onDrop srv props (file :: rest) (st, w)).2 in
  FileUpload.onDrop srv props [] (st, w) = (Eff.Ok tt, (st, w))
  ∧ FileUpload.uploading after.1 = false
  ∧ FileUpload.uploadedFile after.1 = Some file
  ∧ match (World.on_upload srv file (World.store w)).1 with
    | Eff.Ok result =>
        FileUpload.onUploadSuccess props result = Eff.Ok tt →
        FileUpload.success after.1 = true
        ∧ FileUpload.error after.1 = None
        ∧ World.calls after.2 = World.calls w ++ ["onUploadSuccess"]
    | Eff.Throw e =>
        FileUpload.success after.1 = false
        ∧ FileUpload.error after.1 = Some (Js.message_or e "Upload failed")
        ∧ World.calls after.2
          = World.calls w
            ++ match FileUpload.onUploadError props with
               | Some _ => ["onUploadError"]
               | None => []
               end
    end.
Proof.
  split; [done|]. unfold FileUpload.onDrop. rewrite Hvalid. run_eff.
  destruct (World.on_upload srv file (World.store w)) as [[result|e] st1]; simpl.
  - destruct (FileUpload.onUploadSuccess props result) as [[]|e] eqn:Hcb; simpl.
    + repeat split.
      by rewrite Facts.calls_record_called, Facts.calls_record_sent.
    + destruct (FileUpload.onUploadError props) as [cb|]; simpl;
        by repeat split.
  - destruct (FileUpload.onUploadError props) as [cb|]; simpl.
    + repeat split.
      by rewrite Facts.calls_record_called, Facts.calls_record_sent.
    + repeat split. by rewrite Facts.calls_record_sent, app_nil_r.
Qed.

Lemma drop_outcomes_witness :
  let file := {| Api.name := "people.csv"; Api.size := 16 |} in
  let props := {| FileUpload.onUploadSuccess := fun _ => Eff.Ok tt;
                  FileUpload.onUploadError := None |} in
  let st := {| FileUpload.uploading := false; FileUpload.uploadedFile := None;
               FileUpload.error := None; FileUpload.success := false |} in
  let after := (FileUpload.onDrop Sample.server props [file] (st, Sample.world0)).2 in
  FileUpload.valid file = true
  ∧ FileUpload.error after.1 = Some "Network Error"
  ∧ FileUpload.uploadedFile after.1 = Some file
  ∧ FileUpload.success after.1 = false.
Proof.
  intros file props st after.
  destruct (drop_outcomes Sample.server props file [] st Sample.world0 eq_refl)
    as (_ & _ & Hfile & Hout).
  simpl in Hout. destruct Hout as (Hsuccess & Herror & _).
  split; [reflexivity|]. split; [exact Herror|].
  split; [exact Hfile|exact Hsuccess].
Defined.

(** ** ThemeProvider and ThemeToggle *)

Lemma add_token msg x l :
  class_token x = true → Theme.add msg x l = Eff.Ok (Theme.append_token x l).
Proof.
  unfold class_token, Theme.add. intros [Ht Hw]%andb_true_iff.
  apply negb_true_iff in Hw. by rewrite Ht, Hw.
Qed.

Lemma applied_token t pd :
  class_token t = true → class_token (applied t pd) = true.
Proof.
  unfold applied. intros Ht.
  destruct (String.eqb t "system"); [by destruct pd|done].
Qed.

Lemma applyTheme_keeps x sb :
  Theme.theme (Theme.applyTheme x sb).2.1 = Theme.theme sb.1
  ∧ Theme.mounted (Theme.applyTheme x sb).2.1 = Theme.mounted sb.1
  ∧ Theme.localStorage (Theme.applyTheme x sb).2.2 = Theme.localStorage sb.2
  ∧ Theme.prefersDark (Theme.applyTheme x sb).2.2 = Theme.prefersDark sb.2.
Proof.
  destruct sb as [s b]. unfold Theme.applyTheme.
  by destruct (Theme.add _ x _).
Qed.

Lemma applyTheme_token x s b :
  class_token x = true →
  Theme.applyTheme x (s, b)
  = (Eff.Ok tt,
     ({| Theme.theme := Theme.theme s; Theme.actualTheme := x;
         Theme.mounted := Theme.mounted s |},
      {| Theme.localStorage := Theme.localStorage b;
         Theme.prefersDark := Theme.prefersDark b;
         Theme.classList :=
           Theme.append_token x
             (Theme.remove ["dark"; "light"] (Theme.classList b));
         Theme.domMessage := Theme.domMessage b |})).
Proof. intros Hx. unfold Theme.applyTheme. by rewrite add_token. Qed.

Lemma themeEffect_keeps sb :
  Theme.theme (Theme.themeEffect sb).2.1 = Theme.theme sb.1
  ∧ Theme.mounted (Theme.themeEffect sb).2.1 = Theme.mounted sb.1
  ∧ Theme.localStorage (Theme.themeEffect sb).2.2 = Theme.localStorage sb.2
  ∧ Theme.prefersDark (Theme.themeEffect sb).2.2 = Theme.prefersDark sb.2.
Proof.
  destruct sb as [s b]. unfold Theme.themeEffect.
  destruct (Theme.mounted s) eqn:Hm; cbn [negb]; [|simpl; by rewrite Hm].
  destruct (String.eqb (Theme.theme s) "system");
    exact (applyTheme_keeps _ (s, b)).
Qed.

Lemma theme_after_set t sb :
  Theme.theme (Theme.handleSetTheme t sb).2.1 = t
  ∧ Theme.localStorage (Theme.handleSetTheme t sb).2.2 !! "theme" = Some t
  ∧ Theme.mounted (Theme.handleSetTheme t sb).2.1 = Theme.mounted sb.1
  ∧ Theme.prefersDark (Theme.handleSetTheme t sb).2.2 = Theme.prefersDark sb.2.
Proof.
  destruct sb as [s b]. unfold Theme.handleSetTheme.
  match goal with
  | |- context [Theme.themeEffect ?x] =>
      destruct (themeEffect_keeps x) as (-> & -> & -> & ->)
  end.
  simpl. by rewrite lookup_insert_eq.
Qed.





Lemma elem_of_theme_add c x l : c ∈ Theme.append_token x l ↔ c = x ∨ c ∈ l.
Proof.
  unfold Theme.append_token. case_bool_decide as Hx.
  - split; [auto|]. by intros [->|?].
  - rewrite elem_of_app, list_elem_of_singleton. tauto.
Qed.

Lemma elem_of_theme_remove c ts l :
  c ∈ Theme.remove ts l ↔ (c ∉ ts) ∧ c ∈ l.
Proof. unfold Theme.remove. by rewrite list_elem_of_filter. Qed.

Lemma theme_remove_remove ts l :
  Theme.remove ts (Theme.remove ts l) = Theme.remove ts l.
Proof.
  unfold Theme.remove. induction l as [|c l IH]; [done|].
  rewrite (filter_cons _ c l). case_decide as Hc; [|done].
  rewrite (filter_cons _ c (filter _ l)). rewrite decide_True by done.
  by rewrite IH.
Qed.

Lemma theme_add_again x ts l :
  Theme.append_token x
    (Theme.remove ts (Theme.append_token x (Theme.remove ts l)))
  = Theme.append_token x (Theme.remove ts l).
Proof.
  unfold Theme.append_token at 2. case_bool_decide as Hin.
  - rewrite theme_remove_remove. unfold Theme.append_token.
    by rewrite bool_decide_eq_true_2.
  - unfold Theme.remove at 1. rewrite filter_app.
    fold (Theme.remove ts (Theme.remove ts l)). rewrite theme_remove_remove.
    rewrite filter_cons, filter_nil. case_decide as Hx.
    + unfold Theme.append_token. rewrite (bool_decide_eq_false_2 _ Hin).
      rewrite bool_decide_eq_true_2; [done|].
      apply elem_of_app. right. apply list_elem_of_here.
    + rewrite app_nil_r. unfold Theme.append_token.
      by rewrite !(bool_decide_eq_false_2 _ Hin).
Qed.

Lemma handleSetTheme_mounted t s b :
  Theme.mounted s = true →
  class_token (applied t (Theme.prefersDark b)) = true →
  Theme.handleSetTheme t (s, b)
  = (Eff.Ok tt,
     ({| Theme.theme := t; Theme.actualTheme := applied t (Theme.prefersDark b);
         Theme.mounted := true |},
      {| Theme.localStorage := <["theme" := t]> (Theme.localStorage b);
         Theme.prefersDark := Theme.prefersDark b;
         Theme.classList :=
           Theme.append_token (applied t (Theme.prefersDark b))
             (Theme.remove ["dark"; "light"] (Theme.classList b));
         Theme.domMessage := Theme.domMessage b |})).
Proof.
  intros Hm Ht. unfold Theme.handleSetTheme, Theme.themeEffect, applied in *.
  cbn [fst snd Theme.mounted Theme.theme Theme.prefersDark]. rewrite Hm.
  cbn [negb].
  destruct (String.eqb t "system"); by rewrite applyTheme_token.
Qed.

(** Once the provider is mounted, choosing one of the three themes never
    throws and draws the page in dark or in light: in the chosen one, or
    for system in the one the system prefers.  The root element then
    carries exactly that one of the classes dark and light, and its
    other classes are untouched. *)
Theorem chosen_theme_is_applied
    (t : string) (sb : Theme.State * Theme.Browser)
    (Hmounted : Theme.mounted sb.1 = true)
    (Htheme : t ∈ ["light"; "dark"; "system"]) :
  let sb' := (Theme.handleSetTheme t sb).2 in
  let actual := Theme.actualTheme sb'.1 in
  (Theme.handleSetTheme t sb).1 = Eff.Ok tt
  ∧ actual = applied t (Theme.prefersDark sb.2)
  ∧ actual ∈ ["dark"; "light"]
  ∧ (∀ c, c ∈ ["dark"; "light"] → c ∈ Theme.classList sb'.2 ↔ c = actual)
  ∧ (∀ c, c ∉ ["dark"; "light"] →
          c ∈ Theme.classList sb'.2 ↔ c ∈ Theme.classList sb.2).
Proof.
  destruct sb as [s b]. simpl in Hmounted.
  assert (Hactual : applied t (Theme.prefersDark b) ∈ ["dark"; "light"]).
  { unfold applied.
    repeat (apply elem_of_cons in Htheme as [->|Htheme]); simpl;
      [set_solver|set_solver|destruct (Theme.prefersDark b); set_solver|].
    by apply elem_of_nil in Htheme. }
  assert (Htoken : class_token (applied t (Theme.prefersDark b)) = true).
  { repeat (apply elem_of_cons in Hactual as [->|Hactual]); [done..|].
    by apply elem_of_nil in Hactual. }
  rewrite handleSetTheme_mounted by done. simpl.
  split; [done|]. split; [done|]. split; [done|]. split.
  - intros c Hc. rewrite elem_of_theme_add, elem_of_theme_remove. tauto.
  - intros c Hc. rewrite elem_of_theme_add, elem_of_theme_remove.
    split; [intros [->|[_ ?]]; done|auto].
Qed.

Lemma chosen_theme_is_applied_witness :
  let b := {| Theme.localStorage := ∅; Theme.prefersDark := true;
              Theme.classList := ["light"; "app"];
              Theme.domMessage := fun _ => "The token is not valid." |} in
  let sb := (Theme.mount (Theme.initial, b)).2 in
  Theme.mounted sb.1 = true
  ∧ ("system" ∈ ["light"; "dark"; "system"])
  ∧ Theme.actualTheme (Theme.handleSetTheme "system" sb).2.1 = "dark"
  ∧ Theme.classList (Theme.handleSetTheme "system" sb).2.2 = ["app"; "dark"].
Proof.
  intros b sb.
  assert (Hin : "system" ∈ ["light"; "dark"; "system"])
    by (do 2 apply list_elem_of_further; apply list_elem_of_here).
  destruct (chosen_theme_is_applied "system" sb eq_refl Hin) as (_ & Hactual & _).
  split; [reflexivity|]. split; [exact Hin|]. split; [exact Hactual|].
  vm_compute. reflexivity.
Defined.

Lemma has_whitespace_not_system t :
  Theme.has_whitespace t = true → String.eqb t "system" = false.
Proof.
  intros Hw. destruct (String.eqb_spec t "system") as [->|]; [|done].
  discriminate Hw.
Qed.

(** A chosen theme that a class list takes as a token (not empty, no
    white space) survives a reload: the choice does not throw, and
    mounting a fresh provider on the browser as the choice left it gives
    back the state and the class list the choice produced.  A saved theme
    with white space in it does not: mounting throws when the theme is
    added to the class list, and the root element is left with neither
    of the classes dark and light. *)
Theorem theme_survives_reload
    (t : string) (sb : Theme.State * Theme.Browser)
    (Hmounted : Theme.mounted sb.1 = true) :
  let chosen := Theme.handleSetTheme t sb in
  let reloaded := Theme.mount (Theme.initial, chosen.2.2) in
  (class_token t = true → chosen.1 = Eff.Ok tt ∧ reloaded = chosen)
  ∧ (Js.truthy t = true → Theme.has_whitespace t = true →
     (∃ e, reloaded.1 = Eff.Throw e)
     ∧ Theme.theme reloaded.2.1 = t
     ∧ ∀ c, c ∈ ["dark"; "light"] → c ∉ Theme.classList reloaded.2.2).
Proof.
  destruct sb as [s b]. simpl in Hmounted. cbv zeta. split.
  - intros Htoken.
    rewrite handleSetTheme_mounted by (done || by apply applied_token).
    split; [done|].
    unfold Theme.mount, Theme.mountEffect, Theme.themeEffect.
    cbn [fst snd Theme.mounted Theme.theme Theme.prefersDark Theme.localStorage
         Theme.initial negb].
    rewrite lookup_insert_eq.
    assert (Ht : Js.truthy t = true)
      by (unfold class_token in Htoken; by apply andb_true_iff in Htoken as [? _]).
    rewrite Ht.
    pose proof (applied_token t (Theme.prefersDark b) Htoken) as Ha.
    unfold applied in *.
    destruct (String.eqb t "system") eqn:Hsys;
      rewrite applyTheme_token by done; simpl; by rewrite theme_add_again.
  - intros Ht Hw.
    destruct (theme_after_set t (s, b)) as (_ & Hsaved & _ & _).
    set (b' := (Theme.handleSetTheme t (s, b)).2.2) in *.
    unfold Theme.mount, Theme.mountEffect, Theme.themeEffect.
    cbn [fst snd Theme.mounted Theme.theme Theme.prefersDark Theme.localStorage
         Theme.initial negb].
    rewrite Hsaved, Ht. rewrite (has_whitespace_not_system t Hw).
    unfold Theme.applyTheme, Theme.add. rewrite Ht, Hw. simpl.
    split; [eauto|]. split; [done|].
    intros c Hc. rewrite elem_of_theme_remove. tauto.
Qed.

Lemma theme_survives_reload_witness :
  let b := {| Theme.localStorage := ∅; Theme.prefersDark := false;
              Theme.classList := ["app"];
              Theme.domMessage := fun _ => "The token is not valid." |} in
  let sb := (Theme.mount (Theme.initial, b)).2 in
  let chosen := Theme.handleSetTheme "system" sb in
  let broken := Theme.handleSetTheme "my theme" sb in
  Theme.mounted sb.1 = true
  ∧ class_token "system" = true
  ∧ Theme.classList chosen.2.2 = ["app"; "light"]
  ∧ Theme.mount (Theme.initial, chosen.2.2) = chosen
  ∧ Theme.has_whitespace "my theme" = true
  ∧ (∃ e, (Theme.mount (Theme.initial, broken.2.2)).1 = Eff.Throw e)
  ∧ Theme.classList (Theme.mount (Theme.initial, broken.2.2)).2.2 = ["app"].
Proof.
  intros b sb chosen broken.
  destruct (theme_survives_reload "system" sb eq_refl) as [Hgood _].
  destruct (theme_survives_reload "my theme" sb eq_refl) as [_ Hbad].
  split; [reflexivity|]. split; [reflexivity|]. split; [reflexivity|].
  split; [exact (proj2 (Hgood eq_refl))|]. split; [reflexivity|].
  split; [exact (proj1 (Hbad eq_refl eq_refl))|]. reflexivity.
Defined.

(** ** ModelSelector *)

(** With at least one model to choose from and loading over, the selector
    shows a model of the list: the first one whose id is the selected id,
    or, when no model has that id (also before any selection), the first
    model of the list.  With no models it shows the placeholder. *)
Theorem current_model_is_listed
    (selectedModel : string) (models : list ModelSelector.Model) (isOpen : bool)
    (Hmodels : models ≠ []) :
  ∃ m, ModelSelector.currentModel selectedModel models = Some m
       ∧ m ∈ models
       ∧ ((∃ m', m' ∈ models ∧ ModelSelector.id m' = selectedModel) →
          ModelSelector.id m = selectedModel)
       ∧ ((∀ m', m' ∈ models → ModelSelector.id m' ≠ selectedModel) →
          head models = Some m)
       ∧ ModelSelector.render selectedModel models false isOpen
         ≠ ModelSelector.Placeholder
       ∧ ModelSelector.render selectedModel [] false isOpen
         = ModelSelector.Placeholder.
Proof.
  unfold ModelSelector.currentModel, ModelSelector.render.
  rewrite (bool_decide_eq_false_2 _ Hmodels). simpl.
  destruct (List.find _ models) as [m|] eqn:Hfind.
  - apply List.find_some in Hfind as [Hin Hid]. apply String.eqb_eq in Hid.
    exists m. split; [done|]. split; [by apply list_elem_of_In|].
    split; [done|]. split; [|done].
    intros Hnone. destruct (Hnone m); [by apply list_elem_of_In|done].
  - destruct models as [|m models]; [done|]. exists m.
    split; [done|]. split; [apply list_elem_of_here|].
    split; [|done].
    intros (m' & Hin & Hid). apply list_elem_of_In in Hin.
    pose proof (List.find_none _ _ Hfind m' Hin) as Hno. simpl in Hno.
    apply String.eqb_neq in Hno. done.
Qed.

Lemma current_model_is_listed_witness :
  let groq := {| ModelSelector.id := "llama"; ModelSelector.name := "Llama";
                 ModelSelector.description := "fast";
                 ModelSelector.provider := "groq" |} in
  let gem := {| ModelSelector.id := "gemini-pro"; ModelSelector.name := "Gemini";
                ModelSelector.description := "large";
                ModelSelector.provider := "gemini" |} in
  [groq; gem] ≠ []
  ∧ ModelSelector.currentModel "gemini-pro" [groq; gem] = Some gem
  ∧ ModelSelector.currentModel "removed-model" [groq; gem] = Some groq.
Proof.
  intros groq gem.
  destruct (current_model_is_listed "removed-model" [groq; gem] false
              ltac:(discriminate)) as (m & Hm & _ & _ & Hfirst & _).
  split; [discriminate|]. split; [reflexivity|].
  rewrite Hm. symmetry. apply Hfirst.
  intros m' Hin.
  repeat (apply elem_of_cons in Hin as [->|Hin]; [discriminate|]).
  by apply elem_of_nil in Hin.
Defined.

(** ** app/page.tsx: models, dataset list and selection *)

Ltac run_page :=
  unfold Page.loadModels, Page.loadDatasets, Page.selectDataset,
    Page.handleUploadSuccess, Page.handleDeleteDataset, Page.refreshData,
    Page.switchDataset,
    Page.getModels, Page.getDatasets, Page.getDataset,
    Page.getQuerySuggestions, Page.deleteDataset, Page.both, Page.round_trip,
    Page.set_state, Eff.bind, Eff.try_catch, Eff.try_finally, Eff.ret,
    Eff.read, Eff.update in *;
  simpl in *.

Lemma loadModels_answered srv s b ms d st1 :
  Page.on_models srv (Page.store b) = (Eff.Ok (ms, d), st1) →
  Page.loadModels srv (s, b)
  = (Eff.Ok tt,
     (Page.setModelsLoading false
        (Page.setSelectedModel
           (chosen_model (Page.localStorage b !! "preferred_model") ms d)
           (Page.setModels ms s)),
      {| Page.store := st1; Page.sent := Page.sent b ++ [Page.GetModels];
         Page.localStorage := Page.localStorage b |})).
Proof.
  intros Hanswer. run_page. rewrite Hanswer. simpl. unfold chosen_model.
  destruct (Page.localStorage b !! "preferred_model") as [saved|]; [|done].
  by destruct (Js.truthy saved && existsb _ ms).
Qed.

(** [loadModels] never throws and always ends with [modelsLoading]
    false.  From an answer it takes the list of models and selects the
    saved model if one is saved and listed, else the server's default;
    when the request is rejected, the models and the selection stay as
    they were. *)
Theorem load_models_outcomes
    (srv : Page.Server) (s : Page.State) (b : Page.Browser) :
  let after := Page.loadModels srv (s, b) in
  let saved := Page.localStorage b !! "preferred_model" in
  after.1 = Eff.Ok tt
  ∧ Page.modelsLoading after.2.1 = false
  ∧ Page.sent after.2.2 = Page.sent b ++ [Page.GetModels]
  ∧ Page.localStorage after.2.2 = Page.localStorage b
  ∧ match (Page.on_models srv (Page.store b)).1 with
    | Eff.Ok (ms, d) =>
        Page.models after.2.1 = ms
        ∧ (Page.selectedModel after.2.1 = d
           ∨ saved = Some (Page.selectedModel after.2.1)
             ∧ ∃ m, m ∈ ms ∧ ModelSelector.id m = Page.selectedModel after.2.1)
        ∧ (∀ m, saved = Some m → Js.truthy m = true →
                (∃ x, x ∈ ms ∧ ModelSelector.id x = m) →
                Page.selectedModel after.2.1 = m)
    | Eff.Throw _ =>
        Page.models after.2.1 = Page.models s
        ∧ Page.selectedModel after.2.1 = Page.selectedModel s
    end.
Proof.
  destruct (Page.on_models srv (Page.store b)) as [[[ms d]|e] st1] eqn:Hanswer.
  - rewrite (loadModels_answered srv s b ms d st1 Hanswer). simpl.
    repeat split.
    + unfold chosen_model.
      destruct (Page.localStorage b !! "preferred_model") as [saved|]; [|by left].
      destruct (Js.truthy saved) eqn:Ht; simpl; [|by left].
      destruct (existsb _ ms) eqn:Hex; [|by left].
      right. split; [done|]. apply existsb_exists in Hex as (m & Hin & Hid).
      exists m. split; [by apply list_elem_of_In|by apply String.eqb_eq].
    + intros m Hsaved Ht (x & Hin & Hid). unfold chosen_model.
      rewrite Hsaved, Ht. simpl.
      assert (existsb (fun x => String.eqb (ModelSelector.id x) m) ms = true) as ->;
        [|done].
      apply existsb_exists. exists x.
      split; [by apply list_elem_of_In|by apply String.eqb_eq].
  - run_page. rewrite Hanswer. simpl. by repeat split.
Qed.

Lemma load_models_outcomes_witness :
  let groq := {| ModelSelector.id := "llama"; ModelSelector.name := "Llama";
                 ModelSelector.description := "fast";
                 ModelSelector.provider := "groq" |} in
  let gem := {| ModelSelector.id := "gemini"; ModelSelector.name := "Gemini";
                ModelSelector.description := "large";
                ModelSelector.provider := "google" |} in
  let srv := {| Page.on_datasets := fun st => (Eff.Ok [], st);
                Page.on_dataset := Backend.get_dataset;
                Page.on_suggestions := fun _ st => (Eff.Ok [], st);
                Page.on_delete := fun id st => (Eff.Ok tt, delete id st);
                Page.on_models := fun st => (Eff.Ok ([groq; gem], "llama"), st) |} in
  let b := {| Page.store := Sample.store0; Page.sent := [];
              Page.localStorage := {["preferred_model" := "gemini"]} |} in
  Page.selectedModel (Page.loadModels srv (Page.initial, b)).2.1 = "gemini".
Proof.
  intros groq gem srv b.
  pose proof (load_models_outcomes srv Page.initial b) as H.
  cbv zeta in H. destruct H as (_ & _ & _ & _ & H).
  change (Page.on_models srv (Page.store b)).1
    with (Eff.Ok (A:=list ModelSelector.Model * string) ([groq; gem], "llama"))
    in H.
  cbv beta iota in H. destruct H as (_ & _ & H).
  apply (H "gemini"); [reflexivity|reflexivity|].
  exists gem. split; [|reflexivity]. apply list_elem_of_further, list_elem_of_here.
Defined.

(** The selection is stable across reloads: when the server gives the
    same answer, loading the models again on the local storage the first
    load left, from any state, selects the same model. *)
Theorem model_choice_survives_reload
    (srv : Page.Server) (ms : list ModelSelector.Model) (d : string)
    (s s2 : Page.State) (b : Page.Browser)
    (Hanswer : ∀ st, Page.on_models srv st = (Eff.Ok (ms, d), st)) :
  let first := Page.persistModel (Page.loadModels srv (s, b)).2 in
  let second := Page.persistModel (Page.loadModels srv (s2, first.2)).2 in
  Page.selectedModel second.1 = Page.selectedModel first.1.
Proof.
  rewrite (loadModels_answered srv s b ms d _ (Hanswer _)).
  unfold Page.persistModel at 2. simpl.
  set (saved := Page.localStorage b !! "preferred_model").
  destruct (Js.truthy (chosen_model saved ms d)) eqn:Ht; simpl.
  - rewrite (loadModels_answered srv s2 _ ms d _ (Hanswer _)). simpl.
    rewrite lookup_insert_eq.
    assert (chosen_model (Some (chosen_model saved ms d)) ms d
            = chosen_model saved ms d) as Hsame.
    { unfold chosen_model at 1. rewrite Ht. simpl.
      destruct (existsb _ ms) eqn:Hex; [done|].
      unfold chosen_model in *. destruct saved as [m|]; [|done].
      destruct (Js.truthy m && existsb _ ms) eqn:Hm; [|done].
      apply andb_true_iff in Hm as [_ Hm]. congruence. }
    rewrite Hsame. unfold Page.persistModel. simpl. by rewrite Ht.
  - rewrite (loadModels_answered srv s2 _ ms d _ (Hanswer _)). simpl.
    fold saved. unfold Page.persistModel. simpl. by rewrite Ht.
Qed.

Lemma model_choice_survives_reload_witness :
  let groq := {| ModelSelector.id := "llama"; ModelSelector.name := "Llama";
                 ModelSelector.description := "fast";
                 ModelSelector.provider := "groq" |} in
  let srv := {| Page.on_datasets := fun st => (Eff.Ok [], st);
                Page.on_dataset := Backend.get_dataset;
                Page.on_suggestions := fun _ st => (Eff.Ok [], st);
                Page.on_delete := fun id st => (Eff.Ok tt, delete id st);
                Page.on_models := fun st => (Eff.Ok ([groq], "llama"), st) |} in
  let b := {| Page.store := Sample.store0; Page.sent := [];
              Page.localStorage := {["preferred_model" := "retired"]} |} in
  let first := Page.persistModel (Page.loadModels srv (Page.initial, b)).2 in
  Page.selectedModel first.1 = "llama"
  ∧ Page.localStorage first.2 !! "preferred_model" = Some "llama"
  ∧ Page.selectedModel
      (Page.persistModel (Page.loadModels srv (Page.initial, first.2)).2).1
    = "llama".
Proof.
  intros groq srv b first.
  pose proof (model_choice_survives_reload srv [groq] "llama" Page.initial
                Page.initial b (fun st => eq_refl)) as Hsame.
  assert (H1 : Page.selectedModel first.1 = "llama") by reflexivity.
  split; [exact H1|]. split; [reflexivity|].
  etrans; [exact Hsame|exact H1].
Defined.

(** [handleDeleteDataset] never throws, and never touches the
    suggestions or the pagination.  Declined in the dialog it does
    nothing and sends nothing.  Confirmed it sends one delete request;
    when that succeeds no dataset of that id is left in the list, and
    the selection and the table are cleared exactly when the deleted
    dataset was the selected one; when it is rejected the state is as
    before. *)
Theorem delete_outcomes
    (srv : Page.Server) (confirmed : bool) (datasetId : string)
    (s : Page.State) (b : Page.Browser) :
  let after := Page.handleDeleteDataset srv confirmed datasetId (s, b) in
  after.1 = Eff.Ok tt
  ∧ Page.suggestions after.2.1 = Page.suggestions s
  ∧ Page.pagination after.2.1 = Page.pagination s
  ∧ (confirmed = false → after.2 = (s, b))
  ∧ (confirmed = true →
       Page.sent after.2.2 = Page.sent b ++ [Page.DeleteDataset datasetId]
       ∧ match (Page.on_delete srv datasetId (Page.store b)).1 with
         | Eff.Ok _ =>
             Page.datasets after.2.1
             = filter (fun d => Api.id d ≠ datasetId) (Page.datasets s)
             ∧ (∀ d, d ∈ Page.datasets after.2.1 → Api.id d ≠ datasetId)
             ∧ match Page.selectedDataset s with
               | Some d =>
                   if decide (Api.id d = datasetId)
                   then Page.selectedDataset after.2.1 = None
                        ∧ Page.tableData after.2.1 = []
                   else Page.selectedDataset after.2.1 = Some d
                        ∧ Page.tableData after.2.1 = Page.tableData s
               | None =>
                   Page.selectedDataset after.2.1 = None
                   ∧ Page.tableData after.2.1 = Page.tableData s
               end
         | Eff.Throw _ => after.2.1 = s
         end).
Proof.
  destruct confirmed; run_page; [|by repeat split].
  destruct (Page.on_delete srv datasetId (Page.store b)) as [[[]|e] st1] eqn:Hd;
    simpl.
  - destruct (Page.selectedDataset s) as [d|] eqn:Hsel; simpl.
    + destruct (String.eqb_spec (Api.id d) datasetId) as [Hid|Hid]; simpl;
        (split; [done|split; [done|split; [done|split; [done|]]]]);
        intros _; (split; [done|]); (split; [done|]);
        (split; [by intros x [Hx _]%list_elem_of_filter|]);
        by case_decide.
    + split; [done|split; [done|split; [done|split; [done|]]]].
      intros _. split; [done|]. split; [done|].
      split; [by intros x [Hx _]%list_elem_of_filter|done].
  - destruct s. by repeat split.
Qed.

Lemma delete_outcomes_witness :
  let srv := {| Page.on_datasets := fun st => (Eff.Ok [], st);
                Page.on_dataset := Backend.get_dataset;
                Page.on_suggestions := fun _ st => (Eff.Ok [], st);
                Page.on_delete := fun id st => (Eff.Ok tt, delete id st);
                Page.on_models := fun st => (Eff.Ok ([], "llama"), st) |} in
  let s := Page.setDatasets (fun _ => [Sample.info]) Page.initial in
  let b := {| Page.store := Sample.store0; Page.sent := [];
              Page.localStorage := ∅ |} in
  Page.handleDeleteDataset srv false "d1" (s, b) = (Eff.Ok tt, (s, b))
  ∧ Page.sent (Page.handleDeleteDataset srv true "d1" (s, b)).2.2
    = [Page.DeleteDataset "d1"].
Proof.
  intros srv s b. split.
  - pose proof (delete_outcomes srv false "d1" s b) as H. cbv zeta in H.
    destruct H as (Hok & _ & _ & Hsame & _).
    specialize (Hsame eq_refl).
    destruct (Page.handleDeleteDataset srv false "d1" (s, b)) as [o sb].
    simpl in *. by subst.
  - pose proof (delete_outcomes srv true "d1" s b) as H. cbv zeta in H.
    destruct H as (_ & _ & _ & _ & H). exact (proj1 (H eq_refl)).
Defined.

(** [selectDataset] never throws; it always selects the dataset, sends
    both requests (the first page of fifty rows, then the suggestions)
    and ends with [loading] false.  The table, the pagination and the
    suggestions are replaced together when both requests succeed, and
    all three stay as they were when either is rejected: the table then
    still shows the rows of the dataset selected before. *)
Theorem select_dataset_outcomes
    (srv : Page.Server) (dataset : Api.DatasetInfo)
    (s : Page.State) (b : Page.Browser) :
  let after := Page.selectDataset srv dataset (s, b) in
  let first := Page.on_dataset srv (Api.id dataset) 1 50 (Page.store b) in
  let second := Page.on_suggestions srv (Api.id dataset) first.2 in
  after.1 = Eff.Ok tt
  ∧ Page.selectedDataset after.2.1 = Some dataset
  ∧ Page.loading after.2.1 = false
  ∧ Page.datasets after.2.1 = Page.datasets s
  ∧ Page.sent after.2.2
    = Page.sent b ++ [Page.GetDataset (Api.id dataset) 1 50;
                      Page.GetSuggestions (Api.id dataset)]
  ∧ Page.store after.2.2 = second.2
  ∧ match first.1, second.1 with
    | Eff.Ok page, Eff.Ok sugg =>
        Page.tableData after.2.1 = Api.page_data page
        ∧ Page.pagination after.2.1 = Api.pagination page
        ∧ Page.suggestions after.2.1 = sugg
    | _, _ =>
        Page.tableData after.2.1 = Page.tableData s
        ∧ Page.pagination after.2.1 = Page.pagination s
        ∧ Page.suggestions after.2.1 = Page.suggestions s
    end.
Proof.
  run_page.
  destruct (Page.on_dataset srv (Api.id dataset) 1 50 (Page.store b))
    as [[page|e1] st1] eqn:H1; simpl;
    destruct (Page.on_suggestions srv (Api.id dataset) st1)
      as [[sugg|e2] st2] eqn:H2; simpl;
    rewrite <- ?app_assoc; by repeat split.
Qed.

(** [refreshData] never throws and never changes the list of datasets.
    With no dataset selected it does nothing and sends nothing.  With
    one selected it asks for the current page at the current page size
    and for the suggestions, and ends with [loading] false; the
    selection, the table, the pagination and the suggestions are
    replaced together when both requests succeed and all stay as they
    were when either is rejected. *)
Theorem refresh_outcomes
    (srv : Page.Server) (s : Page.State) (b : Page.Browser) :
  let after := Page.refreshData srv (s, b) in
  after.1 = Eff.Ok tt
  ∧ Page.datasets after.2.1 = Page.datasets s
  ∧ match Page.selectedDataset s with
    | None => after.2 = (s, b)
    | Some ds =>
        let first :=
          Page.on_dataset srv (Api.id ds) (Api.current_page (Page.pagination s))
            (Api.page_size (Page.pagination s)) (Page.store b) in
        let second := Page.on_suggestions srv (Api.id ds) first.2 in
        Page.loading after.2.1 = false
        ∧ Page.sent after.2.2
          = Page.sent b
            ++ [Page.GetDataset (Api.id ds)
                  (Api.current_page (Page.pagination s))
                  (Api.page_size (Page.pagination s));
                Page.GetSuggestions (Api.id ds)]
        ∧ match first.1, second.1 with
          | Eff.Ok page, Eff.Ok sugg =>
              Page.selectedDataset after.2.1 = Some (Api.page_info page)
              ∧ Page.tableData after.2.1 = Api.page_data page
              ∧ Page.pagination after.2.1 = Api.pagination page
              ∧ Page.suggestions after.2.1 = sugg
          | _, _ =>
              Page.selectedDataset after.2.1 = Some ds
              ∧ Page.tableData after.2.1 = Page.tableData s
              ∧ Page.pagination after.2.1 = Page.pagination s
              ∧ Page.suggestions after.2.1 = Page.suggestions s
          end
    end.
Proof.
  run_page. destruct (Page.selectedDataset s) as [ds|] eqn:Hsel; [|done].
  simpl.
  destruct (Page.on_dataset srv (Api.id ds) _ _ (Page.store b))
    as [[page|e1] st1] eqn:H1; simpl;
    destruct (Page.on_suggestions srv (Api.id ds) st1)
      as [[sugg|e2] st2] eqn:H2; simpl;
    rewrite <- ?app_assoc; by repeat split.
Qed.

(** An uploaded dataset heads the list and is selected.  The delete
    button is offered once no dataset is selected: after Switch Dataset,
    deleting the uploaded dataset, when the server accepts the deletion,
    leaves no dataset of its id in the list and no selection, but the
    rows, the pagination and the suggestions loaded for it stay in the
    page's state. *)
Theorem uploaded_dataset_can_be_deleted
    (srv : Page.Server) (data : Api.DatasetPreview)
    (s : Page.State) (b : Page.Browser)
    (Haccepted : ∀ st, (Page.on_delete srv (Api.id (Api.info data)) st).1
                       = Eff.Ok tt) :
  let uploaded := (Page.handleUploadSuccess srv data (s, b)).2 in
  let switched := (Page.switchDataset uploaded).2 in
  let deleted :=
    (Page.handleDeleteDataset srv true (Api.id (Api.info data)) switched).2 in
  Page.datasets uploaded.1 = Api.info data :: Page.datasets s
  ∧ Page.selectedDataset uploaded.1 = Some (Api.info data)
  ∧ Page.selectedDataset switched.1 = None
  ∧ Page.datasets deleted.1
    = filter (fun d => Api.id d ≠ Api.id (Api.info data)) (Page.datasets s)
  ∧ Page.selectedDataset deleted.1 = None
  ∧ Page.tableData deleted.1 = Page.tableData uploaded.1
  ∧ Page.pagination deleted.1 = Page.pagination uploaded.1
  ∧ Page.suggestions deleted.1 = Page.suggestions uploaded.1
  ∧ Page.sent deleted.2
    = Page.sent b ++ [Page.GetDataset (Api.id (Api.info data)) 1 50;
                      Page.GetSuggestions (Api.id (Api.info data));
                      Page.DeleteDataset (Api.id (Api.info data))].
Proof.
  do 2 run_page.
  destruct (Page.on_dataset srv (Api.id (Api.info data)) 1 50 (Page.store b))
    as [[page|e1] st1];
    simpl;
    destruct (Page.on_suggestions srv (Api.id (Api.info data)) st1)
      as [[sugg|e2] st2]; simpl;
    (match goal with
     | |- context [Page.on_delete srv ?i ?st] =>
         pose proof (Haccepted st) as Hd;
         destruct (Page.on_delete srv i st) as [[[]|e3] st3]; simpl in Hd;
         [|done]
     end);
    simpl; rewrite filter_cons_False by (by intros ?);
    rewrite <- ?app_assoc; by repeat split.
Qed.

Lemma uploaded_dataset_can_be_deleted_witness :
  let srv := {| Page.on_datasets := fun st => (Eff.Ok [], st);
                Page.on_dataset := Backend.get_dataset;
                Page.on_suggestions := fun _ st => (Eff.Ok [], st);
                Page.on_delete := fun id st => (Eff.Ok tt, delete id st);
                Page.on_models := fun st => (Eff.Ok ([], "llama"), st) |} in
  let data := {| Api.info := Sample.info; Api.preview_data := Sample.rows |} in
  let b := {| Page.store := Sample.store0; Page.sent := [];
              Page.localStorage := ∅ |} in
  let uploaded := (Page.handleUploadSuccess srv data (Page.initial, b)).2 in
  let switched := (Page.switchDataset uploaded).2 in
  let deleted :=
    (Page.handleDeleteDataset srv true (Api.id (Api.info data)) switched).2 in
  Page.datasets uploaded.1 = [Sample.info]
  ∧ Page.tableData uploaded.1 = Sample.rows
  ∧ Page.datasets deleted.1 = []
  ∧ Page.selectedDataset deleted.1 = None
  ∧ Page.tableData deleted.1 = Sample.rows
  ∧ Page.store deleted.2 = ∅.
Proof.
  intros srv data b uploaded switched deleted.
  destruct (uploaded_dataset_can_be_deleted srv data Page.initial b
              (fun st => eq_refl))
    as (Hlist & _ & _ & Hrest & Hsel & Htable & _).
  assert (Hrows : Page.tableData uploaded.1 = Sample.rows) by reflexivity.
  split; [exact Hlist|]. split; [exact Hrows|]. split; [exact Hrest|].
  split; [exact Hsel|]. split; [etrans; [exact Htable|exact Hrows]|].
  vm_compute. reflexivity.
Defined.
